(** * Session persistence and message reconciliation of the agent service

    A shallow embedding of the Event Codec and Session Store
    ([postgres_session_service.py]), the Message Reconciler
    ([openai_model.py], [LiteLlm.generate_content_async]) and the Turn
    Streaming Coordinator ([server.py]), with the properties the
    specification states about them. *)

From Stdlib Require Import ZArith String Ascii List Bool Lia.
From stdpp Require Import base option list gmap strings pretty.

Local Open Scope string_scope.
Local Open Scope Z_scope.
Local Open Scope list_scope.

(** ** Python values

    The values tool calls and tool results carry are arbitrary Python
    objects.  [PObj] is an instance of a user class: [has_dict] says whether
    the instance has a [__dict__], and [attrs] lists its attributes in
    definition order.  A float is carried by its [repr]. *)

Inductive pykey : Type :=
| KStr (s : string)
| KInt (n : Z)
| KBool (b : bool)
| KFloat (repr : string)
| KNone
| KOther (repr : string).     (* any other hashable key: a tuple, a frozenset, ... *)

#[local] Unset Elimination Schemes.
Inductive pyval : Type :=
| PNone
| PBool (b : bool)
| PInt (n : Z)
| PFloat (repr : string)
| PStr (s : string)
| PList (items : list pyval)
| PTuple (items : list pyval)
| PDict (items : list (pykey * pyval))
| PObj (cls : string) (has_dict : bool) (attrs : list (string * pyval)).

#[local] Set Elimination Schemes.

#[global] Instance pykey_eq_dec : EqDecision pykey.
Proof. solve_decision. Defined.

(** Induction over [pyval] that reaches the elements of containers. *)
Section PyvalInd.
Variable P : pyval -> Prop.
Hypothesis HNone : P PNone.
Hypothesis HBool : forall b, P (PBool b).
Hypothesis HInt : forall n, P (PInt n).
Hypothesis HFloat : forall r, P (PFloat r).
Hypothesis HStr : forall s, P (PStr s).
Hypothesis HList : forall l, Forall P l -> P (PList l).
Hypothesis HTuple : forall l, Forall P l -> P (PTuple l).
Hypothesis HDict : forall kvs, Forall (fun kv => P (snd kv)) kvs -> P (PDict kvs).
Hypothesis HObj : forall c d attrs,
    Forall (fun kv => P (snd kv)) attrs -> P (PObj c d attrs).

Fixpoint pyval_rect' (v : pyval) : P v :=
  match v with
  | PNone => HNone
  | PBool b => HBool b
  | PInt n => HInt n
  | PFloat r => HFloat r
  | PStr s => HStr s
  | PList l =>
      HList l ((fix go (l : list pyval) : Forall P l :=
                  match l with
                  | [] => Forall_nil_2 P
                  | x :: t => Forall_cons_2 P x t (pyval_rect' x) (go t)
                  end) l)
  | PTuple l =>
      HTuple l ((fix go (l : list pyval) : Forall P l :=
                   match l with
                   | [] => Forall_nil_2 P
                   | x :: t => Forall_cons_2 P x t (pyval_rect' x) (go t)
                   end) l)
  | PDict kvs =>
      HDict kvs ((fix go (l : list (pykey * pyval))
                    : Forall (fun kv => P (snd kv)) l :=
                    match l with
                    | [] => Forall_nil_2 _
                    | kv :: t =>
                        Forall_cons_2 (fun kv => P (snd kv)) kv t
                          (pyval_rect' (snd kv)) (go t)
                    end) kvs)
  | PObj c d attrs =>
      HObj c d attrs ((fix go (l : list (string * pyval))
                         : Forall (fun kv => P (snd kv)) l :=
                         match l with
                         | [] => Forall_nil_2 _
                         | kv :: t =>
                             Forall_cons_2 (fun kv => P (snd kv)) kv t
                               (pyval_rect' (snd kv)) (go t)
                         end) attrs)
  end.
End PyvalInd.

(** Python truthiness of a string, an optional string and a value. *)
Definition str_truthy (s : string) : bool :=
  match s with "" => false | _ => true end.

Definition opt_truthy (o : option string) : bool :=
  match o with Some s => str_truthy s | None => false end.

Definition truthy (v : pyval) : bool :=
  match v with
  | PNone => false
  | PBool b => b
  | PInt n => negb (n =? 0)
  | PFloat r => negb (bool_decide (r = "0.0" \/ r = "-0.0"))
  | PStr s => str_truthy s
  | PList l | PTuple l => match l with [] => false | _ => true end
  | PDict kvs => match kvs with [] => false | _ => true end
  | PObj _ _ _ => true
  end.

(** [d.get(k)], [k in d] and [d[k] = v] on an insertion-ordered dict. *)
Fixpoint dict_get {V : Type} (k : pykey) (d : list (pykey * V)) : option V :=
  match d with
  | [] => None
  | (k', v) :: t => if decide (k' = k) then Some v else dict_get k t
  end.

Fixpoint dict_set {V : Type} (k : pykey) (v : V) (d : list (pykey * V))
  : list (pykey * V) :=
  match d with
  | [] => [(k, v)]
  | (k', v') :: t =>
      if decide (k' = k) then (k', v) :: t else (k', v') :: dict_set k v t
  end.

Definition dict_of_pairs {V : Type} (l : list (pykey * V)) : list (pykey * V) :=
  fold_left (fun d kv => dict_set (fst kv) (snd kv) d) l [].

(** ** Exceptions and results *)

(** An exception by its class; [msg] is what [str(e)] gives. *)
Inductive exn : Type :=
| ValueError (msg : string)
| TypeError (msg : string)
| KeyError (key : string)
| ValidationError (msg : string)
| OperationalError (msg : string)
| OtherError (cls msg : string).

Inductive result (A : Type) : Type :=
| Ok (a : A)
| Raise (e : exn).
Arguments Ok {A} a.
Arguments Raise {A} e.

Definition rbind {A B : Type} (r : result A) (f : A -> result B) : result B :=
  match r with Ok a => f a | Raise e => Raise e end.

Fixpoint rmap_list {A B : Type} (f : A -> result B) (l : list A)
  : result (list B) :=
  match l with
  | [] => Ok []
  | x :: t => rbind (f x) (fun y => rbind (rmap_list f t) (fun ys => Ok (y :: ys)))
  end.

(** [str(e)] of an exception. *)
Definition exn_str (e : exn) : string :=
  match e with
  | ValueError m | TypeError m | ValidationError m | OperationalError m => m
  | KeyError k => "'" +:+ k +:+ "'"
  | OtherError _ m => m
  end.

(** ** The json module, at the level of documents

    [json.dumps] with its default encoder accepts None, bool, int, float,
    str, list, tuple and dict whose keys are str, int, float, bool or None,
    and raises [TypeError] on everything else.  A document stands for the
    text [json.dumps] writes; [json_loads] is [json.loads] on that text. *)

#[local] Unset Elimination Schemes.
Inductive json : Type :=
| JNull
| JBool (b : bool)
| JInt (n : Z)
| JFloat (repr : string)
| JStr (s : string)
| JArr (items : list json)
| JObj (members : list (string * json)).

#[local] Set Elimination Schemes.

(** Induction over [json] that reaches the members of containers. *)
Section JsonInd.
Variable P : json -> Prop.
Hypothesis HNull : P JNull.
Hypothesis HBool : forall b, P (JBool b).
Hypothesis HInt : forall n, P (JInt n).
Hypothesis HFloat : forall r, P (JFloat r).
Hypothesis HStr : forall s, P (JStr s).
Hypothesis HArr : forall l, Forall P l -> P (JArr l).
Hypothesis HObj : forall ms, Forall (fun m => P (snd m)) ms -> P (JObj ms).

Fixpoint json_rect' (j : json) : P j :=
  match j with
  | JNull => HNull
  | JBool b => HBool b
  | JInt n => HInt n
  | JFloat r => HFloat r
  | JStr s => HStr s
  | JArr l =>
      HArr l ((fix go (l : list json) : Forall P l :=
                 match l with
                 | [] => Forall_nil_2 P
                 | x :: t => Forall_cons_2 P x t (json_rect' x) (go t)
                 end) l)
  | JObj ms =>
      HObj ms ((fix go (l : list (string * json)) : Forall (fun m => P (snd m)) l :=
                  match l with
                  | [] => Forall_nil_2 _
                  | m :: t =>
                      Forall_cons_2 (fun m => P (snd m)) m t (json_rect' (snd m)) (go t)
                  end) ms)
  end.
End JsonInd.

Definition key_text (k : pykey) : option string :=
  match k with
  | KStr s => Some s
  | KInt n => Some (pretty n)
  | KBool true => Some "true"
  | KBool false => Some "false"
  | KFloat r => Some r
  | KNone => Some "null"
  | KOther _ => None
  end.

Fixpoint json_encodable (v : pyval) : bool :=
  match v with
  | PNone | PBool _ | PInt _ | PFloat _ | PStr _ => true
  | PList l | PTuple l => forallb json_encodable l
  | PDict kvs =>
      forallb (fun kv => bool_decide (is_Some (key_text (fst kv)))
                         && json_encodable (snd kv)) kvs
  | PObj _ _ _ => false
  end.

Fixpoint json_doc (v : pyval) : json :=
  match v with
  | PNone => JNull
  | PBool b => JBool b
  | PInt n => JInt n
  | PFloat r => JFloat r
  | PStr s => JStr s
  | PList l | PTuple l => JArr (map json_doc l)
  | PDict kvs =>
      JObj (map (fun kv => (default "" (key_text (fst kv)), json_doc (snd kv))) kvs)
  | PObj _ _ _ => JNull
  end.

Definition json_dumps (v : pyval) : result json :=
  if json_encodable v then Ok (json_doc v)
  else Raise (TypeError "Object is not JSON serializable").

Fixpoint json_loads (j : json) : pyval :=
  match j with
  | JNull => PNone
  | JBool b => PBool b
  | JInt n => PInt n
  | JFloat r => PFloat r
  | JStr s => PStr s
  | JArr l => PList (map json_loads l)
  | JObj ms => PDict (dict_of_pairs (map (fun m => (KStr (fst m), json_loads (snd m))) ms))
  end.

(** [json.loads(json.dumps(v))], for a value [json.dumps] accepts. *)
Definition reload (v : pyval) : pyval := json_loads (json_doc v).

(** ** The framework's conversation types *)

(** Modelled from the spec: the types [FunctionCall], [FunctionResponse],
    [Part], [Content], [Event] and [Session] of the agent framework
    ([google.genai.types], [google.adk.events], [google.adk.sessions]) are
    imported by the source and not part of it; the records follow section 3
    of the specification and keep the field names the source reads. *)
Module FunctionCall.
Record t : Type := mk { id : option string; name : string; args : pyval }.
End FunctionCall.

Module FunctionResponse.
Record t : Type := mk { id : option string; name : string; response : pyval }.
End FunctionResponse.

Module Part.
Record t : Type := mk {
  text : option string;
  function_call : option FunctionCall.t;
  function_response : option FunctionResponse.t }.

Definition of_text (s : string) : t := mk (Some s) None None.
Definition of_call (fc : FunctionCall.t) : t := mk None (Some fc) None.
Definition of_response (fr : FunctionResponse.t) : t := mk None None (Some fr).
End Part.

Module Content.
Record t : Type := mk { role : string; parts : list Part.t }.
End Content.

Module Event.
Record t : Type := mk { author : string; content : option Content.t }.
End Event.

Module Session.
Record t : Type := mk {
  app_name : string;
  user_id : string;
  id : string;
  events : list Event.t }.
End Session.

(** ** Attribute access on Python objects *)

Fixpoint attr_get {V : Type} (name : string) (attrs : list (string * V)) : option V :=
  match attrs with
  | [] => None
  | (k, v) :: t => if String.eqb k name then Some v else attr_get name t
  end.

(** [hasattr(obj, name)] followed by [obj.name]. *)
Definition getattr (name : string) (obj : pyval) : option pyval :=
  match obj with
  | PObj _ _ attrs => attr_get name attrs
  | _ => None
  end.

(** [k.startswith('_')] *)
Definition is_private (k : string) : bool :=
  match k with
  | String c _ => Ascii.eqb c "_"%char
  | EmptyString => false
  end.

(** [{k: v for k, v in obj.__dict__.items() if not k.startswith('_')}] *)
Definition public_dict (attrs : list (string * pyval)) : list (pykey * pyval) :=
  map (fun kv => (KStr (fst kv), snd kv))
      (filter (fun kv => is_private (fst kv) = false) attrs).

(** The same two traversals with a function applied to the value: the
    first attribute called [name], and the public attributes as a dict. *)
Section AttrTraversal.
Context {A : Type} (f : pyval -> A).

Fixpoint attr_get_with (name : string) (attrs : list (string * pyval)) : option A :=
  match attrs with
  | [] => None
  | (k, v) :: t => if String.eqb k name then Some (f v) else attr_get_with name t
  end.

Fixpoint public_with (attrs : list (string * pyval)) : list (pykey * A) :=
  match attrs with
  | [] => []
  | (k, v) :: t =>
      if is_private k then public_with t else (KStr k, f v) :: public_with t
  end.
End AttrTraversal.

Section Runtime.

(** [str(obj)] of an arbitrary object is left to the interpreter. *)
Variable py_str : pyval -> string.

(** *** Message Reconciler: [LiteLlm._safe_serialize] *)

Fixpoint _safe_serialize (obj : pyval) : pyval :=
  match obj with
  | PObj _ has_dict attrs =>
      (* hasattr(obj, 'value') *)
      match attr_get_with _safe_serialize "value" attrs with
      | Some r => r
      | None =>
          (* hasattr(obj, '__dict__'): the public attributes, as a dict *)
          if has_dict then PDict (public_with _safe_serialize attrs)
          else PStr (py_str obj)
      end
  | PDict kvs => PDict (map (fun kv => (fst kv, _safe_serialize (snd kv))) kvs)
  | PList l => PList (map _safe_serialize l)
  | PNone | PBool _ | PInt _ | PFloat _ | PStr _ => obj
  | PTuple _ => PStr (py_str obj)
  end.

(** *** Event Codec: [PostgresSessionService._serialize_event] *)

(** Lines 119-137: the response of a function_response part. *)
Definition normalize_response (response_data : pyval) : pyval :=
  let response_data :=
    match getattr "value" response_data with
    | Some v => v
    | None => response_data
    end in
  let response_data :=
    match response_data with
    | PObj _ true attrs => PDict (public_dict attrs)
    | _ => response_data
    end in
  if json_encodable response_data then response_data
  else PStr (py_str response_data).

Definition opt_str_val (o : option string) : pyval :=
  match o with Some s => PStr s | None => PNone end.

Definition serialize_function_call (fc : FunctionCall.t) : pyval :=
  PDict ([(KStr "name", PStr (FunctionCall.name fc));
          (KStr "args", FunctionCall.args fc)]
         ++ (if opt_truthy (FunctionCall.id fc)
             then [(KStr "id", opt_str_val (FunctionCall.id fc))]
             else [])).

Definition serialize_function_response (fr : FunctionResponse.t) : pyval :=
  PDict [(KStr "id", opt_str_val (FunctionResponse.id fr));
         (KStr "name", PStr (FunctionResponse.name fr));
         (KStr "response", normalize_response (FunctionResponse.response fr))].

Definition serialize_part (part : Part.t) : pyval :=
  if opt_truthy (Part.text part) then
    PDict [(KStr "text", opt_str_val (Part.text part))]
  else
    match Part.function_call part with
    | Some fc => PDict [(KStr "function_call", serialize_function_call fc)]
    | None =>
        match Part.function_response part with
        | Some fr =>
            PDict [(KStr "function_response", serialize_function_response fr)]
        | None => PDict []
        end
    end.

Definition _serialize_event (event : Event.t) : pyval :=
  PDict [(KStr "author", PStr (Event.author event));
         (KStr "content",
           match Event.content event with
           | Some c =>
               PDict [(KStr "role", PStr (Content.role c));
                      (KStr "parts", PList (map serialize_part (Content.parts c)))]
           | None => PNone
           end)].

End Runtime.

(** *** Event Codec: [PostgresSessionService._deserialize_event] *)

Definition as_dict (v : pyval) : result (list (pykey * pyval)) :=
  match v with
  | PDict d => Ok d
  | _ => Raise (TypeError "not a mapping")
  end.

Definition as_list (v : pyval) : result (list pyval) :=
  match v with
  | PList l => Ok l
  | _ => Raise (TypeError "not a list")
  end.

Definition as_str (v : pyval) : result string :=
  match v with
  | PStr s => Ok s
  | _ => Raise (ValidationError "str expected")
  end.

Definition as_opt_str (v : pyval) : result (option string) :=
  match v with
  | PStr s => Ok (Some s)
  | PNone => Ok None
  | _ => Raise (ValidationError "str or None expected")
  end.

(** What [FunctionResponse] accepts as its [response]: a mapping or
    [None]. *)
Definition as_opt_mapping (v : pyval) : result pyval :=
  match v with
  | PDict _ | PNone => Ok v
  | _ => Raise (ValidationError "dict or None expected")
  end.

(** [d[k]] *)
Definition subscript (d : list (pykey * pyval)) (k : string) : result pyval :=
  match dict_get (KStr k) d with
  | Some v => Ok v
  | None => Raise (KeyError k)
  end.

Notation "x <- r ;; k" := (rbind r (fun x => k))
  (at level 100, r at next level, right associativity, only parsing).

Definition deserialize_function_call (v : pyval) : result FunctionCall.t :=
  fc <- as_dict v ;;
  name <- rbind (subscript fc "name") as_str ;;
  args <- subscript fc "args" ;;
  (* the id is restored when present; a failed assignment is swallowed *)
  let id := match dict_get (KStr "id") fc with
            | Some (PStr s) => Some s
            | _ => None
            end in
  Ok (FunctionCall.mk id name args).

Definition deserialize_function_response (v : pyval) : result FunctionResponse.t :=
  fr <- as_dict v ;;
  id <- rbind (subscript fr "id") as_opt_str ;;
  name <- rbind (subscript fr "name") as_str ;;
  response <- rbind (subscript fr "response") as_opt_mapping ;;
  Ok (FunctionResponse.mk id name response).

(** The parts one stored part record contributes: one, or none when the
    record carries none of the three tags. *)
Definition deserialize_part (part_dict : pyval) : result (list Part.t) :=
  d <- as_dict part_dict ;;
  match dict_get (KStr "text") d with
  | Some t => s <- as_opt_str t ;; Ok [Part.mk s None None]
  | None =>
      match dict_get (KStr "function_call") d with
      | Some v => fc <- deserialize_function_call v ;; Ok [Part.of_call fc]
      | None =>
          match dict_get (KStr "function_response") d with
          | Some v => fr <- deserialize_function_response v ;; Ok [Part.of_response fr]
          | None => Ok []
          end
      end
  end.

Fixpoint deserialize_parts (l : list pyval) : result (list Part.t) :=
  match l with
  | [] => Ok []
  | part_dict :: rest =>
      ps <- deserialize_part part_dict ;;
      qs <- deserialize_parts rest ;;
      Ok (ps ++ qs)
  end.

Definition _deserialize_event (event_dict : pyval) : result Event.t :=
  d <- as_dict event_dict ;;
  content <-
    match dict_get (KStr "content") d with
    | Some content_data =>
        if truthy content_data then
          cd <- as_dict content_data ;;
          part_dicts <- as_list (default (PList []) (dict_get (KStr "parts") cd)) ;;
          parts <- deserialize_parts part_dicts ;;
          role <- rbind (subscript cd "role") as_str ;;
          Ok (Some (Content.mk role parts))
        else Ok None
    | None => Ok None
    end ;;
  author <- rbind (subscript d "author") as_str ;;
  Ok (Event.mk author content).

(** ** Message Reconciler: the message list of [generate_content_async]

    A backend message is a Python dict.  [content] is [None] for the Python
    value [None]; [tool_calls] and [tool_call_id] are [None] when the key is
    absent. *)

Module ToolCall.
Record t : Type := mk {
  id : string;
  type : string;
  name : string;            (* function.name *)
  arguments : pyval }.      (* function.arguments *)
End ToolCall.

Module Message.
Record t : Type := mk {
  role : string;
  content : option string;
  tool_calls : option (list ToolCall.t);
  tool_call_id : option string }.

Definition with_tool_calls (tcs : option (list ToolCall.t)) (m : t) : t :=
  mk (role m) (content m) tcs (tool_call_id m).
End Message.

(** [x or "call_unknown"] *)
Definition or_unknown (o : option string) : string :=
  match o with
  | Some s => if str_truthy s then s else "call_unknown"
  | None => "call_unknown"
  end.

(** [s[:n]] *)
Definition str_prefix (n : nat) (s : string) : string := String.substring 0 n s.

Section Reconciler.

Variable py_str : pyval -> string.
(** The text [json.dumps] writes for a document. *)
Variable json_text : json -> string.

(** Lines 143-153: the content of one tool message. *)
Definition response_content (response_data : pyval) : string :=
  match _safe_serialize py_str response_data with
  | PStr s => s
  | serialized_data =>
      match json_dumps serialized_data with
      | Ok j => json_text j
      | Raise _ =>
          "Error: Could not serialize response - "
            +:+ str_prefix 100 (py_str response_data)
      end
  end.

(** Line 137: [json.dumps(args) if isinstance(args, dict) else args] *)
Definition call_arguments (args : pyval) : result pyval :=
  match args with
  | PDict _ => j <- json_dumps args ;; Ok (PStr (json_text j))
  | _ => Ok args
  end.

(** The three accumulators of the loop over the parts of one content. *)
Record part_acc : Type := mk_acc {
  content_text : string;
  acc_tool_calls : list ToolCall.t;
  tool_responses : list Message.t }.

Definition part_step (acc : part_acc) (part : Part.t) : result part_acc :=
  if opt_truthy (Part.text part) then
    Ok (mk_acc (content_text acc +:+ default "" (Part.text part))
               (acc_tool_calls acc) (tool_responses acc))
  else
    match Part.function_call part with
    | Some fc =>
        arguments <- call_arguments (FunctionCall.args fc) ;;
        Ok (mk_acc (content_text acc)
                   (acc_tool_calls acc ++
                      [ToolCall.mk (or_unknown (FunctionCall.id fc)) "function"
                                   (FunctionCall.name fc) arguments])
                   (tool_responses acc))
    | None =>
        match Part.function_response part with
        | Some fr =>
            Ok (mk_acc (content_text acc) (acc_tool_calls acc)
                       (tool_responses acc ++
                          [Message.mk "tool"
                             (Some (response_content (FunctionResponse.response fr)))
                             None
                             (Some (or_unknown (FunctionResponse.id fr)))]))
        | None => Ok acc
        end
    end.

Fixpoint parts_loop (acc : part_acc) (parts : list Part.t) : result part_acc :=
  match parts with
  | [] => Ok acc
  | part :: rest => acc' <- part_step acc part ;; parts_loop acc' rest
  end.

(** Lines 119-175: the messages one content appends. *)
Definition content_messages (content : Content.t) : result (list Message.t) :=
  let role := if String.eqb (Content.role content) "user" then "user"
              else "assistant" in
  acc <- parts_loop (mk_acc "" [] []) (Content.parts content) ;;
  match tool_responses acc, acc_tool_calls acc with
  | _ :: _, _ => Ok (tool_responses acc)
  | [], _ :: _ =>
      Ok [Message.mk role
            (if str_truthy (content_text acc) then Some (content_text acc) else None)
            (Some (acc_tool_calls acc)) None]
  | [], [] =>
      if str_truthy (content_text acc)
      then Ok [Message.mk role (Some (content_text acc)) None None]
      else Ok []
  end.

Fixpoint contents_loop (contents : list Content.t) : result (list Message.t) :=
  match contents with
  | [] => Ok []
  | content :: rest =>
      ms <- content_messages content ;;
      ns <- contents_loop rest ;;
      Ok (ms ++ ns)
  end.

(** Lines 89-175: the list before the cleanup. *)
Definition raw_messages (system_instruction : option string)
           (contents : list Content.t) : result (list Message.t) :=
  ms <- contents_loop contents ;;
  Ok ((if opt_truthy system_instruction
       then [Message.mk "system" system_instruction None None]
       else []) ++ ms).

End Reconciler.

(** Lines 195-200: the ids that have a tool message. *)
Fixpoint tool_response_ids (messages : list Message.t) : gset string :=
  match messages with
  | [] => ∅
  | msg :: rest =>
      (if String.eqb (Message.role msg) "tool" && opt_truthy (Message.tool_call_id msg)
       then {[ default "" (Message.tool_call_id msg) ]}
       else ∅) ∪ tool_response_ids rest
  end.

(** Lines 204-224: what one message contributes to [cleaned_messages]. *)
Definition clean_message (ids : gset string) (msg : Message.t) : list Message.t :=
  match Message.tool_calls msg with
  | Some original_tool_calls =>
      if String.eqb (Message.role msg) "assistant" then
        let filtered_tool_calls :=
          filter (fun tc => ToolCall.id tc ∈ ids) original_tool_calls in
        match filtered_tool_calls with
        | _ :: _ => [Message.with_tool_calls (Some filtered_tool_calls) msg]
        | [] =>
            if opt_truthy (Message.content msg)
            then [Message.with_tool_calls None msg]
            else []
        end
      else [msg]
  | None => [msg]
  end.

Fixpoint clean_messages (ids : gset string) (messages : list Message.t)
  : list Message.t :=
  match messages with
  | [] => []
  | msg :: rest => clean_message ids msg ++ clean_messages ids rest
  end.

(** Lines 195-226. *)
Definition repair (messages : list Message.t) : list Message.t :=
  clean_messages (tool_response_ids messages) messages.

(** Lines 89-226: the messages handed to the completion backend. *)
Definition generate_content_messages (py_str : pyval -> string)
           (json_text : json -> string) (system_instruction : option string)
           (contents : list Content.t) : result (list Message.t) :=
  messages <- raw_messages py_str json_text system_instruction contents ;;
  Ok (repair messages).

(** *** The backend's requirement on a history *)

Definition is_tool (m : Message.t) : bool := String.eqb (Message.role m) "tool".

(** The tool calls of an assistant message that carries [tool_calls]. *)
Definition calls_of (m : Message.t) : list ToolCall.t :=
  if String.eqb (Message.role m) "assistant"
  then default [] (Message.tool_calls m) else [].

Definition answers (tc : ToolCall.t) (t : Message.t) : bool :=
  is_tool t && bool_decide (Message.tool_call_id t = Some (ToolCall.id tc)).

(** The run of tool messages a list starts with. *)
Fixpoint leading_tools (msgs : list Message.t) : list Message.t :=
  match msgs with
  | m :: rest => if is_tool m then m :: leading_tools rest else []
  | [] => []
  end.

(** Section 3: every assistant message with tool calls is immediately
    followed by a run of tool messages that answers each of its ids. *)
Fixpoint backend_invariant (msgs : list Message.t) : bool :=
  match msgs with
  | [] => true
  | m :: rest =>
      forallb (fun tc => existsb (answers tc) (leading_tools rest)) (calls_of m)
      && backend_invariant rest
  end.

(** The same with the answer anywhere in the list. *)
Definition answered_somewhere (msgs : list Message.t) : bool :=
  forallb (fun m => forallb (fun tc => existsb (answers tc) msgs) (calls_of m)) msgs.

(** ** Session Store: [PostgresSessionService]

    The table [adk_sessions] maps the primary key to its row.  The text
    column [events_json] is held as the JSON document it contains.  The
    connection is scripted: each round trip to the database (a query or a
    commit) takes the next entry of [faults] and raises it when it is an
    exception; an empty script is a healthy connection.  [effects] records
    the sleeps and pool disposals, most recent last.  A commit that raises
    may have been applied by the server before the connection dropped: the
    source neither rolls back nor checks; [lost_acks] says, for each commit
    that raises, whether it was. *)

Module SessionRecord.
Record t : Type := mk {
  id : string;
  app_name : string;
  user_id : string;
  session_id : string;
  events_json : json;
  created_at : Z;
  updated_at : Z }.
End SessionRecord.

Inductive effect : Type :=
| Sleep (seconds : Z)
| Dispose.

Record world : Type := mk_world {
  table : gmap string SessionRecord.t;
  faults : list (option exn);
  effects : list effect;
  utcnow : Z;
  lost_acks : list bool }.

Definition with_table (t : gmap string SessionRecord.t) (w : world) : world :=
  mk_world t (faults w) (effects w) (utcnow w) (lost_acks w).

Definition with_effect (e : effect) (w : world) : world :=
  mk_world (table w) (faults w) (effects w ++ [e]) (utcnow w) (lost_acks w).

(** Computations that read and change the world and may raise. *)
Definition M (A : Type) : Type := world -> result A * world.

Definition db_roundtrip : M unit := fun w =>
  match faults w with
  | [] => (Ok tt, w)
  | None :: fs => (Ok tt, mk_world (table w) fs (effects w) (utcnow w) (lost_acks w))
  | Some e :: fs => (Raise e, mk_world (table w) fs (effects w) (utcnow w) (lost_acks w))
  end.

(** [db.commit()] of the pending [write]: a round trip that applies the
    write when it returns and, when it raises, has applied it or not. *)
Definition db_commit (write : gmap string SessionRecord.t -> gmap string SessionRecord.t)
  : M unit := fun w =>
  match faults w with
  | [] => (Ok tt, with_table (write (table w)) w)
  | None :: fs =>
      (Ok tt, mk_world (write (table w)) fs (effects w) (utcnow w) (lost_acks w))
  | Some e :: fs =>
      match lost_acks w with
      | true :: rest =>
          (Raise e, mk_world (write (table w)) fs (effects w) (utcnow w) rest)
      | false :: rest => (Raise e, mk_world (table w) fs (effects w) (utcnow w) rest)
      | [] => (Raise e, mk_world (table w) fs (effects w) (utcnow w) [])
      end
  end.

(** [str.lower()] and [needle in haystack], on ASCII. *)
Definition lower_ascii (c : ascii) : ascii :=
  let n := nat_of_ascii c in
  if (Nat.leb 65 n && Nat.leb n 90)%bool then ascii_of_nat (n + 32) else c.

Fixpoint lower (s : string) : string :=
  match s with
  | EmptyString => EmptyString
  | String c t => String (lower_ascii c) (lower t)
  end.

Fixpoint contains (needle haystack : string) : bool :=
  String.prefix needle haystack
  || match haystack with
     | EmptyString => false
     | String _ t => contains needle t
     end.

(** Line 79. *)
Definition is_connection_error (msg : string) : bool :=
  contains "SSL connection has been closed" msg || contains "connection" (lower msg).

(** [_retry_on_connection_error]: [n] iterations of the loop remain and
    [attempt] is the loop variable.  [none] is the [None] returned when the
    loop runs out. *)
Fixpoint retry_loop {A : Type} (func : M A) (none : A) (max_retries : nat)
         (delay : Z) (n attempt : nat) : M A := fun w =>
  match n with
  | O => (Ok none, w)
  | S n' =>
      match func w with
      | (Ok a, w1) => (Ok a, w1)
      | (Raise (OperationalError msg), w1) =>
          if is_connection_error msg && Nat.ltb attempt (max_retries - 1)
          then retry_loop func none max_retries delay n' (S attempt)
                          (with_effect Dispose (with_effect (Sleep delay) w1))
          else (Raise (OperationalError msg), w1)
      | (Raise e, w1) => (Raise e, w1)
      end
  end.

Definition _retry_on_connection_error {A : Type} (func : M A) (none : A)
           (max_retries : nat) (delay : Z) : M A :=
  retry_loop func none max_retries delay max_retries 0.

Definition _make_session_key (app_name user_id session_id : string) : string :=
  app_name +:+ ":" +:+ user_id +:+ ":" +:+ session_id.

(** [[self._deserialize_event(e) for e in json.loads(events_json)]] *)
Definition load_events (events_json : json) : result (list Event.t) :=
  l <- as_list (json_loads events_json) ;;
  rmap_list _deserialize_event l.

Definition create_session (app_name user_id session_id : string) : M Session.t :=
  fun w =>
  let session_key := _make_session_key app_name user_id session_id in
  match db_roundtrip w with
  | (Raise e, w1) => (Raise e, w1)
  | (Ok _, w1) =>
      match table w1 !! session_key with
      | Some existing =>
          match load_events (SessionRecord.events_json existing) with
          | Ok events => (Ok (Session.mk app_name user_id session_id events), w1)
          | Raise e => (Raise e, w1)
          end
      | None =>
          let record := SessionRecord.mk session_key app_name user_id session_id
                          (JArr []) (utcnow w1) (utcnow w1) in
          match db_commit (insert session_key record) w1 with
          | (Raise e, w2) => (Raise e, w2)
          | (Ok _, w2) => (Ok (Session.mk app_name user_id session_id []), w2)
          end
      end
  end.

Definition _get_session_inner (app_name user_id session_id : string)
  : M (option Session.t) := fun w =>
  let session_key := _make_session_key app_name user_id session_id in
  match db_roundtrip w with
  | (Raise e, w1) => (Raise e, w1)
  | (Ok _, w1) =>
      match table w1 !! session_key with
      | None => (Ok None, w1)
      | Some record =>
          match load_events (SessionRecord.events_json record) with
          | Ok events => (Ok (Some (Session.mk app_name user_id session_id events)), w1)
          | Raise e => (Raise e, w1)
          end
      end
  end.

Definition get_session (app_name user_id session_id : string)
  : M (option Session.t) :=
  _retry_on_connection_error (_get_session_inner app_name user_id session_id) None 3 1.

(** The session a row of the table decodes to: what lines 253-268 return
    once the query has come back. *)
Definition materialize (t : gmap string SessionRecord.t)
           (app_name user_id session_id : string) : result (option Session.t) :=
  match t !! _make_session_key app_name user_id session_id with
  | None => Ok None
  | Some record =>
      match load_events (SessionRecord.events_json record) with
      | Ok events => Ok (Some (Session.mk app_name user_id session_id events))
      | Raise e => Raise e
      end
  end.

Definition delete_session (app_name user_id session_id : string) : M unit :=
  fun w =>
  let session_key := _make_session_key app_name user_id session_id in
  match db_roundtrip w with
  | (Raise e, w1) => (Raise e, w1)
  | (Ok _, w1) =>
      match table w1 !! session_key with
      | Some _ =>
          match db_commit (delete session_key) w1 with
          | (Raise e, w2) => (Raise e, w2)
          | (Ok _, w2) => (Ok tt, w2)
          end
      | None => (Ok tt, w1)
      end
  end.

Section Store.

Variable py_str : pyval -> string.

(** [append_event] mutates the caller's session object; the handle is
    returned next to the outcome, changed only where the source changes
    it. *)
Definition append_event (session : Session.t) (event : Event.t) (w : world)
  : result unit * Session.t * world :=
  let session_key := _make_session_key (Session.app_name session)
                       (Session.user_id session) (Session.id session) in
  match db_roundtrip w with
  | (Raise e, w1) => (Raise e, session, w1)
  | (Ok _, w1) =>
      match table w1 !! session_key with
      | None => (Raise (ValueError ("Session not found: " +:+ session_key)), session, w1)
      | Some record =>
          match as_list (json_loads (SessionRecord.events_json record)) with
          | Raise e => (Raise e, session, w1)
          | Ok events =>
              let events := (events ++ [_serialize_event py_str event]) in
              match json_dumps (PList events) with
              | Raise e => (Raise e, session, w1)
              | Ok new_json =>
                  let record' :=
                    SessionRecord.mk (SessionRecord.id record)
                      (SessionRecord.app_name record) (SessionRecord.user_id record)
                      (SessionRecord.session_id record) new_json
                      (SessionRecord.created_at record) (utcnow w1) in
                  match db_commit (insert session_key record') w1 with
                  | (Raise e, w2) => (Raise e, session, w2)
                  | (Ok _, w2) =>
                      (Ok tt,
                       Session.mk (Session.app_name session) (Session.user_id session)
                         (Session.id session) (Session.events session ++ [event]),
                       w2)
                  end
              end
          end
      end
  end.

End Store.

(** The primary key of a handle, the handle after an append and the row
    after its column is rewritten. *)
Definition session_key_of (session : Session.t) : string :=
  _make_session_key (Session.app_name session) (Session.user_id session)
                    (Session.id session).

Definition appended (session : Session.t) (event : Event.t) : Session.t :=
  Session.mk (Session.app_name session) (Session.user_id session)
             (Session.id session) (Session.events session ++ [event]).

Definition rewritten (record : SessionRecord.t) (events_json : json) (now : Z)
  : SessionRecord.t :=
  SessionRecord.mk (SessionRecord.id record) (SessionRecord.app_name record)
    (SessionRecord.user_id record) (SessionRecord.session_id record) events_json
    (SessionRecord.created_at record) now.

(** ** Secondary store: the chat session records of [database.py] *)

Module ChatMessage.
(** [content] is [None] when the key is missing or null. *)
Record t : Type := mk { role : string; content : option string; timestamp : Z }.
End ChatMessage.

Module ChatSession.
Record t : Type := mk { title : string; messages : list ChatMessage.t }.
End ChatSession.

Definition get_session_messages (mongo : gmap string ChatSession.t)
           (session_id : string) : option ChatSession.t :=
  mongo !! session_id.

Definition add_message_to_session (session_id role content : string) (now : Z)
           (mongo : gmap string ChatSession.t) : gmap string ChatSession.t :=
  match mongo !! session_id with
  | Some s =>
      <[session_id :=
          ChatSession.mk (ChatSession.title s)
            (ChatSession.messages s ++ [ChatMessage.mk role (Some content) now])]> mongo
  | None => mongo
  end.

(** ** Turn Streaming Coordinator: [server.py]

    A frame [Data j] is the chunk [data: <json.dumps(j)>] and [Done] is the
    chunk [data: [DONE]]. *)

Inductive frame : Type :=
| Data (payload : json)
| Done.

Definition content_frame (s : string) : frame := Data (JObj [("content", JStr s)]).
Definition session_frame (session_id : string) : frame :=
  Data (JObj [("session_id", JStr session_id)]).

Section Coordinator.

Variable py_str : pyval -> string.

(** The agent loop is a collaborator: given the user, the session id and
    the new message it yields a finite sequence of events and then
    either finishes or raises. *)
Variable run_async :
  string -> string -> Content.t -> world -> (list Event.t * option exn) * world.

(** Lines 92-102: the event replayed for one stored message. *)
Definition hydrated_event (msg : ChatMessage.t) : Event.t :=
  Event.mk (ChatMessage.role msg)
    (Some (Content.mk (ChatMessage.role msg)
             [Part.of_text (default "" (ChatMessage.content msg))])).

(** Lines 86-105. *)
Fixpoint hydrate (existing_session : Session.t) (messages : list ChatMessage.t)
         (w : world) : result unit * Session.t * world :=
  match messages with
  | [] => (Ok tt, existing_session, w)
  | msg :: rest =>
      if opt_truthy (ChatMessage.content msg) then
        match append_event py_str existing_session (hydrated_event msg) w with
        | (Ok _, session', w1) => hydrate session' rest w1
        | (Raise e, session', w1) => (Raise e, session', w1)
        end
      else hydrate existing_session rest w
  end.

(** Lines 72-109: the body of the first [try] of [stream_generator]. *)
Definition ensure_session (mongo : gmap string ChatSession.t)
           (user_id adk_session_id : string) : M Session.t := fun w =>
  match get_session "agents" user_id adk_session_id w with
  | (Raise e, w1) => (Raise e, w1)
  | (Ok (Some existing_session), w1) => (Ok existing_session, w1)
  | (Ok None, w1) =>
      match create_session "agents" user_id adk_session_id w1 with
      | (Raise e, w2) => (Raise e, w2)
      | (Ok existing_session, w2) =>
          match get_session_messages mongo adk_session_id with
          | Some mongo_session =>
              match hydrate existing_session (ChatSession.messages mongo_session) w2 with
              | (Ok _, session', w3) => (Ok session', w3)
              | (Raise e, _, w3) => (Raise e, w3)
              end
          | None => (Ok existing_session, w2)
          end
      end
  end.

(** Lines 126-129: the frames one event of the agent loop yields. *)
Definition event_frames (event : Event.t) : list frame :=
  match Event.content event with
  | Some c =>
      flat_map (fun part =>
                  if opt_truthy (Part.text part)
                  then [content_frame (default "" (Part.text part))]
                  else [])
               (Content.parts c)
  | None => []
  end.

Definition stream_generator (mongo : gmap string ChatSession.t)
           (message user_id session_id : string) (w : world)
  : list frame * world :=
  match ensure_session mongo user_id session_id w with
  | (Raise setup_error, w1) =>
      ([content_frame "Error: Failed to initialize chat session."], w1)
  | (Ok _, w1) =>
      let new_message := Content.mk "user" [Part.of_text message] in
      let '((events, failure), w2) := run_async user_id session_id new_message w1 in
      ((flat_map event_frames events
        ++ match failure with
           | Some run_error => [content_frame ("Error: " +:+ exn_str run_error)]
           | None => []
           end
        ++ [Done]), w2)
  end.

(** Lines 164-170: what one chunk adds to [full_response]. *)
Definition chunk_text (chunk : frame) : string :=
  match chunk with
  | Data j =>
      match json_loads j with
      | PDict data =>
          match dict_get (KStr "content") data with
          | Some (PStr s) => s
          | _ => ""
          end
      | _ => ""
      end
  | Done => ""
  end.

Fixpoint full_response_of (chunks : list frame) : string :=
  match chunks with
  | [] => ""
  | chunk :: rest => chunk_text chunk +:+ full_response_of rest
  end.

(** [chat.stream_with_persistence]: the frames the caller receives, the
    secondary store and the world after the turn. *)
Definition stream_with_persistence (mongo : gmap string ChatSession.t)
           (message user_id session_id : string) (w : world)
  : list frame * gmap string ChatSession.t * world :=
  let '(chunks, w1) := stream_generator mongo message user_id session_id w in
  let full_response := full_response_of chunks in
  let mongo' :=
    if str_truthy full_response
    then add_message_to_session session_id "assistant" full_response (utcnow w1) mongo
    else mongo in
  ((chunks ++ [session_frame session_id]), mongo', w1).

End Coordinator.

(** ** Predicates of the specification *)

(** The mapping keys [_safe_serialize] reaches are keys [json.dumps]
    accepts.  The traversal is that of [_safe_serialize]: through the
    [value] attribute, the public attributes of an object with a
    [__dict__], the values of a dict and the items of a list. *)
Fixpoint keys_ok (obj : pyval) : bool :=
  match obj with
  | PObj _ has_dict attrs =>
      match attr_get_with keys_ok "value" attrs with
      | Some b => b
      | None =>
          if has_dict then forallb snd (public_with keys_ok attrs) else true
      end
  | PDict kvs =>
      forallb (fun kv => bool_decide (is_Some (key_text (fst kv))) && keys_ok (snd kv)) kvs
  | PList l => forallb keys_ok l
  | _ => true
  end.

(** No object and no tuple is left at any depth. *)
Fixpoint normalized (v : pyval) : bool :=
  match v with
  | PNone | PBool _ | PInt _ | PFloat _ | PStr _ => true
  | PList l => forallb normalized l
  | PDict kvs => forallb (fun kv => normalized (snd kv)) kvs
  | PTuple _ | PObj _ _ _ => false
  end.

(** What [json.loads] can return: lists and dicts with distinct string
    keys over the scalars. *)
Definition is_str_key (k : pykey) : bool :=
  match k with KStr _ => true | _ => false end.

Fixpoint json_plain (v : pyval) : bool :=
  match v with
  | PNone | PBool _ | PInt _ | PFloat _ | PStr _ => true
  | PList l => forallb json_plain l
  | PDict kvs =>
      bool_decide (NoDup (map fst kvs))
      && forallb (fun kv => is_str_key (fst kv) && json_plain (snd kv)) kvs
  | PTuple _ | PObj _ _ _ => false
  end.

(** The arguments of the tool call of a part, if they are read, encode. *)
Definition part_args_ok (p : Part.t) : bool :=
  opt_truthy (Part.text p)
  || match Part.function_call p with
     | Some fc =>
         match FunctionCall.args fc with
         | PDict _ => json_encodable (FunctionCall.args fc)
         | _ => true
         end
     | None => true
     end.

(** A part built from the union of section 3: exactly one of the three
    fields is set, and a tool result is JSON-serializable. *)
Definition part_of_union (p : Part.t) : Prop :=
  match Part.text p, Part.function_call p, Part.function_response p with
  | Some _, None, None => True
  | None, Some _, None => True
  | None, None, Some fr => json_encodable (FunctionResponse.response fr) = true
  | _, _, _ => False
  end.

(** An event built from such parts. *)
Definition event_of_union (e : Event.t) : Prop :=
  match Event.content e with
  | Some c => Forall part_of_union (Content.parts c)
  | None => True
  end.

(** A mapping or [None]. *)
Definition is_opt_mapping (v : pyval) : bool :=
  match v with PDict _ | PNone => true | _ => false end.

(** The parts the codec stores as they are: a text is non-empty, the id
    of a tool call, when present, is non-empty, and the response of a tool
    result is a mapping or [None] that json accepts. *)
Definition part_kept (p : Part.t) : Prop :=
  match Part.text p, Part.function_call p, Part.function_response p with
  | Some s, None, None => s <> ""
  | None, Some fc, None => FunctionCall.id fc <> Some ""
  | None, None, Some fr =>
      is_opt_mapping (FunctionResponse.response fr) = true
      /\ json_encodable (FunctionResponse.response fr) = true
  | _, _, _ => False
  end.

(** An event of such parts. *)
Definition event_kept (e : Event.t) : Prop :=
  match Event.content e with
  | Some c => Forall part_kept (Content.parts c)
  | None => True
  end.

(** ** Functions of the specification and sample data *)

(** A sample interpreter [str] for the closed examples: objects print their
    class, containers and scalars are not told apart. *)
Definition sample_str (v : pyval) : string :=
  match v with
  | PObj c _ _ => "<" +:+ c +:+ " object>"
  | PStr s => s
  | _ => "..."
  end.

(** A nested value with wrapped results, an object and a tuple. *)
Definition nested_result : pyval :=
  PDict [(KStr "files",
           PList [PObj "Result" true [("value", PDict [(KInt 1, PTuple [PInt 2])])];
                  PObj "File" true [("_cache", PObj "Lock" false []); ("name", PStr "a.txt")]])].

(** A turn with a text, a tool call and a tool result. *)
Definition sample_event : Event.t :=
  Event.mk "model"
    (Some (Content.mk "model"
       [Part.of_text "Looking that up.";
        Part.of_call (FunctionCall.mk (Some "call_1") "list_files"
                        (PDict [(KStr "limit", PInt 5)]));
        Part.of_response (FunctionResponse.mk (Some "call_1") "list_files"
                            (PDict [(KStr "files", PList [PStr "a.txt"])]))])).

(** A history that lost its tool results: one call with text, one without,
    and one answered call. *)
Definition lossy_history : list Content.t :=
  [Content.mk "user" [Part.of_text "list my drive files"];
   Content.mk "model" [Part.of_text "Checking.";
                       Part.of_call (FunctionCall.mk (Some "call_1") "list_files" (PDict []))];
   Content.mk "model" [Part.of_call (FunctionCall.mk (Some "call_2") "list_files" (PDict []))];
   Content.mk "model" [Part.of_call (FunctionCall.mk (Some "call_3") "search" (PDict []))];
   Content.mk "user"
     [Part.of_response (FunctionResponse.mk (Some "call_3") "search" (PStr "none"))]].

(** The messages of [lossy_history] before the cleanup. *)
Definition lossy_raw : list Message.t :=
  [Message.mk "user" (Some "list my drive files") None None;
   Message.mk "assistant" (Some "Checking.")
     (Some [ToolCall.mk "call_1" "function" "list_files" (PStr "{}")]) None;
   Message.mk "assistant" None
     (Some [ToolCall.mk "call_2" "function" "list_files" (PStr "{}")]) None;
   Message.mk "assistant" None
     (Some [ToolCall.mk "call_3" "function" "search" (PStr "{}")]) None;
   Message.mk "tool" (Some "none") None (Some "call_3")].

(** A history where a user message stands between a tool call and its
    result. *)
Definition interleaved_history : list Content.t :=
  [Content.mk "model" [Part.of_call (FunctionCall.mk (Some "call_1") "search" (PDict []))];
   Content.mk "user" [Part.of_text "any news?"];
   Content.mk "user"
     [Part.of_response (FunctionResponse.mk (Some "call_1") "search" (PStr "none"))]].

(** Its messages: the cleanup changes nothing. *)
Definition interleaved_messages : list Message.t :=
  [Message.mk "assistant" None
     (Some [ToolCall.mk "call_1" "function" "search" (PStr "{}")]) None;
   Message.mk "user" (Some "any news?") None None;
   Message.mk "tool" (Some "none") None (Some "call_1")].

(** The world after a run of attempts: the faults left and the effects
    added. *)
Definition drained (fs : list (option exn)) (es : list effect) (w : world) : world :=
  mk_world (table w) fs (effects w ++ es) (utcnow w) (lost_acks w).

(** The two events of the hydration scenario of section 8. *)
Definition hi_event : Event.t :=
  Event.mk "user" (Some (Content.mk "user" [Part.of_text "hi"])).

Definition hello_event : Event.t :=
  Event.mk "assistant" (Some (Content.mk "assistant" [Part.of_text "hello"])).

(** An empty table on a healthy connection. *)
Definition empty_world : world := mk_world ∅ [] [] 0 [].

(** A store that holds the session [agents:u1:s1] with one event. *)
Definition one_turn_world : world :=
  mk_world
    {[ "agents:u1:s1" :=
         SessionRecord.mk "agents:u1:s1" "agents" "u1" "s1"
           (json_doc (PList [_serialize_event sample_str hi_event])) 0 0 ]}
    [] [] 7 [].

(** A handle on that session. *)
Definition s1_handle (events : list Event.t) : Session.t :=
  Session.mk "agents" "u1" "s1" events.

(** The connection drops once and then holds. *)
Definition flaky_world : world :=
  mk_world (table one_turn_world)
    [Some (OperationalError "SSL connection has been closed unexpectedly"); None]
    [] 7 [].

(** The text-only event of a role and a text. *)
Definition text_event (role text : string) : Event.t :=
  Event.mk role (Some (Content.mk role [Part.of_text text])).

(** Section 4.4, step 2: one text-only event per stored message with
    non-empty content, in stored order. *)
Fixpoint replayed_events (messages : list ChatMessage.t) : list Event.t :=
  match messages with
  | [] => []
  | msg :: rest =>
      match ChatMessage.content msg with
      | Some (String c s) =>
          text_event (ChatMessage.role msg) (String c s) :: replayed_events rest
      | _ => replayed_events rest
      end
  end.

(** An event the store returns as it was appended. *)
Definition stable (py_str : pyval -> string) (e : Event.t) : Prop :=
  event_kept e /\ json_plain (_serialize_event py_str e) = true.

(** The secondary record of the scenario, with an empty message between
    the two. *)
Definition hi_hello_store : gmap string ChatSession.t :=
  {[ "s1" := ChatSession.mk "greeting"
               [ChatMessage.mk "user" (Some "hi") 1;
                ChatMessage.mk "assistant" (Some "") 2;
                ChatMessage.mk "assistant" (Some "hello") 3] ]}.

(** The three kinds of frame. *)
Definition is_content_frame (f : frame) : bool :=
  match f with
  | Data (JObj [(k, JStr _)]) => String.eqb k "content"
  | _ => false
  end.

Definition is_session_frame (session_id : string) (f : frame) : bool :=
  match f with
  | Data (JObj [(k, JStr s)]) => String.eqb k "session_id" && String.eqb s session_id
  | _ => false
  end.

Definition is_done (f : frame) : bool :=
  match f with Done => true | Data _ => false end.

(** Section 6: content frames, then the session id, then the sentinel. *)
Fixpoint stream_as_claimed (session_id : string) (frames : list frame) : bool :=
  match frames with
  | [] => false
  | [a; b] => is_session_frame session_id a && is_done b
  | f :: rest => is_content_frame f && stream_as_claimed session_id rest
  end.

(** Section 4.4, step 7: content frames, then the sentinel, then the
    session id. *)
Fixpoint stream_as_built (session_id : string) (frames : list frame) : bool :=
  match frames with
  | [] => false
  | [a; b] => is_done a && is_session_frame session_id b
  | f :: rest => is_content_frame f && stream_as_built session_id rest
  end.

(** The non-empty texts of an event of the agent loop, in order. *)
Definition event_texts (event : Event.t) : list string :=
  match Event.content event with
  | Some c =>
      flat_map (fun part => if opt_truthy (Part.text part)
                            then [default "" (Part.text part)] else [])
               (Content.parts c)
  | None => []
  end.

(** An agent loop that answers with one text, and one that fails. *)
Definition answering_loop (user_id session_id : string) (new_message : Content.t)
           (w : world) : (list Event.t * option exn) * world :=
  (([Event.mk "model" (Some (Content.mk "model" [Part.of_text "Here you go."]))], None), w).

Definition failing_loop (user_id session_id : string) (new_message : Content.t)
           (w : world) : (list Event.t * option exn) * world :=
  (([], Some (OtherError "RuntimeError" "backend unavailable")), w).

(** ** More of the Session Store *)

(** [list_sessions] (lines 331-357).  The query has no ORDER BY: the rows
    come in the order of the table. *)
Definition list_sessions (app_name user_id : string) : M (list Session.t) :=
  fun w =>
  match db_roundtrip w with
  | (Raise e, w1) => (Raise e, w1)
  | (Ok _, w1) =>
      let records :=
        filter (fun record => SessionRecord.app_name record = app_name
                              /\ SessionRecord.user_id record = user_id)
               (map snd (map_to_list (table w1))) in
      match rmap_list
              (fun record =>
                 events <- load_events (SessionRecord.events_json record) ;;
                 Ok (Session.mk (SessionRecord.app_name record)
                                (SessionRecord.user_id record)
                                (SessionRecord.session_id record) events))
              records with
      | Ok sessions => (Ok sessions, w1)
      | Raise e => (Raise e, w1)
      end
  end.

(** Every row sits under its own [id], which is the key of its three
    columns: what [create_session] writes. *)
Definition well_keyed (t : gmap string SessionRecord.t) : Prop :=
  forall k record,
    t !! k = Some record ->
    SessionRecord.id record = k
    /\ k = _make_session_key (SessionRecord.app_name record)
             (SessionRecord.user_id record) (SessionRecord.session_id record).

(** [':' in s] *)
Definition has_colon (s : string) : bool := contains ":" s.

(** [n] rounds of sleeping and disposing the pool. *)
Fixpoint retries (delay : Z) (n : nat) : list effect :=
  match n with
  | O => []
  | S n' => Sleep delay :: Dispose :: retries delay n'
  end.

(** The parts of an event whose stored form [json.dumps] accepts: those
    with a non-empty text, and the tool calls whose [args] encode; a tool
    result always does. *)
Definition part_storable (p : Part.t) : bool :=
  opt_truthy (Part.text p)
  || match Part.function_call p with
     | Some fc => json_encodable (FunctionCall.args fc)
     | None => true
     end.

Definition event_storable (e : Event.t) : bool :=
  match Event.content e with
  | Some c => forallb part_storable (Content.parts c)
  | None => true
  end.

(** A tool call whose arguments hold an object [json.dumps] rejects. *)
Definition opaque_call_event : Event.t :=
  Event.mk "model"
    (Some (Content.mk "model"
       [Part.of_call (FunctionCall.mk (Some "call_1") "schedule"
                        (PDict [(KStr "when", PObj "datetime" false [])]))])).

(** A store where the user [u1] holds the session [x:s1]. *)
Definition colon_world : world :=
  mk_world
    {[ "agents:u1:x:s1" :=
         SessionRecord.mk "agents:u1:x:s1" "agents" "u1" "x:s1"
           (json_doc (PList [_serialize_event sample_str hi_event])) 0 0 ]}
    [] [] 7 [].

(** ** More of the Message Reconciler *)

(** The tool message of a part that reaches line 140: a part without a text
    and without a tool call that holds a tool result. *)
Definition tool_messages_of (py_str : pyval -> string) (json_text : json -> string)
           (part : Part.t) : list Message.t :=
  if opt_truthy (Part.text part) then []
  else
    match Part.function_call part, Part.function_response part with
    | None, Some fr =>
        [Message.mk "tool"
           (Some (response_content py_str json_text (FunctionResponse.response fr)))
           None (Some (or_unknown (FunctionResponse.id fr)))]
    | _, _ => []
    end.

(** The shape the backend expects of a tool call and of a message: a tool
    message names its call, a system message has a text, a user or
    assistant message has a text or tool calls. *)
Definition tool_call_ok (tc : ToolCall.t) : Prop :=
  ToolCall.type tc = "function" /\ ToolCall.id tc <> "".

Definition well_formed (m : Message.t) : Prop :=
  (Message.role m = "tool"
   /\ is_Some (Message.content m) /\ Message.tool_calls m = None
   /\ exists i, Message.tool_call_id m = Some i /\ i <> "")
  \/ (Message.role m = "system"
      /\ opt_truthy (Message.content m) = true
      /\ Message.tool_calls m = None /\ Message.tool_call_id m = None)
  \/ ((Message.role m = "user" \/ Message.role m = "assistant")
      /\ Message.tool_call_id m = None
      /\ Message.content m <> Some ""
      /\ match Message.tool_calls m with
         | Some tcs => tcs <> [] /\ Forall tool_call_ok tcs
         | None => opt_truthy (Message.content m) = true
         end).

(** The arguments of every tool call the loop reads encode. *)
Definition history_args_ok (contents : list Content.t) : bool :=
  forallb (fun c => forallb part_args_ok (Content.parts c)) contents.

Definition is_assistant (m : Message.t) : bool :=
  String.eqb (Message.role m) "assistant".

(** A history with an unreadable argument, and one whose content mixes a
    text, a tool call and a tool result. *)
Definition opaque_history : list Content.t :=
  [Content.mk "user" [Part.of_text "schedule it"];
   Content.mk "model"
     [Part.of_call (FunctionCall.mk (Some "call_1") "schedule"
                      (PDict [(KStr "when", PObj "datetime" false [])]))]].

Definition mixed_content : Content.t :=
  Content.mk "model"
    [Part.of_text "Searching.";
     Part.of_call (FunctionCall.mk (Some "call_1") "search" (PDict []));
     Part.of_response (FunctionResponse.mk (Some "call_0") "search" (PStr "none"))].

(** A tool call whose arguments hold an integer key and a tuple, and what
    the store gives back for it. *)
Definition tuple_call_event : Event.t :=
  Event.mk "model"
    (Some (Content.mk "model"
       [Part.of_call (FunctionCall.mk (Some "call_1") "pick"
                        (PDict [(KInt 1, PTuple [PInt 2])]))])).

Definition tuple_call_event_stored : Event.t :=
  Event.mk "model"
    (Some (Content.mk "model"
       [Part.of_call (FunctionCall.mk (Some "call_1") "pick"
                        (PDict [(KStr "1", PList [PInt 2])]))])).

(** ** More of the Turn Streaming Coordinator *)

(** [create_chat_session] of [database.py]: [users] are the ids that have
    a user document and [fresh] is the id the driver gives the inserted
    record. *)
Definition create_chat_session (users : gset string) (fresh : string)
           (user_id title : string) (mongo : gmap string ChatSession.t)
  : option string * gmap string ChatSession.t :=
  if decide (user_id ∈ users)
  then (Some fresh, <[fresh := ChatSession.mk title []]> mongo)
  else (None, mongo).

(** What the endpoint answers: the error of lines 184-188 or the stream. *)
Inductive chat_response : Type :=
| Http500
| Streaming (frames : list frame).

Section Chat.

Variable py_str : pyval -> string.
Variable run_async :
  string -> string -> Content.t -> world -> (list Event.t * option exn) * world.
(** [create_orchestrator] builds the agent of the user: a collaborator
    that returns or raises. *)
Variable create_orchestrator : string -> result unit.
Variable users : gset string.
Variable fresh : string.

(** [chat] (server.py lines 141-188), with the stream consumed. *)
Definition chat (request_user_id request_message : string)
           (request_session_id : option string) (mongo : gmap string ChatSession.t)
           (w : world) : chat_response * gmap string ChatSession.t * world :=
  let '(session_id, mongo1) :=
    if negb (opt_truthy request_session_id)
       || String.eqb (default "" request_session_id) "null"
    then create_chat_session users fresh request_user_id
           (str_prefix 30 request_message +:+ "...") mongo
    else (request_session_id, mongo) in
  if opt_truthy session_id then
    let session_id := default "" session_id in
    let mongo2 :=
      add_message_to_session session_id "user" request_message (utcnow w) mongo1 in
    match create_orchestrator request_user_id with
    | Raise _ => (Http500, mongo2, w)
    | Ok _ =>
        let '(frames, mongo3, w') :=
          stream_with_persistence py_str run_async mongo2 request_message
            request_user_id session_id w in
        (Streaming frames, mongo3, w')
    end
  else (Http500, mongo1, w).

End Chat.

(** The texts of a list, joined. *)
Fixpoint join_texts (texts : list string) : string :=
  match texts with
  | [] => ""
  | s :: rest => s +:+ join_texts rest
  end.

(** What the turn sends as content: the texts of the agent loop and the
    text of its error. *)
Definition turn_texts (outcome : list Event.t * option exn) : list string :=
  flat_map event_texts (fst outcome)
  ++ match snd outcome with
     | Some run_error => ["Error: " +:+ exn_str run_error]
     | None => []
     end.

(** A connection that refuses the login. *)
Definition refusing_world : world :=
  mk_world ∅ [Some (OperationalError "password authentication failed")] [] 0 [].

(** A secondary store with one empty chat record. *)
Definition empty_chat_store : gmap string ChatSession.t :=
  {[ "s1" := ChatSession.mk "greeting" [] ]}.

(** ** Tool declarations: [LiteLlm._convert_schema_to_dict]

    Modelled from the spec: [Schema] and [FunctionDeclaration] are types of
    the agent framework ([google.genai.types]); the records keep the fields
    the source reads.  [type] is the value of the [Type] enum, [None] when
    it is unset; a missing mapping, list or text is the empty one, which the
    source does not tell apart. *)

Module Schema.
#[local] Unset Elimination Schemes.
Inductive t : Type :=
| mk (type : option string) (description : option string)
     (properties : list (string * t)) (required : list string)
     (items : option t) (enum : list string).
#[local] Set Elimination Schemes.

Definition type (s : t) : option string := let (x, _, _, _, _, _) := s in x.
Definition description (s : t) : option string := let (_, x, _, _, _, _) := s in x.
Definition properties (s : t) : list (string * t) := let (_, _, x, _, _, _) := s in x.
Definition required (s : t) : list string := let (_, _, _, x, _, _) := s in x.
Definition items (s : t) : option t := let (_, _, _, _, x, _) := s in x.
Definition enum (s : t) : list string := let (_, _, _, _, _, x) := s in x.
End Schema.

(** Induction over a schema that reaches the properties and the items. *)
Section SchemaInd.
Variable P : Schema.t -> Prop.
Hypothesis Hmk :
  forall type description properties required items enum,
    Forall (fun kv => P (snd kv)) properties ->
    match items with Some it => P it | None => True end ->
    P (Schema.mk type description properties required items enum).

Fixpoint schema_rect' (s : Schema.t) : P s :=
  match s with
  | Schema.mk type description properties required items enum =>
      Hmk type description properties required items enum
        ((fix go (l : list (string * Schema.t)) : Forall (fun kv => P (snd kv)) l :=
            match l with
            | [] => Forall_nil_2 _
            | kv :: t =>
                Forall_cons_2 (fun kv => P (snd kv)) kv t (schema_rect' (snd kv)) (go t)
            end) properties)
        (match items as o return match o with Some it => P it | None => True end with
         | Some it => schema_rect' it
         | None => I
         end)
  end.
End SchemaInd.

(** Lines 53-60 and [type_mapping.get(schema_type, "string")]. *)
Definition type_mapping (schema_type : string) : string :=
  if String.eqb schema_type "STRING" then "string"
  else if String.eqb schema_type "INTEGER" then "integer"
  else if String.eqb schema_type "NUMBER" then "number"
  else if String.eqb schema_type "BOOLEAN" then "boolean"
  else if String.eqb schema_type "ARRAY" then "array"
  else if String.eqb schema_type "OBJECT" then "object"
  else "string".

(** Lines 50-83, for a schema that is not [None]: the entries of
    [json_schema] in the order they are set. *)
Fixpoint convert_schema (schema : Schema.t) : list (pykey * pyval) :=
  match schema with
  | Schema.mk type description properties required items enum =>
      (* str(None) for an unset type *)
      let schema_type := default "None" type in
      [(KStr "type", PStr (type_mapping schema_type))]
      ++ (if opt_truthy description
          then [(KStr "description", opt_str_val description)] else [])
      ++ match properties with
         | [] => []
         | _ :: _ =>
             [(KStr "properties",
                PDict (map (fun kv => (KStr (fst kv), PDict (convert_schema (snd kv))))
                           properties))]
         end
      ++ match required with
         | [] => []
         | _ :: _ => [(KStr "required", PList (map PStr required))]
         end
      ++ match items with
         | Some it => [(KStr "items", PDict (convert_schema it))]
         | None => []
         end
      ++ match enum with
         | [] => []
         | _ :: _ => [(KStr "enum", PList (map PStr enum))]
         end
  end.

Definition _convert_schema_to_dict (schema : option Schema.t) : pyval :=
  match schema with
  | None => PNone
  | Some s => PDict (convert_schema s)
  end.

Module FunctionDeclaration.
Record t : Type := mk {
  name : string;
  description : option string;
  parameters : option Schema.t }.
End FunctionDeclaration.

(** A tool of the request: one without the attribute
    [function_declarations], or one with it, [None] when it is unset. *)
Inductive tool : Type :=
| OtherTool
| Tool (function_declarations : option (list FunctionDeclaration.t)).

(** Lines 108-115: the entry of one declaration. *)
Definition openai_tool (func : FunctionDeclaration.t) : pyval :=
  PDict [(KStr "type", PStr "function");
         (KStr "function",
           PDict [(KStr "name", PStr (FunctionDeclaration.name func));
                  (KStr "description", opt_str_val (FunctionDeclaration.description func));
                  (KStr "parameters",
                    let parameters :=
                      _convert_schema_to_dict (FunctionDeclaration.parameters func) in
                    if truthy parameters then parameters
                    else PDict [(KStr "type", PStr "object");
                                (KStr "properties", PDict [])])])].

(** Lines 99-115. *)
Fixpoint openai_tools (tools : list tool) : result (list pyval) :=
  match tools with
  | [] => Ok []
  | OtherTool :: rest => openai_tools rest
  | Tool None :: rest => Raise (TypeError "'NoneType' object is not iterable")
  | Tool (Some function_declarations) :: rest =>
      entries <- openai_tools rest ;;
      Ok (map openai_tool function_declarations ++ entries)
  end.

(** The declarations of a tool, and the entry a declaration is to give:
    its parameters converted, or the empty object schema. *)
Definition declared (t : tool) : list FunctionDeclaration.t :=
  match t with
  | Tool (Some function_declarations) => function_declarations
  | _ => []
  end.

Definition tool_entry (func : FunctionDeclaration.t) : pyval :=
  PDict [(KStr "type", PStr "function");
         (KStr "function",
           PDict [(KStr "name", PStr (FunctionDeclaration.name func));
                  (KStr "description", opt_str_val (FunctionDeclaration.description func));
                  (KStr "parameters",
                    match FunctionDeclaration.parameters func with
                    | Some s => PDict (convert_schema s)
                    | None => PDict [(KStr "type", PStr "object");
                                     (KStr "properties", PDict [])]
                    end)])].

(** The types a JSON schema of the backend may name. *)
Definition is_openai_type (ty : string) : bool :=
  bool_decide (ty ∈ ["string"; "integer"; "number"; "boolean"; "array"; "object"]).

(** A JSON schema whose every level names such a type: the level itself,
    each of its [properties] and its [items]. *)
Fixpoint schema_doc (v : pyval) : bool :=
  match v with
  | PDict kvs =>
      match dict_get (KStr "type") kvs with
      | Some (PStr ty) => is_openai_type ty
      | _ => false
      end
      && forallb (fun kv =>
                    if bool_decide (fst kv = KStr "properties") then
                      match snd kv with
                      | PDict ps => forallb (fun p => schema_doc (snd p)) ps
                      | _ => false
                      end
                    else if bool_decide (fst kv = KStr "items") then schema_doc (snd kv)
                    else true) kvs
  | _ => false
  end.

(** A declaration with a nested schema and an unknown type, and one
    without parameters. *)
Definition search_declaration : FunctionDeclaration.t :=
  FunctionDeclaration.mk "search" (Some "Search the drive.")
    (Some (Schema.mk (Some "OBJECT") None
             [("query", Schema.mk (Some "STRING") (Some "what to look for") [] [] None []);
              ("labels", Schema.mk (Some "ARRAY") None [] []
                           (Some (Schema.mk (Some "TYPE_UNSPECIFIED") None [] [] None []))
                           [])]
             ["query"] None [])).

Definition ping_declaration : FunctionDeclaration.t :=
  FunctionDeclaration.mk "ping" None None.

(** ** The response of the backend (lines 264-287)

    Modelled from the spec: the message of a completion is a type of the
    backend library; the records keep the fields the source reads. *)

Module CompletionToolCall.
Record t : Type := mk { id : string; name : string; arguments : string }.
End CompletionToolCall.

Module CompletionMessage.
Record t : Type := mk {
  content : option string;
  tool_calls : option (list CompletionToolCall.t) }.
End CompletionMessage.

Section Response.

(** [json.loads] on a text: the document it holds, or its
    [JSONDecodeError]. *)
Variable json_parse : string -> result json.

Definition call_part (tc : CompletionToolCall.t) : result Part.t :=
  j <- json_parse (CompletionToolCall.arguments tc) ;;
  Ok (Part.of_call (FunctionCall.mk (Some (CompletionToolCall.id tc))
                      (CompletionToolCall.name tc) (json_loads j))).

Definition response_parts (message : CompletionMessage.t) : result (list Part.t) :=
  calls <- rmap_list call_part (default [] (CompletionMessage.tool_calls message)) ;;
  Ok ((if opt_truthy (CompletionMessage.content message)
       then [Part.of_text (default "" (CompletionMessage.content message))]
       else [])
      ++ calls).

End Response.

(** A parser for the closed examples: it knows one text. *)
Definition sample_parse (s : string) : result json :=
  if String.eqb s "{}" then Ok (JObj []) else Raise (ValueError "Expecting value").

(** The contents of the events of a session, as the request carries them,
    and the plain message a stored chat message is sent as. *)
Definition contents_of (events : list Event.t) : list Content.t :=
  omap Event.content events.

Definition chat_message_sent (msg : ChatMessage.t) : Message.t :=
  Message.mk (if String.eqb (ChatMessage.role msg) "user" then "user" else "assistant")
             (ChatMessage.content msg) None None.


(** An event whose one text is empty, and a tool result whose mapping
    holds an object [json.dumps] rejects. *)
Definition empty_text_event : Event.t :=
  Event.mk "user" (Some (Content.mk "user" [Part.of_text ""])).

Definition opaque_result_event : Event.t :=
  Event.mk "user"
    (Some (Content.mk "user"
       [Part.of_response
          (FunctionResponse.mk (Some "call_1") "schedule"
             (PDict [(KStr "when", PObj "datetime" false [])]))])).

(** * Properties *)

(** ** Traversal of attributes *)

Lemma attr_get_with_spec {A : Type} (f : pyval -> A) name attrs :
  attr_get_with f name attrs = f <$> attr_get name attrs.
Proof.
  induction attrs as [|[k v] t IH]; simpl; [reflexivity|].
  destruct (String.eqb k name); [reflexivity|exact IH].
Qed.

Lemma public_with_spec {A : Type} (f : pyval -> A) attrs :
  public_with f attrs = map (fun kv => (fst kv, f (snd kv))) (public_dict attrs).
Proof.
  unfold public_dict.
  induction attrs as [|[k v] t IH]; simpl; [reflexivity|].
  rewrite filter_cons; simpl.
  destruct (is_private k); simpl; [exact IH|now rewrite IH].
Qed.

Lemma Forall_public_dict (P : pyval -> Prop) attrs :
  Forall (fun kv : string * pyval => P (snd kv)) attrs ->
  Forall (fun kv : pykey * pyval => P (snd kv)) (public_dict attrs).
Proof.
  unfold public_dict.
  induction 1 as [|[k v] t Hv _ IH]; simpl; [constructor|].
  rewrite filter_cons; simpl.
  destruct (is_private k); simpl; [exact IH|].
  constructor; [exact Hv|exact IH].
Qed.

Lemma attr_get_Forall {V : Type} (P : V -> Prop) name (attrs : list (string * V)) v :
  Forall (fun kv => P (snd kv)) attrs -> attr_get name attrs = Some v -> P v.
Proof.
  induction 1 as [|[k x] t Hx _ IH]; simpl; [discriminate|].
  destruct (String.eqb k name); [intros [= <-]; exact Hx|exact IH].
Qed.

Lemma forallb_map_Forall {A B : Type} (f : A -> B) (p : B -> bool)
      (q : A -> bool) (l : list A) :
  Forall (fun x => p (f x) = q x) l -> forallb p (map f l) = forallb q l.
Proof.
  induction 1 as [|x t Hx _ IH]; simpl; [reflexivity|]. now rewrite Hx, IH.
Qed.

(** ** [_safe_serialize] *)

Section SafeSerialize.
Variable py_str : pyval -> string.

#[local] Abbreviation safe := (_safe_serialize py_str).

(** The equation of the source for an object: unwrap [value], else
    recurse on the dict of public attributes, else stringify. *)
Lemma safe_serialize_obj c d attrs :
  safe (PObj c d attrs) =
    match attr_get "value" attrs with
    | Some v => safe v
    | None =>
        if d then safe (PDict (public_dict attrs))
        else PStr (py_str (PObj c d attrs))
    end.
Proof.
  cbn [_safe_serialize]. rewrite attr_get_with_spec, public_with_spec.
  destruct (attr_get "value" attrs); reflexivity.
Qed.

Lemma keys_ok_obj c d attrs :
  keys_ok (PObj c d attrs) =
    match attr_get "value" attrs with
    | Some v => keys_ok v
    | None => if d then keys_ok (PDict (public_dict attrs)) else true
    end.
Proof.
  cbn [keys_ok]. rewrite attr_get_with_spec, public_with_spec.
  destruct (attr_get "value" attrs); simpl; [reflexivity|].
  destruct d; [|reflexivity].
  cbn [keys_ok]. apply forallb_map_Forall.
  unfold public_dict. apply Forall_map.
  apply Forall_forall. intros [k v] _. reflexivity.
Qed.

(** The result holds no object and no tuple, at any depth. *)
Lemma safe_serialize_normalized v : normalized (safe v) = true.
Proof.
  induction v as [| | | | |l IH|l IH|kvs IH|c d attrs IH] using pyval_rect';
    try reflexivity.
  - cbn [_safe_serialize normalized].
    rewrite (forallb_map_Forall _ _ (fun _ => true)) by exact IH.
    apply forallb_forall. reflexivity.
  - cbn [_safe_serialize normalized].
    rewrite (forallb_map_Forall _ _ (fun _ => true)) by exact IH.
    apply forallb_forall. reflexivity.
  - rewrite safe_serialize_obj.
    destruct (attr_get "value" attrs) as [v|] eqn:Hv.
    + exact (attr_get_Forall (fun v => normalized (safe v) = true) _ _ _ IH Hv).
    + destruct d; [|reflexivity].
      cbn [_safe_serialize normalized].
      rewrite (forallb_map_Forall _ _ (fun _ => true))
        by exact (Forall_public_dict (fun v => normalized (safe v) = true) _ IH).
      apply forallb_forall. reflexivity.
Qed.

(** The result encodes exactly when the keys reached are JSON keys. *)
Lemma safe_serialize_encodable v : json_encodable (safe v) = keys_ok v.
Proof.
  induction v as [| | | | |l IH|l IH|kvs IH|c d attrs IH] using pyval_rect';
    try reflexivity.
  - cbn [_safe_serialize json_encodable keys_ok].
    apply forallb_map_Forall. exact IH.
  - cbn [_safe_serialize json_encodable keys_ok].
    apply forallb_map_Forall.
    apply (Forall_impl _ _ _ IH). intros [k x] Hx; simpl in *. now rewrite Hx.
  - rewrite safe_serialize_obj, keys_ok_obj.
    destruct (attr_get "value" attrs) as [v|] eqn:Hv.
    + exact (attr_get_Forall (fun v => json_encodable (safe v) = keys_ok v)
               _ _ _ IH Hv).
    + destruct d; [|reflexivity].
      cbn [_safe_serialize json_encodable keys_ok].
      apply forallb_map_Forall.
      apply (Forall_impl _ _ _
               (Forall_public_dict (fun v => json_encodable (safe v) = keys_ok v)
                  _ IH)).
      intros [k x] Hx; simpl in *. now rewrite Hx.
Qed.

End SafeSerialize.

(** C4 (amended).  When every mapping key [_safe_serialize] reaches is a key
    json accepts (str, int, float, bool or None), the value it returns
    json-encodes without raising, holds no object and no tuple at any depth,
    and the routine is applied to every item of a list and every value of a
    mapping. *)
Theorem safe_serialize_json_safe (py_str : pyval -> string) (v : pyval) :
  keys_ok v = true ->
  json_dumps (_safe_serialize py_str v) = Ok (json_doc (_safe_serialize py_str v))
  /\ normalized (_safe_serialize py_str v) = true
  /\ (forall l, _safe_serialize py_str (PList l)
                = PList (map (_safe_serialize py_str) l))
  /\ (forall kvs, _safe_serialize py_str (PDict kvs)
                  = PDict (map (fun kv => (fst kv, _safe_serialize py_str (snd kv))) kvs)).
Proof.
  intros Hk. repeat split.
  - unfold json_dumps. now rewrite safe_serialize_encodable, Hk.
  - apply safe_serialize_normalized.
Qed.

Lemma safe_serialize_json_safe_witness :
  keys_ok nested_result = true
  /\ json_dumps (_safe_serialize sample_str nested_result)
     = Ok (JObj [("files", JArr [JObj [("1", JStr "...")];
                                 JObj [("name", JStr "a.txt")]])]).
Proof.
  split; [reflexivity|].
  rewrite (proj1 (safe_serialize_json_safe sample_str nested_result eq_refl)).
  vm_compute. reflexivity.
Defined.

(** C4, as stated, fails: a mapping keyed by a tuple is returned as it is and
    [json.dumps] raises [TypeError] on it. *)
Lemma safe_serialize_tuple_key_raises :
  json_dumps (_safe_serialize sample_str (PDict [(KOther "(1, 2)", PStr "x")]))
  = Raise (TypeError "Object is not JSON serializable").
Proof. reflexivity. Qed.

(** The caller of [_safe_serialize] catches that failure: a tool message
    always gets a content. *)
Example response_content_tuple_key :
  response_content sample_str (fun _ => "{}") (PDict [(KOther "(1, 2)", PStr "x")])
  = "Error: Could not serialize response - ...".
Proof. reflexivity. Qed.

(** ** The normalization of [_serialize_event] *)

Lemma normalize_response_encodable (py_str : pyval -> string) (r : pyval) :
  json_encodable (normalize_response py_str r) = true.
Proof.
  unfold normalize_response.
  set (r1 := match getattr "value" r with Some v => v | None => r end).
  set (r2 := match r1 with PObj _ true attrs => PDict (public_dict attrs) | _ => r1 end).
  destruct (json_encodable r2) eqn:H; [exact H|reflexivity].
Qed.

Lemma normalize_response_id (py_str : pyval -> string) (r : pyval) :
  json_encodable r = true -> normalize_response py_str r = r.
Proof.
  intros H. unfold normalize_response.
  destruct r; simpl in *; try discriminate; try reflexivity; now rewrite H.
Qed.

(** It unwraps one level only: a wrapped result inside a mapping makes the
    whole mapping a string. *)
Example normalize_response_not_recursive :
  normalize_response sample_str
    (PDict [(KStr "r", PObj "Result" true [("value", PInt 1)])])
  = PStr "...".
Proof. reflexivity. Qed.

(** ** Event Codec round trip *)

Lemma dict_get_here {V : Type} (k : pykey) (v : V) d :
  dict_get k ((k, v) :: d) = Some v.
Proof. simpl. now rewrite decide_True. Qed.

Lemma dict_get_next {V : Type} (k k' : pykey) (v : V) d :
  k' <> k -> dict_get k ((k', v) :: d) = dict_get k d.
Proof. intros H. simpl. now rewrite decide_False. Qed.

Ltac dict_lookup :=
  repeat first
    [ rewrite dict_get_here
    | rewrite dict_get_next by congruence
    | progress cbn [app subscript rbind as_dict as_str as_opt_str as_opt_mapping as_list
                    from_option id opt_str_val] ].

Lemma str_truthy_nonempty s : s <> "" -> str_truthy s = true.
Proof. destruct s; [congruence|reflexivity]. Qed.

Section Codec.
Variable py_str : pyval -> string.

Lemma deserialize_function_call_serialize fc :
  FunctionCall.id fc <> Some "" ->
  deserialize_function_call (serialize_function_call fc) = Ok fc.
Proof.
  destruct fc as [[id|] name args]; unfold serialize_function_call,
    deserialize_function_call; cbn [FunctionCall.id FunctionCall.name
    FunctionCall.args opt_truthy]; intros Hid.
  - rewrite str_truthy_nonempty by congruence. dict_lookup. reflexivity.
  - dict_lookup. reflexivity.
Qed.

Lemma deserialize_function_response_serialize fr :
  is_opt_mapping (FunctionResponse.response fr) = true ->
  json_encodable (FunctionResponse.response fr) = true ->
  deserialize_function_response (serialize_function_response py_str fr) = Ok fr.
Proof.
  destruct fr as [id name response]; unfold serialize_function_response,
    deserialize_function_response; cbn [FunctionResponse.id FunctionResponse.name
    FunctionResponse.response]; intros Hm Hr.
  rewrite normalize_response_id by exact Hr.
  destruct response; try discriminate Hm; destruct id; dict_lookup; reflexivity.
Qed.

Lemma deserialize_part_serialize p :
  part_kept p -> deserialize_part (serialize_part py_str p) = Ok [p].
Proof.
  destruct p as [[s|] [fc|] [fr|]]; unfold part_kept, serialize_part,
    deserialize_part; cbn [Part.text Part.function_call Part.function_response
    opt_truthy]; intros H; try contradiction.
  - rewrite str_truthy_nonempty by exact H. dict_lookup. reflexivity.
  - dict_lookup. rewrite deserialize_function_call_serialize by exact H.
    reflexivity.
  - dict_lookup. rewrite deserialize_function_response_serialize by apply H.
    reflexivity.
Qed.

Lemma deserialize_parts_serialize ps :
  Forall part_kept ps ->
  deserialize_parts (map (serialize_part py_str) ps) = Ok ps.
Proof.
  induction 1 as [|p ps Hp _ IH]; [reflexivity|].
  cbn [map deserialize_parts]. rewrite deserialize_part_serialize by exact Hp.
  cbn [rbind]. rewrite IH. reflexivity.
Qed.

End Codec.

(** C3 (amended).  For every event whose parts are each exactly one of a
    non-empty text, a tool call with an absent or non-empty id, or a tool
    result whose response is a mapping or [None] that json accepts,
    deserializing the serialized event gives the event back: same author,
    same role, same parts. *)
Theorem deserialize_serialize_event (py_str : pyval -> string) (e : Event.t) :
  event_kept e -> _deserialize_event (_serialize_event py_str e) = Ok e.
Proof.
  destruct e as [author [[role parts]|]]; unfold event_kept, _serialize_event,
    _deserialize_event; cbn [Event.author Event.content Content.role Content.parts];
    intros H; dict_lookup.
  - cbn [truthy default]. dict_lookup.
    rewrite deserialize_parts_serialize by exact H. dict_lookup. reflexivity.
  - reflexivity.
Qed.

Lemma deserialize_serialize_event_witness :
  event_kept sample_event
  /\ _deserialize_event (_serialize_event sample_str sample_event) = Ok sample_event.
Proof.
  assert (H : event_kept sample_event).
  { unfold event_kept, sample_event; cbn.
    repeat constructor; cbn; congruence. }
  split; [exact H|].
  exact (deserialize_serialize_event sample_str sample_event H).
Defined.

(** C3, as stated, fails on a text part holding the empty string: the part
    is stored as an empty record and does not come back. *)
Lemma empty_text_part_lost :
  let e := Event.mk "user" (Some (Content.mk "user" [Part.of_text ""])) in
  event_of_union e
  /\ _deserialize_event (_serialize_event sample_str e)
     = Ok (Event.mk "user" (Some (Content.mk "user" [])))
  /\ _deserialize_event (_serialize_event sample_str e) <> Ok e.
Proof.
  cbv zeta. split; [|split].
  - unfold event_of_union; cbn. repeat constructor.
  - reflexivity.
  - intros H. vm_compute in H. discriminate H.
Qed.

(** A tool result whose response is not a mapping is stored as it is and
    refused by [FunctionResponse] when it is read. *)
Example string_response_not_read_back :
  _deserialize_event
    (_serialize_event sample_str
       (Event.mk "user"
          (Some (Content.mk "user"
             [Part.of_response
                (FunctionResponse.mk (Some "call_1") "search" (PStr "none"))]))))
  = Raise (ValidationError "dict or None expected").
Proof. reflexivity. Qed.

(** ** The repair pass of the Message Reconciler *)

Lemma tool_response_ids_spec (raw : list Message.t) (i : string) :
  i ∈ tool_response_ids raw ->
  exists t, t ∈ raw /\ Message.role t = "tool" /\ Message.tool_call_id t = Some i.
Proof.
  induction raw as [|m rest IH]; cbn [tool_response_ids]; [set_solver|].
  rewrite elem_of_union. intros [H|H].
  - destruct (String.eqb_spec (Message.role m) "tool") as [Hr|]; [|set_solver].
    destruct (Message.tool_call_id m) as [s|] eqn:Hs; cbn in H; [|set_solver].
    destruct (str_truthy s); [|set_solver].
    apply elem_of_singleton in H. subst i.
    exists m. split; [left|split; [exact Hr|exact Hs]].
  - destruct (IH H) as (t & Ht & Hrole & Hid).
    exists t. split; [now right|split; assumption].
Qed.

Lemma clean_message_tool (ids : gset string) (m : Message.t) :
  Message.role m = "tool" -> clean_message ids m = [m].
Proof.
  intros Hr. unfold clean_message. rewrite Hr.
  destruct (Message.tool_calls m); reflexivity.
Qed.

Lemma elem_of_clean_messages ids raw m :
  m ∈ clean_messages ids raw <-> exists m0, m0 ∈ raw /\ m ∈ clean_message ids m0.
Proof.
  induction raw as [|x rest IH]; cbn [clean_messages].
  - split; [intros H; inversion H|intros (m0 & H & _); inversion H].
  - rewrite elem_of_app, IH. split.
    + intros [H|(m0 & H0 & H1)]; [exists x|exists m0]; split; auto; [left|now right].
    + intros (m0 & H0 & H1). apply elem_of_cons in H0 as [->|H0]; [now left|].
      right. exists m0. now split.
Qed.

Lemma clean_messages_app ids l1 l2 :
  clean_messages ids (l1 ++ l2) = clean_messages ids l1 ++ clean_messages ids l2.
Proof.
  induction l1 as [|x l1 IH]; cbn [clean_messages app]; [reflexivity|].
  now rewrite IH, app_assoc.
Qed.

(** What the cleanup leaves of an assistant message with tool calls: only
    calls whose id is in [ids]. *)
Lemma clean_message_calls ids m0 m tcs tc :
  m ∈ clean_message ids m0 -> Message.role m = "assistant" ->
  Message.tool_calls m = Some tcs -> tc ∈ tcs -> ToolCall.id tc ∈ ids.
Proof.
  unfold clean_message. intros Hm Hr Htcs Htc.
  destruct (Message.tool_calls m0) as [otcs|] eqn:H0.
  - destruct (String.eqb_spec (Message.role m0) "assistant") as [Hr0|Hr0].
    + destruct (filter _ otcs) as [|f fs] eqn:Hf.
      * destruct (opt_truthy (Message.content m0)); [|inversion Hm].
        apply list_elem_of_singleton in Hm. subst m. discriminate Htcs.
      * apply list_elem_of_singleton in Hm. subst m. cbn in Htcs.
        injection Htcs as <-. rewrite <- Hf in Htc.
        apply list_elem_of_filter in Htc. tauto.
    + apply list_elem_of_singleton in Hm. subst m. contradiction.
  - apply list_elem_of_singleton in Hm. subst m. congruence.
Qed.

Lemma repair_keeps_tools raw t :
  t ∈ raw -> Message.role t = "tool" -> t ∈ repair raw.
Proof.
  intros Ht Hr. apply elem_of_clean_messages. exists t. split; [exact Ht|].
  rewrite clean_message_tool by exact Hr. left.
Qed.

Lemma repair_calls_answered raw m tcs tc :
  m ∈ repair raw -> Message.role m = "assistant" ->
  Message.tool_calls m = Some tcs -> tc ∈ tcs ->
  exists t, t ∈ repair raw /\ Message.role t = "tool"
            /\ Message.tool_call_id t = Some (ToolCall.id tc).
Proof.
  intros Hm Hr Htcs Htc.
  apply elem_of_clean_messages in Hm as (m0 & _ & Hm).
  pose proof (clean_message_calls _ _ _ _ _ Hm Hr Htcs Htc) as Hid.
  apply tool_response_ids_spec in Hid as (t & Ht & Hrole & Hid).
  exists t. split; [now apply repair_keeps_tools|now split].
Qed.

(** An assistant message none of whose calls has a tool message. *)
Lemma clean_message_dangling ids m tcs :
  Message.role m = "assistant" -> Message.tool_calls m = Some tcs ->
  Forall (fun tc => ToolCall.id tc ∉ ids) tcs ->
  clean_message ids m =
    if opt_truthy (Message.content m) then [Message.with_tool_calls None m] else [].
Proof.
  intros Hr Htcs Hd. unfold clean_message. rewrite Htcs, Hr. cbn.
  clear Hr. assert (Hf : filter (fun tc => ToolCall.id tc ∈ ids) tcs = []).
  { clear Htcs. induction Hd as [|tc l Htc _ IH]; [reflexivity|].
    rewrite filter_cons, decide_False by exact Htc. exact IH. }
  now rewrite Hf.
Qed.

(** C1.  The message list after the repair pass holds no assistant message
    with a tool call whose id is not the [tool_call_id] of a tool message of
    the list; an assistant message all of whose calls are unanswered is
    kept without [tool_calls] when it has text and contributes nothing when
    it has none. *)
Theorem repair_drops_dangling_calls (py_str : pyval -> string)
        (json_text : json -> string) (system_instruction : option string)
        (contents : list Content.t) (raw : list Message.t) :
  raw_messages py_str json_text system_instruction contents = Ok raw ->
  generate_content_messages py_str json_text system_instruction contents
    = Ok (repair raw)
  /\ (forall m tcs tc,
         m ∈ repair raw -> Message.role m = "assistant" ->
         Message.tool_calls m = Some tcs -> tc ∈ tcs ->
         exists t, t ∈ repair raw /\ Message.role t = "tool"
                   /\ Message.tool_call_id t = Some (ToolCall.id tc))
  /\ (forall pre m post tcs,
         raw = pre ++ m :: post ->
         Message.role m = "assistant" -> Message.tool_calls m = Some tcs ->
         Forall (fun tc => forall t, t ∈ raw -> Message.role t = "tool" ->
                                     Message.tool_call_id t <> Some (ToolCall.id tc)) tcs ->
         repair raw
         = clean_messages (tool_response_ids raw) pre
           ++ (if opt_truthy (Message.content m)
               then [Message.with_tool_calls None m] else [])
           ++ clean_messages (tool_response_ids raw) post).
Proof.
  intros Hraw. split; [|split].
  - unfold generate_content_messages. now rewrite Hraw.
  - apply repair_calls_answered.
  - intros pre m post tcs Heq Hr Htcs Hd.
    unfold repair. rewrite Heq at 2. rewrite clean_messages_app.
    cbn [clean_messages]. f_equal. f_equal.
    apply (clean_message_dangling _ _ tcs Hr Htcs).
    apply (Forall_impl _ _ _ Hd). intros tc Hno Hin.
    apply tool_response_ids_spec in Hin as (t & Ht & Hrole & Hid).
    exact (Hno t Ht Hrole Hid).
Qed.

Lemma repair_drops_dangling_calls_witness :
  raw_messages sample_str (fun _ => "{}") None lossy_history = Ok lossy_raw
  /\ generate_content_messages sample_str (fun _ => "{}") None lossy_history
     = Ok [Message.mk "user" (Some "list my drive files") None None;
           Message.mk "assistant" (Some "Checking.") None None;
           Message.mk "assistant" None
             (Some [ToolCall.mk "call_3" "function" "search" (PStr "{}")]) None;
           Message.mk "tool" (Some "none") None (Some "call_3")].
Proof.
  assert (H : raw_messages sample_str (fun _ => "{}") None lossy_history = Ok lossy_raw)
    by reflexivity.
  split; [exact H|].
  rewrite (proj1 (repair_drops_dangling_calls _ _ _ _ _ H)).
  vm_compute. reflexivity.
Defined.

(** ** The backend invariant *)

Lemma answers_spec tc t :
  answers tc t = true <->
  Message.role t = "tool" /\ Message.tool_call_id t = Some (ToolCall.id tc).
Proof.
  unfold answers, is_tool. rewrite andb_true_iff, bool_decide_eq_true.
  now rewrite String.eqb_eq.
Qed.

Lemma calls_of_spec m tc :
  In tc (calls_of m) ->
  Message.role m = "assistant"
  /\ exists tcs, Message.tool_calls m = Some tcs /\ tc ∈ tcs.
Proof.
  unfold calls_of.
  destruct (String.eqb_spec (Message.role m) "assistant") as [Hr|]; [|intros []].
  destruct (Message.tool_calls m) as [tcs|]; [|intros []].
  intros H. split; [exact Hr|]. exists tcs. split; [reflexivity|].
  now apply list_elem_of_In.
Qed.

(** C2 (amended).  In the message list after the repair pass every assistant
    message with tool calls has, for each id it lists, a tool message with
    that [tool_call_id] somewhere in the list; the tool messages need not
    follow it. *)
Theorem repaired_calls_answered_somewhere (py_str : pyval -> string)
        (json_text : json -> string) (system_instruction : option string)
        (contents : list Content.t) (msgs : list Message.t) :
  generate_content_messages py_str json_text system_instruction contents = Ok msgs ->
  answered_somewhere msgs = true.
Proof.
  unfold generate_content_messages.
  destruct (raw_messages py_str json_text system_instruction contents) as [raw|e];
    cbn [rbind]; [|discriminate].
  intros [= <-]. unfold answered_somewhere.
  apply forallb_forall. intros m Hm. apply forallb_forall. intros tc Htc.
  apply calls_of_spec in Htc as (Hr & tcs & Htcs & Htc).
  apply list_elem_of_In in Hm.
  destruct (repair_calls_answered raw m tcs tc Hm Hr Htcs Htc) as (t & Ht & Hrole & Hid).
  apply existsb_exists. exists t. split; [now apply list_elem_of_In|].
  now apply answers_spec.
Qed.

Lemma repaired_calls_answered_somewhere_witness :
  generate_content_messages sample_str (fun _ => "{}") None interleaved_history
    = Ok interleaved_messages
  /\ answered_somewhere interleaved_messages = true.
Proof.
  assert (H : generate_content_messages sample_str (fun _ => "{}") None
                interleaved_history = Ok interleaved_messages)
    by (vm_compute; reflexivity).
  split; [exact H|].
  exact (repaired_calls_answered_somewhere _ _ _ _ _ H).
Defined.

(** C2, as stated, fails: the repair pass keeps the call of
    [interleaved_history], whose tool message does not follow it. *)
Lemma repaired_history_not_contiguous :
  generate_content_messages sample_str (fun _ => "{}") None interleaved_history
    = Ok interleaved_messages
  /\ backend_invariant interleaved_messages = false.
Proof. split; vm_compute; reflexivity. Qed.

(** A history without tool calls yields no message with [tool_calls] and
    meets the invariant of the backend as it is. *)
Lemma backend_invariant_no_calls (msgs : list Message.t) :
  Forall (fun m => calls_of m = []) msgs -> backend_invariant msgs = true.
Proof.
  induction 1 as [|m rest Hm _ IH]; [reflexivity|].
  cbn [backend_invariant]. now rewrite Hm, IH.
Qed.

(** ** The message list is produced *)

Section ReconcilerTotal.
Variable py_str : pyval -> string.
Variable json_text : json -> string.

Lemma parts_loop_total parts :
  Forall (fun p => part_args_ok p = true) parts ->
  forall acc, exists acc', parts_loop py_str json_text acc parts = Ok acc'.
Proof.
  induction 1 as [|p ps Hp _ IH]; intros acc; cbn [parts_loop].
  - now exists acc.
  - unfold part_step, part_args_ok in *.
    destruct (opt_truthy (Part.text p)); cbn [rbind orb] in *; [apply IH|].
    destruct (Part.function_call p) as [fc|].
    + unfold call_arguments, json_dumps.
      destruct (FunctionCall.args fc); cbn [rbind]; try apply IH.
      rewrite Hp. cbn [rbind]. apply IH.
    + destruct (Part.function_response p); cbn [rbind]; apply IH.
Qed.

(** Line 137 is the only place of lines 89-226 that can raise: when the
    arguments of every tool call encode, the message list is returned. *)
Lemma generate_content_messages_total system_instruction contents :
  Forall (fun c => Forall (fun p => part_args_ok p = true) (Content.parts c)) contents ->
  exists msgs,
    generate_content_messages py_str json_text system_instruction contents = Ok msgs.
Proof.
  intros H. unfold generate_content_messages, raw_messages.
  assert (Hloop : exists ms, contents_loop py_str json_text contents = Ok ms).
  { induction H as [|c cs Hc _ [ns IH]]; [now exists []|].
    cbn [contents_loop]. unfold content_messages.
    destruct (parts_loop_total _ Hc (mk_acc "" [] [])) as [acc ->]. cbn [rbind].
    rewrite IH.
    destruct (tool_responses acc), (acc_tool_calls acc),
      (str_truthy (content_text acc)); cbn [rbind]; eexists; reflexivity. }
  destruct Hloop as [ms ->]. cbn [rbind]. eexists. reflexivity.
Qed.

End ReconcilerTotal.

(** ** Histories without tool calls *)

Section TextOnly.
Variable py_str : pyval -> string.
Variable json_text : json -> string.

Lemma parts_loop_no_calls parts :
  Forall (fun p => Part.function_call p = None) parts ->
  forall acc acc',
    parts_loop py_str json_text acc parts = Ok acc' ->
    acc_tool_calls acc = [] ->
    Forall (fun m => Message.tool_calls m = None) (tool_responses acc) ->
    acc_tool_calls acc' = []
    /\ Forall (fun m => Message.tool_calls m = None) (tool_responses acc').
Proof.
  induction 1 as [|p ps Hp _ IH]; intros acc acc'; cbn [parts_loop].
  - intros [= <-]. auto.
  - unfold part_step. rewrite Hp.
    destruct (opt_truthy (Part.text p)); cbn [rbind].
    + intros Hl Hc Hr. now apply (IH _ _ Hl).
    + destruct (Part.function_response p) as [fr|]; cbn [rbind];
        intros Hl Hc Hr; apply (IH _ _ Hl); cbn; try assumption.
      apply Forall_app. split; [exact Hr|]. now constructor.
Qed.

Lemma clean_messages_no_calls ids msgs :
  Forall (fun m => Message.tool_calls m = None) msgs -> clean_messages ids msgs = msgs.
Proof.
  induction 1 as [|m ms Hm _ IH]; [reflexivity|].
  cbn [clean_messages]. unfold clean_message. now rewrite Hm, IH.
Qed.

(** Section 4.2, step 6: a history replayed as plain text yields no
    message with [tool_calls], and so meets the invariant of the backend. *)
Lemma text_only_history_meets_invariant system_instruction contents msgs :
  Forall (fun c => Forall (fun p => Part.function_call p = None) (Content.parts c))
         contents ->
  generate_content_messages py_str json_text system_instruction contents = Ok msgs ->
  Forall (fun m => Message.tool_calls m = None) msgs
  /\ backend_invariant msgs = true.
Proof.
  intros H. unfold generate_content_messages, raw_messages.
  assert (Hloop : forall ms, contents_loop py_str json_text contents = Ok ms ->
                             Forall (fun m => Message.tool_calls m = None) ms).
  { induction H as [|c cs Hc _ IH]; cbn [contents_loop]; [intros ms [= <-]; constructor|].
    intros ms. unfold content_messages.
    destruct (parts_loop py_str json_text _ (Content.parts c)) as [acc|] eqn:Hp;
      cbn [rbind]; [|discriminate].
    destruct (parts_loop_no_calls _ Hc _ _ Hp eq_refl (Forall_nil_2 _)) as [Hcalls Hresp].
    rewrite Hcalls.
    destruct (contents_loop py_str json_text cs) as [ns|]; [|
      destruct (tool_responses acc), (str_truthy (content_text acc)); discriminate].
    specialize (IH ns eq_refl).
    destruct (tool_responses acc) as [|t ts] eqn:Ht; cbn [rbind].
    - destruct (str_truthy (content_text acc)); cbn [rbind]; intros [= <-];
        [constructor; [reflexivity|exact IH]|exact IH].
    - intros [= <-]. change (t :: ts ++ ns) with ((t :: ts) ++ ns).
      apply Forall_app. now split. }
  destruct (contents_loop py_str json_text contents) as [ms|]; cbn [rbind]; [|discriminate].
  intros [= <-].
  assert (Hraw : Forall (fun m => Message.tool_calls m = None)
                   ((if opt_truthy system_instruction
                     then [Message.mk "system" system_instruction None None]
                     else []) ++ ms)).
  { apply Forall_app. split; [|now apply Hloop].
    destruct (opt_truthy system_instruction); repeat constructor. }
  unfold repair. rewrite clean_messages_no_calls by exact Hraw.
  split; [exact Hraw|]. apply backend_invariant_no_calls.
  apply (Forall_impl _ _ _ Hraw). intros m Hm. unfold calls_of. rewrite Hm.
  now destruct (String.eqb _ _).
Qed.

End TextOnly.

(** The hydration scenario of section 8: the two replayed events give the
    two plain messages. *)
Example hydrated_history_messages :
  generate_content_messages sample_str (fun _ => "{}") None
    [Content.mk "user" [Part.of_text "hi"];
     Content.mk "assistant" [Part.of_text "hello"]]
  = Ok [Message.mk "user" (Some "hi") None None;
        Message.mk "assistant" (Some "hello") None None].
Proof. reflexivity. Qed.

(** ** Reading back what [json.dumps] wrote *)

Section DictOfPairs.
Context {V : Type}.
Implicit Types (d l : list (pykey * V)).

Lemma dict_set_fresh k v d :
  k ∉ map fst d -> dict_set k v d = d ++ [(k, v)].
Proof.
  induction d as [|[k' v'] d IH]; cbn [dict_set map fst app]; [reflexivity|].
  intros H. apply not_elem_of_cons in H as [Hne Hd].
  rewrite decide_False by congruence. now rewrite IH.
Qed.

Lemma dict_set_keys k v d :
  map fst (dict_set k v d) = if decide (k ∈ map fst d) then map fst d
                             else map fst d ++ [k].
Proof.
  induction d as [|[k' v'] d IH]; cbn [dict_set map fst].
  - rewrite decide_False by apply not_elem_of_nil. reflexivity.
  - destruct (decide (k' = k)) as [->|Hne].
    + rewrite decide_True by left. reflexivity.
    + cbn [map fst]. rewrite IH.
      destruct (decide (k ∈ map fst d)) as [Hin|Hout].
      * rewrite decide_True by now right. reflexivity.
      * rewrite decide_False; [reflexivity|].
        intros Hc. apply elem_of_cons in Hc as [->|Hc]; [now apply Hne|now apply Hout].
Qed.

Lemma dict_set_NoDup k v d : NoDup (map fst d) -> NoDup (map fst (dict_set k v d)).
Proof.
  intros H. rewrite dict_set_keys.
  destruct (decide (k ∈ map fst d)) as [Hin|Hout]; [exact H|].
  apply NoDup_app. split; [exact H|]. split.
  - intros x Hx Hk. apply list_elem_of_singleton in Hk. now subst x.
  - apply NoDup_singleton.
Qed.

Lemma dict_set_Forall (Q : pykey * V -> Prop) k v d :
  Forall Q d -> Q (k, v) -> Forall Q (dict_set k v d).
Proof.
  intros Hd Hkv. induction Hd as [|[k' v'] d Hx Hd IH]; cbn [dict_set].
  - now constructor.
  - destruct (decide (k' = k)) as [->|Hne]; constructor; assumption.
Qed.

Lemma fold_dict_set_NoDup l d :
  NoDup (map fst d) ->
  NoDup (map fst (fold_left (fun d kv => dict_set (fst kv) (snd kv) d) l d)).
Proof.
  revert d. induction l as [|[k v] l IH]; intros d H; cbn [fold_left]; [exact H|].
  apply IH. now apply dict_set_NoDup.
Qed.

Lemma fold_dict_set_Forall (Q : pykey * V -> Prop) l d :
  Forall Q d -> Forall Q l ->
  Forall Q (fold_left (fun d kv => dict_set (fst kv) (snd kv) d) l d).
Proof.
  revert d. induction l as [|[k v] l IH]; intros d Hd Hl; cbn [fold_left]; [exact Hd|].
  inversion Hl; subst. apply IH; [|assumption]. now apply dict_set_Forall.
Qed.

Lemma fold_dict_set_fresh l d :
  NoDup (map fst (d ++ l)) ->
  fold_left (fun d kv => dict_set (fst kv) (snd kv) d) l d = d ++ l.
Proof.
  revert d. induction l as [|[k v] l IH]; intros d H; cbn [fold_left fst snd].
  - now rewrite app_nil_r.
  - rewrite dict_set_fresh.
    + rewrite IH; rewrite <- app_assoc; [reflexivity|exact H].
    + rewrite map_app in H. apply NoDup_app in H as (_ & Hdis & _).
      intros Hin. apply (Hdis k Hin). cbn. left.
Qed.

Lemma dict_of_pairs_NoDup l : NoDup (map fst (dict_of_pairs l)).
Proof. apply fold_dict_set_NoDup. constructor. Qed.

Lemma dict_of_pairs_Forall (Q : pykey * V -> Prop) l :
  Forall Q l -> Forall Q (dict_of_pairs l).
Proof. apply fold_dict_set_Forall. constructor. Qed.

Lemma dict_of_pairs_id l : NoDup (map fst l) -> dict_of_pairs l = l.
Proof. intros H. unfold dict_of_pairs. now rewrite fold_dict_set_fresh. Qed.
End DictOfPairs.

Lemma forallb_Forall_true {A : Type} (p : A -> bool) (l : list A) :
  forallb p l = true <-> Forall (fun x => p x = true) l.
Proof.
  rewrite forallb_forall, Forall_forall. split; intros H x Hx; apply H.
  - now apply list_elem_of_In.
  - now apply list_elem_of_In.
Qed.

Lemma json_loads_plain j : json_plain (json_loads j) = true.
Proof.
  induction j as [| | | | |l IH|ms IH] using json_rect'; try reflexivity.
  - cbn [json_loads json_plain]. apply forallb_Forall_true.
    apply Forall_map. exact IH.
  - cbn [json_loads json_plain]. apply andb_true_iff. split.
    + apply bool_decide_eq_true. apply dict_of_pairs_NoDup.
    + apply forallb_Forall_true. apply dict_of_pairs_Forall.
      apply Forall_map. apply (Forall_impl _ _ _ IH).
      intros [k x] Hx; cbn in *. exact Hx.
Qed.

Lemma json_plain_encodable v : json_plain v = true -> json_encodable v = true.
Proof.
  induction v as [| | | | |l IH|l IH|kvs IH|c d attrs IH] using pyval_rect';
    try reflexivity; try discriminate.
  - cbn [json_plain json_encodable]. rewrite !forallb_Forall_true. intros H.
    apply (Forall_impl _ _ _ (List.Forall_and IH H)). intros x [Hi Hp]. auto.
  - cbn [json_plain json_encodable]. rewrite andb_true_iff, !forallb_Forall_true.
    intros [_ H].
    apply (Forall_impl _ _ _ (List.Forall_and IH H)).
    intros [k x] [Hi Hp]; cbn in *. apply andb_true_iff in Hp as [Hk Hp].
    rewrite (Hi Hp). destruct k; try discriminate. reflexivity.
Qed.

Lemma reload_plain v : json_plain v = true -> reload v = v.
Proof.
  unfold reload.
  induction v as [| | | | |l IH|l IH|kvs IH|c d attrs IH] using pyval_rect';
    try reflexivity; try discriminate.
  - cbn [json_plain json_doc json_loads]. rewrite forallb_Forall_true. intros H.
    f_equal. rewrite map_map. rewrite <- (map_id l) at 2. apply map_ext_Forall.
    apply (Forall_impl _ _ _ (List.Forall_and IH H)). intros x [Hi Hp]. auto.
  - cbn [json_plain json_doc json_loads].
    rewrite andb_true_iff, bool_decide_eq_true, forallb_Forall_true.
    intros [Hnd H]. f_equal. rewrite map_map.
    assert (Hmap : map (fun kv : pykey * pyval =>
                          (KStr (default "" (key_text (fst kv))),
                           json_loads (json_doc (snd kv)))) kvs = kvs).
    { rewrite <- (map_id kvs) at 2. apply map_ext_Forall.
      apply (Forall_impl _ _ _ (List.Forall_and IH H)).
      intros [k x] [Hi Hp]; cbn in *. apply andb_true_iff in Hp as [Hk Hp].
      rewrite (Hi Hp). destruct k; try discriminate. reflexivity. }
    cbn in Hmap |- *. rewrite Hmap. now apply dict_of_pairs_id.
Qed.

(** What was loaded from a column is loaded again unchanged after it is
    written back. *)
Lemma reload_loads j : reload (json_loads j) = json_loads j.
Proof. apply reload_plain, json_loads_plain. Qed.

(** ** Session Store *)

Lemma db_roundtrip_healthy w : faults w = [] -> db_roundtrip w = (Ok tt, w).
Proof. unfold db_roundtrip. now intros ->. Qed.

Lemma db_commit_healthy write w :
  faults w = [] -> db_commit write w = (Ok tt, with_table (write (table w)) w).
Proof. intros H. unfold db_commit. now rewrite H. Qed.

Lemma get_session_inner_healthy app user sid w :
  faults w = [] ->
  _get_session_inner app user sid w = (materialize (table w) app user sid, w).
Proof.
  intros H. unfold _get_session_inner, materialize.
  rewrite db_roundtrip_healthy by exact H.
  destruct (table w !! _make_session_key app user sid) as [record|]; [|reflexivity].
  destruct (load_events (SessionRecord.events_json record)); reflexivity.
Qed.

(** On a healthy connection a session that decodes is returned at the
    first attempt. *)
Lemma get_session_healthy app user sid w r :
  faults w = [] -> materialize (table w) app user sid = Ok r ->
  get_session app user sid w = (Ok r, w).
Proof.
  intros H Hm. unfold get_session, _retry_on_connection_error. cbn [retry_loop].
  now rewrite get_session_inner_healthy, Hm.
Qed.

(** A [get] that returns on a healthy connection returns what the row
    decodes to. *)
Lemma get_session_healthy_inv app user sid w r w' :
  faults w = [] -> get_session app user sid w = (Ok r, w') ->
  materialize (table w) app user sid = Ok r.
Proof.
  intros H. unfold get_session, _retry_on_connection_error. cbn [retry_loop].
  rewrite get_session_inner_healthy by exact H.
  destruct (materialize (table w) app user sid) as [a|e] eqn:Hm; [congruence|].
  destruct e; try discriminate.
  destruct (is_connection_error msg && Nat.ltb 0 (3 - 1)); [|discriminate].
  rewrite get_session_inner_healthy by exact H. cbn [table with_effect]. rewrite Hm.
  destruct (is_connection_error msg && Nat.ltb 1 (3 - 1)); [|discriminate].
  rewrite get_session_inner_healthy by exact H. cbn [table with_effect]. rewrite Hm.
  destruct (is_connection_error msg && Nat.ltb 2 (3 - 1)) eqn:Hc; [|discriminate].
  rewrite andb_comm in Hc. discriminate Hc.
Qed.

Lemma rmap_list_app {A B : Type} (f : A -> result B) l1 l2 ys1 ys2 :
  rmap_list f l1 = Ok ys1 -> rmap_list f l2 = Ok ys2 ->
  rmap_list f (l1 ++ l2) = Ok (ys1 ++ ys2).
Proof.
  revert ys1. induction l1 as [|x l1 IH]; intros ys1; cbn [rmap_list app].
  - intros [= <-]. auto.
  - destruct (f x) as [y|]; cbn [rbind]; [|discriminate].
    destruct (rmap_list f l1) as [ys|]; cbn [rbind]; [|discriminate].
    intros [= <-] H2. now rewrite (IH ys eq_refl H2).
Qed.

(** The list a stored column loads to is read back unchanged after it is
    written again. *)
Lemma json_loads_list_stable j l :
  as_list (json_loads j) = Ok l ->
  Forall (fun x => json_plain x = true) l.
Proof.
  intros H. pose proof (json_loads_plain j) as Hp.
  destruct (json_loads j); try discriminate. injection H as <-.
  now apply forallb_Forall_true.
Qed.

Lemma reload_list l x :
  Forall (fun y => json_plain y = true) l ->
  json_loads (json_doc (PList (l ++ [x]))) = PList (l ++ [reload x]).
Proof.
  intros H. cbn [json_doc json_loads]. rewrite map_map, map_app. cbn [map].
  f_equal. f_equal. rewrite <- (map_id l) at 2. apply map_ext_Forall.
  apply (Forall_impl _ _ _ H). intros y Hy. now apply reload_plain.
Qed.

Lemma encodable_list l x :
  Forall (fun y => json_plain y = true) l -> json_encodable x = true ->
  json_encodable (PList (l ++ [x])) = true.
Proof.
  intros H Hx. cbn [json_encodable]. rewrite forallb_app. cbn. rewrite Hx.
  rewrite andb_true_r. apply forallb_Forall_true.
  apply (Forall_impl _ _ _ H). intros y Hy. now apply json_plain_encodable.
Qed.

(** ** What the store reads back of a serialized event *)

Lemma reload_dict (kvs : list (pykey * pyval)) :
  Forall (fun kv => is_str_key (fst kv) = true) kvs -> NoDup (map fst kvs) ->
  reload (PDict kvs) = PDict (map (fun kv => (fst kv, reload (snd kv))) kvs).
Proof.
  intros Hk Hnd. unfold reload. cbn [json_doc json_loads]. rewrite map_map.
  assert (Hmap : map (fun kv : pykey * pyval =>
                        (KStr (default "" (key_text (fst kv))),
                         json_loads (json_doc (snd kv)))) kvs
                 = map (fun kv => (fst kv, json_loads (json_doc (snd kv)))) kvs).
  { apply map_ext_Forall. apply (Forall_impl _ _ _ Hk).
    intros [k x] Hx; cbn in *. destruct k; try discriminate. reflexivity. }
  cbn in Hmap |- *. rewrite Hmap. f_equal. apply dict_of_pairs_id.
  rewrite map_map. cbn. exact Hnd.
Qed.

Lemma reload_list_map l : reload (PList l) = PList (map reload l).
Proof. unfold reload. cbn [json_doc json_loads]. now rewrite map_map. Qed.

Ltac str_keys :=
  match goal with
  | |- Forall _ _ => repeat constructor
  | |- NoDup _ => cbn [map fst]; refine (bool_decide_unpack _ _); vm_compute; exact I
  end.

Section StoreProperties.
Variable py_str : pyval -> string.

(** Events the codec stores as they are load back as they were. *)
Lemma load_serialized_events evs :
  Forall event_kept evs ->
  rmap_list _deserialize_event (map (_serialize_event py_str) evs) = Ok evs.
Proof.
  induction 1 as [|e evs He _ IH]; [reflexivity|].
  cbn [map rmap_list]. rewrite IH.
  destruct e as [author [[role parts]|]]; unfold event_kept, _serialize_event,
    _deserialize_event in *; cbn [Event.author Event.content Content.role
    Content.parts] in *; dict_lookup.
  - cbn [truthy]. dict_lookup.
    rewrite deserialize_parts_serialize by exact He. dict_lookup. reflexivity.
  - reflexivity.
Qed.

(** An append that goes through, on a healthy connection. *)
Lemma append_event_healthy session event w record l :
  faults w = [] ->
  table w !! session_key_of session = Some record ->
  as_list (json_loads (SessionRecord.events_json record)) = Ok l ->
  json_encodable (_serialize_event py_str event) = true ->
  append_event py_str session event w
  = (Ok tt, appended session event,
     with_table (<[session_key_of session :=
                     rewritten record
                       (json_doc (PList (l ++ [_serialize_event py_str event])))
                       (utcnow w)]> (table w)) w).
Proof.
  intros Hf Ht Hl He. unfold append_event, session_key_of in *.
  rewrite db_roundtrip_healthy by exact Hf. rewrite Ht, Hl.
  unfold json_dumps.
  rewrite (encodable_list l _ (json_loads_list_stable _ _ Hl) He).
  rewrite db_commit_healthy by exact Hf. reflexivity.
Qed.

(** What an append that returned has done, on a healthy connection. *)
Lemma append_event_ok_inv session event w session' w' :
  faults w = [] ->
  append_event py_str session event w = (Ok tt, session', w') ->
  exists record l,
    table w !! session_key_of session = Some record
    /\ as_list (json_loads (SessionRecord.events_json record)) = Ok l
    /\ session' = appended session event
    /\ w' = with_table (<[session_key_of session :=
                            rewritten record
                              (json_doc (PList (l ++ [_serialize_event py_str event])))
                              (utcnow w)]> (table w)) w.
Proof.
  intros Hf. unfold append_event, session_key_of.
  rewrite db_roundtrip_healthy by exact Hf.
  destruct (table w !! _) as [record|] eqn:Ht; [|discriminate].
  destruct (as_list (json_loads (SessionRecord.events_json record))) as [l|] eqn:Hl;
    [|discriminate].
  unfold json_dumps. destruct (json_encodable _); [|discriminate].
  rewrite db_commit_healthy by exact Hf.
  intros [= <- <-]. exists record, l. repeat split; [exact Hl].
Qed.

Lemma load_events_appended j l evs x e' :
  as_list (json_loads j) = Ok l ->
  rmap_list _deserialize_event l = Ok evs ->
  _deserialize_event (reload x) = Ok e' ->
  load_events (json_doc (PList (l ++ [x]))) = Ok (evs ++ [e']).
Proof.
  intros Hl Hevs He. unfold load_events.
  rewrite (reload_list l x (json_loads_list_stable _ _ Hl)).
  cbn [as_list rbind]. apply rmap_list_app; [exact Hevs|].
  cbn [rmap_list]. now rewrite He.
Qed.

Lemma materialize_inv t app user sid s :
  materialize t app user sid = Ok (Some s) ->
  exists record l,
    t !! _make_session_key app user sid = Some record
    /\ as_list (json_loads (SessionRecord.events_json record)) = Ok l
    /\ rmap_list _deserialize_event l = Ok (Session.events s)
    /\ s = Session.mk app user sid (Session.events s).
Proof.
  unfold materialize, load_events.
  destruct (t !! _) as [record|]; [|discriminate].
  destruct (as_list (json_loads (SessionRecord.events_json record))) as [l|] eqn:Hl;
    cbn [rbind]; [|discriminate].
  destruct (rmap_list _deserialize_event l) as [evs|] eqn:Hevs; [|discriminate].
  intros [= <-]. exists record, l. repeat split; [exact Hl|exact Hevs].
Qed.

End StoreProperties.

(** C10.  An append to a session whose row is absent raises and changes
    neither the table nor the handle; on a healthy connection the error is
    the [ValueError] of line 311 and the world is untouched. *)
Theorem append_event_absent_atomic (py_str : pyval -> string)
        (session : Session.t) (event : Event.t) (w : world) :
  table w !! session_key_of session = None ->
  exists e w',
    append_event py_str session event w = (Raise e, session, w')
    /\ table w' = table w
    /\ (faults w = [] ->
        e = ValueError ("Session not found: " +:+ session_key_of session) /\ w' = w).
Proof.
  intros Ht. unfold append_event, db_roundtrip, session_key_of in *.
  destruct w as [t fs eff now acks]; cbn [faults table effects utcnow lost_acks] in *.
  destruct fs as [|[e|] fs]; cbn [table]; rewrite ?Ht.
  - eexists _, _. split; [reflexivity|]. split; [reflexivity|]. intros _. now split.
  - eexists _, _. split; [reflexivity|]. split; [reflexivity|]. discriminate.
  - eexists _, _. split; [reflexivity|]. split; [reflexivity|]. discriminate.
Qed.

(** C6 (amended).  On a healthy connection, when [get_session] returns a
    session of N events, an [append_event] that returns puts the event last
    in the handle, and, for an event the codec stores as it is, makes the
    next [get_session] return N+1 events with that event last; for any
    other event the next [get_session] returns the N events followed by
    what the codec reads back, when it reads it back; with no row under the
    key the append raises the [ValueError] of line 311. *)
Theorem append_then_get (py_str : pyval -> string)
        (session : Session.t) (event : Event.t) (w : world) :
  faults w = [] ->
  (forall stored session' w',
      get_session (Session.app_name session) (Session.user_id session)
                  (Session.id session) w = (Ok (Some stored), w) ->
      append_event py_str session event w = (Ok tt, session', w') ->
      Session.events session' = Session.events session ++ [event]
      /\ (stable py_str event ->
          get_session (Session.app_name session) (Session.user_id session)
                      (Session.id session) w'
          = (Ok (Some (Session.mk (Session.app_name session) (Session.user_id session)
                         (Session.id session) (Session.events stored ++ [event]))), w')
          /\ length (Session.events stored ++ [event]) = S (length (Session.events stored)))
      /\ (forall e',
             _deserialize_event (reload (_serialize_event py_str event)) = Ok e' ->
             get_session (Session.app_name session) (Session.user_id session)
                         (Session.id session) w'
             = (Ok (Some (Session.mk (Session.app_name session) (Session.user_id session)
                            (Session.id session) (Session.events stored ++ [e']))), w')))
  /\ (table w !! session_key_of session = None ->
      append_event py_str session event w
      = (Raise (ValueError ("Session not found: " +:+ session_key_of session)),
         session, w)).
Proof.
  intros Hf. split.
  - intros stored session' w' Hget Happ.
    apply get_session_healthy_inv in Hget; [|exact Hf].
    apply materialize_inv in Hget as (record & l & Ht & Hl & Hevs & _).
    apply append_event_ok_inv in Happ as (record' & l' & Ht' & Hl' & -> & ->);
      [|exact Hf].
    unfold session_key_of in Ht'. rewrite Ht in Ht'. injection Ht' as <-.
    rewrite Hl in Hl'. injection Hl' as <-.
    assert (Hread : forall e',
               _deserialize_event (reload (_serialize_event py_str event)) = Ok e' ->
               get_session (Session.app_name session) (Session.user_id session)
                 (Session.id session)
                 (with_table (<[session_key_of session :=
                                  rewritten record
                                    (json_doc (PList (l ++ [_serialize_event py_str event])))
                                    (utcnow w)]> (table w)) w)
               = (Ok (Some (Session.mk (Session.app_name session)
                              (Session.user_id session) (Session.id session)
                              (Session.events stored ++ [e']))),
                  with_table (<[session_key_of session :=
                                  rewritten record
                                    (json_doc (PList (l ++ [_serialize_event py_str event])))
                                    (utcnow w)]> (table w)) w)).
    { intros e' He'. apply get_session_healthy; [exact Hf|].
      unfold materialize. cbn [table with_table]. unfold session_key_of.
      rewrite lookup_insert_eq. cbn [rewritten SessionRecord.events_json].
      now rewrite (load_events_appended _ _ _ _ _ Hl Hevs He'). }
    split; [reflexivity|]. split; [|exact Hread].
    intros [Hk Hp]. split; [|rewrite length_app; cbn; lia].
    apply Hread. rewrite (reload_plain _ Hp).
    pose proof (load_serialized_events py_str [event]
                  (Forall_cons_2 _ _ _ Hk (Forall_nil_2 _))) as H.
    cbn [map rmap_list rbind] in H.
    destruct (_deserialize_event (_serialize_event py_str event)); [|discriminate].
    cbn [rbind] in H. now injection H as ->.
  - intros Ht. unfold append_event, session_key_of in *.
    rewrite db_roundtrip_healthy by exact Hf. now rewrite Ht.
Qed.

(** C6, as stated, fails.  The append of an event whose text is empty
    returns and the next [get_session] returns N+1 events, the last of
    which is not that event; after the append of a tool result that lines
    133-137 have turned into a string, the next [get_session] raises. *)
Lemma appended_event_not_read_back :
  (let w' := snd (append_event sample_str (s1_handle [hi_event]) empty_text_event
                    one_turn_world) in
   append_event sample_str (s1_handle [hi_event]) empty_text_event one_turn_world
   = (Ok tt, s1_handle [hi_event; empty_text_event], w')
   /\ get_session "agents" "u1" "s1" w'
      = (Ok (Some (s1_handle [hi_event; Event.mk "user" (Some (Content.mk "user" []))])),
         w'))
  /\ (let w' := snd (append_event sample_str (s1_handle [hi_event]) opaque_result_event
                       one_turn_world) in
      append_event sample_str (s1_handle [hi_event]) opaque_result_event one_turn_world
      = (Ok tt, s1_handle [hi_event; opaque_result_event], w')
      /\ get_session "agents" "u1" "s1" w'
         = (Raise (ValidationError "dict or None expected"), w')).
Proof. split; cbn zeta; split; vm_compute; reflexivity. Qed.

(** ** Retry on connection errors *)

Lemma get_session_inner_fault app user sid w e fs :
  faults w = Some e :: fs ->
  _get_session_inner app user sid w = (Raise e, drained fs [] w).
Proof.
  intros H. unfold _get_session_inner, db_roundtrip, drained. rewrite H.
  now rewrite app_nil_r.
Qed.

Lemma get_session_inner_pass app user sid w fs :
  faults w = None :: fs ->
  _get_session_inner app user sid w
  = (materialize (table w) app user sid, drained fs [] w).
Proof.
  intros H. unfold _get_session_inner, db_roundtrip, drained, materialize.
  rewrite H, app_nil_r. cbn [table].
  destruct (table w !! _) as [record|]; [|reflexivity].
  destruct (load_events _); reflexivity.
Qed.


(** ** Closed instances for the Session Store *)

Lemma append_then_get_witness :
  faults one_turn_world = []
  /\ exists session' w',
      append_event sample_str (s1_handle [hi_event]) hello_event one_turn_world
      = (Ok tt, session', w')
      /\ Session.events session' = [hi_event; hello_event]
      /\ get_session "agents" "u1" "s1" w'
         = (Ok (Some (s1_handle [hi_event; hello_event])), w').
Proof.
  split; [reflexivity|].
  eexists _, _. split; [reflexivity|]. split; [reflexivity|].
  destruct (proj1 (append_then_get sample_str (s1_handle [hi_event]) hello_event
                     one_turn_world eq_refl)
              (s1_handle [hi_event]) _ _ eq_refl eq_refl)
    as (_ & Hstable & _).
  assert (Hk : event_kept hello_event)
    by (unfold event_kept; cbn; repeat constructor; cbn; congruence).
  exact (proj1 (Hstable (conj Hk eq_refl))).
Defined.

Lemma append_event_absent_atomic_witness :
  table empty_world !! session_key_of (s1_handle []) = None
  /\ append_event sample_str (s1_handle []) hi_event empty_world
     = (Raise (ValueError "Session not found: agents:u1:s1"), s1_handle [], empty_world).
Proof.
  split; [reflexivity|].
  destruct (append_event_absent_atomic sample_str (s1_handle []) hi_event empty_world
              eq_refl) as (e & w' & H & _ & Hh).
  destruct (Hh eq_refl) as [-> ->]. exact H.
Defined.


(** ** Hydration from the secondary store *)

Section Hydration.
Variable py_str : pyval -> string.

Lemma text_event_stable role c s : stable py_str (text_event role (String c s)).
Proof.
  split.
  - unfold event_kept; cbn. repeat constructor. cbn. congruence.
  - vm_compute. reflexivity.
Qed.

Lemma stable_column evs :
  Forall (stable py_str) evs ->
  as_list (json_loads (json_doc (PList (map (_serialize_event py_str) evs))))
  = Ok (map (_serialize_event py_str) evs).
Proof.
  intros H. change (json_loads (json_doc ?v)) with (reload v).
  rewrite reload_plain; [reflexivity|].
  cbn [json_plain]. apply forallb_Forall_true. apply Forall_map.
  apply (Forall_impl _ _ _ H). now intros e [_ He].
Qed.

Lemma stable_column_loads evs :
  Forall (stable py_str) evs ->
  load_events (json_doc (PList (map (_serialize_event py_str) evs))) = Ok evs.
Proof.
  intros H. unfold load_events. rewrite (stable_column evs H). cbn [rbind].
  apply load_serialized_events. apply (Forall_impl _ _ _ H). now intros e [He _].
Qed.

(** The loop of lines 86-105 on a healthy connection: every message with
    content is appended, to the row and to the handle. *)
Lemma hydrate_spec messages :
  forall session w record evs,
    faults w = [] ->
    table w !! session_key_of session = Some record ->
    SessionRecord.events_json record
    = json_doc (PList (map (_serialize_event py_str) evs)) ->
    Forall (stable py_str) evs ->
    exists w' record',
      hydrate py_str session messages w
      = (Ok tt,
         Session.mk (Session.app_name session) (Session.user_id session)
           (Session.id session) (Session.events session ++ replayed_events messages),
         w')
      /\ faults w' = []
      /\ table w' !! session_key_of session = Some record'
      /\ SessionRecord.events_json record'
         = json_doc (PList (map (_serialize_event py_str)
                              (evs ++ replayed_events messages))).
Proof.
  induction messages as [|msg rest IH]; intros session w record evs Hf Ht Hj Hs.
  - exists w, record. cbn [hydrate replayed_events]. rewrite !app_nil_r.
    destruct session; repeat split; try assumption.
  - cbn [hydrate replayed_events].
    destruct (ChatMessage.content msg) as [[|c s]|] eqn:Hc; cbn [opt_truthy str_truthy];
      try (apply (IH session w record evs); assumption).
    assert (Hl : as_list (json_loads (SessionRecord.events_json record))
                 = Ok (map (_serialize_event py_str) evs))
      by (rewrite Hj; now apply stable_column).
    assert (Hev : hydrated_event msg = text_event (ChatMessage.role msg) (String c s))
      by (unfold hydrated_event; now rewrite Hc).
    pose proof (text_event_stable (ChatMessage.role msg) c s) as Hst.
    rewrite Hev.
    rewrite (append_event_healthy py_str session _ w record _ Hf Ht Hl
               (json_plain_encodable _ (proj2 Hst))).
    set (e := text_event (ChatMessage.role msg) (String c s)) in *.
    destruct (IH (appended session e)
                 (with_table (<[session_key_of session :=
                                  rewritten record
                                    (json_doc (PList (map (_serialize_event py_str) evs
                                                        ++ [_serialize_event py_str e])))
                                    (utcnow w)]> (table w)) w)
                 (rewritten record
                    (json_doc (PList (map (_serialize_event py_str) evs
                                        ++ [_serialize_event py_str e])))
                    (utcnow w))
                 (evs ++ [e]))
      as (w' & record' & Hh & Hf' & Ht' & Hj').
    + exact Hf.
    + cbn [table with_table]. unfold session_key_of, appended. cbn.
      apply lookup_insert_eq.
    + cbn [rewritten SessionRecord.events_json]. rewrite map_app. reflexivity.
    + apply Forall_app. split; [exact Hs|]. now constructor.
    + rewrite <- app_assoc in Hj'. cbn [app] in Hj'.
      exists w', record'. rewrite Hh. cbn [appended Session.app_name Session.user_id
        Session.id Session.events]. rewrite <- !app_assoc. cbn [app].
      repeat split; try assumption.
Qed.

End Hydration.



(** C8.  When the session is absent from the table and the secondary store
    holds a record for its id, [ensure_session] creates the session and
    appends, in stored order, one text-only event per stored message with
    non-empty content, skipping the others; the handle and a later
    [get_session] hold exactly these events. *)
Theorem hydration_replays_messages (py_str : pyval -> string)
        (mongo : gmap string ChatSession.t) (user_id session_id : string)
        (chat : ChatSession.t) (w : world) :
  faults w = [] ->
  table w !! _make_session_key "agents" user_id session_id = None ->
  mongo !! session_id = Some chat ->
  exists w',
    ensure_session py_str mongo user_id session_id w
    = (Ok (Session.mk "agents" user_id session_id
             (replayed_events (ChatSession.messages chat))), w')
    /\ get_session "agents" user_id session_id w'
       = (Ok (Some (Session.mk "agents" user_id session_id
                      (replayed_events (ChatSession.messages chat)))), w').
Proof.
  intros Hf Ht Hm. unfold ensure_session.
  rewrite (get_session_healthy _ _ _ w None Hf)
    by (unfold materialize; now rewrite Ht).
  unfold create_session. rewrite !db_roundtrip_healthy by exact Hf. rewrite Ht.
  rewrite db_commit_healthy by exact Hf.
  unfold get_session_messages. rewrite Hm.
  set (key := _make_session_key "agents" user_id session_id) in *.
  set (record := SessionRecord.mk key "agents" user_id session_id (JArr [])
                   (utcnow w) (utcnow w)).
  set (w1 := with_table (<[key := record]> (table w)) w).
  assert (Ht1 : table w1 !! session_key_of (Session.mk "agents" user_id session_id [])
                = Some record) by apply lookup_insert_eq.
  destruct (hydrate_spec py_str (ChatSession.messages chat)
              (Session.mk "agents" user_id session_id []) w1 record []
              Hf Ht1 eq_refl (Forall_nil_2 _))
    as (w' & record' & Hh & Hf' & Ht' & Hj').
  rewrite Hh. cbn [Session.app_name Session.user_id Session.id Session.events app].
  exists w'. split; [reflexivity|].
  apply get_session_healthy; [exact Hf'|].
  unfold materialize. unfold session_key_of in Ht'.
  cbn [Session.app_name Session.user_id Session.id] in Ht'.
  rewrite Ht', Hj'. cbn [app].
  rewrite stable_column_loads; [reflexivity|].
  clear. induction (ChatSession.messages chat) as [|msg rest IH]; [constructor|].
  cbn [replayed_events].
  destruct (ChatMessage.content msg) as [[|c s]|]; try exact IH.
  constructor; [apply text_event_stable|exact IH].
Qed.

Lemma hydration_replays_messages_witness :
  faults empty_world = []
  /\ table empty_world !! _make_session_key "agents" "u1" "s1" = None
  /\ exists w',
      ensure_session sample_str hi_hello_store "u1" "s1" empty_world
      = (Ok (s1_handle [hi_event; hello_event]), w')
      /\ get_session "agents" "u1" "s1" w'
         = (Ok (Some (s1_handle [hi_event; hello_event])), w').
Proof.
  split; [reflexivity|]. split; [reflexivity|].
  exact (hydration_replays_messages sample_str hi_hello_store "u1" "s1" _ empty_world
           eq_refl eq_refl eq_refl).
Defined.

(** ** The caller-visible stream *)

Lemma event_frames_texts event :
  event_frames event = map content_frame (event_texts event).
Proof.
  unfold event_frames, event_texts. destruct (Event.content event) as [c|]; [|reflexivity].
  induction (Content.parts c) as [|p ps IH]; [reflexivity|].
  cbn [flat_map]. rewrite map_app, IH.
  destruct (opt_truthy (Part.text p)); reflexivity.
Qed.

Lemma flat_map_event_frames events :
  flat_map event_frames events = map content_frame (flat_map event_texts events).
Proof.
  induction events as [|e es IH]; [reflexivity|].
  cbn [flat_map]. now rewrite map_app, IH, event_frames_texts.
Qed.

Lemma stream_as_built_cons session_id f rest :
  (2 <= length rest)%nat ->
  stream_as_built session_id (f :: rest)
  = is_content_frame f && stream_as_built session_id rest.
Proof.
  destruct rest as [|a [|b rest]]; cbn [length]; try lia. reflexivity.
Qed.

Lemma stream_as_built_content texts session_id :
  stream_as_built session_id
    (map content_frame texts ++ [Done; session_frame session_id]) = true.
Proof.
  induction texts as [|t ts IH].
  - cbn. now rewrite !String.eqb_refl.
  - cbn [map app]. rewrite stream_as_built_cons, IH; [reflexivity|].
    rewrite length_app. cbn. lia.
Qed.

(** C9 (amended).  When the session setup succeeds, the stream the caller
    receives is the content frames of the non-empty texts of the agent
    loop in order, then one readable error frame if the loop raised, then
    the terminal sentinel, then the session id frame, which is last. *)
Theorem stream_ends_with_sentinel_then_session
        (py_str : pyval -> string)
        (run_async : string -> string -> Content.t -> world
                     -> (list Event.t * option exn) * world)
        (mongo : gmap string ChatSession.t) (message user_id session_id : string)
        (w w1 : world) (session : Session.t) :
  ensure_session py_str mongo user_id session_id w = (Ok session, w1) ->
  let outcome := fst (run_async user_id session_id
                        (Content.mk "user" [Part.of_text message]) w1) in
  let frames := fst (fst (stream_with_persistence py_str run_async mongo message
                            user_id session_id w)) in
  frames
  = map content_frame
      (flat_map event_texts (fst outcome)
       ++ match snd outcome with
          | Some run_error => ["Error: " +:+ exn_str run_error]
          | None => []
          end)
    ++ [Done; session_frame session_id]
  /\ stream_as_built session_id frames = true.
Proof.
  intros Hs outcome frames.
  assert (Hf : frames
               = map content_frame
                   (flat_map event_texts (fst outcome)
                    ++ match snd outcome with
                       | Some run_error => ["Error: " +:+ exn_str run_error]
                       | None => []
                       end)
                 ++ [Done; session_frame session_id]).
  { subst frames outcome. unfold stream_with_persistence, stream_generator.
    rewrite Hs.
    destruct (run_async user_id session_id _ w1) as [[events failure] w2].
    cbn [fst snd]. rewrite flat_map_event_frames, map_app, <- !app_assoc.
    destruct failure; reflexivity. }
  split; [exact Hf|]. rewrite Hf. apply stream_as_built_content.
Qed.

Lemma stream_ends_with_sentinel_then_session_witness :
  ensure_session sample_str ∅ "u1" "s1" one_turn_world
  = (Ok (s1_handle [hi_event]), one_turn_world)
  /\ fst (fst (stream_with_persistence sample_str failing_loop ∅ "hello" "u1" "s1"
                 one_turn_world))
     = [content_frame "Error: backend unavailable"; Done; session_frame "s1"].
Proof.
  assert (H : ensure_session sample_str ∅ "u1" "s1" one_turn_world
              = (Ok (s1_handle [hi_event]), one_turn_world)) by reflexivity.
  split; [exact H|].
  exact (proj1 (stream_ends_with_sentinel_then_session sample_str failing_loop ∅
                  "hello" "u1" "s1" _ _ _ H)).
Defined.

(** C9, as stated, fails: the sentinel is sent before the session id, so a
    frame follows it. *)
Lemma session_frame_follows_sentinel :
  fst (fst (stream_with_persistence sample_str answering_loop ∅ "hello" "u1" "s1"
              one_turn_world))
  = [content_frame "Here you go."; Done; session_frame "s1"]
  /\ stream_as_claimed "s1"
       [content_frame "Here you go."; Done; session_frame "s1"] = false.
Proof. split; reflexivity. Qed.

(** When the session setup fails the generator returns after the error
    frame: the stream carries no sentinel. *)
Example setup_failure_stream :
  fst (fst (stream_with_persistence sample_str answering_loop ∅ "hello" "u1" "s1"
              (mk_world ∅ [Some (OperationalError "password authentication failed")] [] 0 [])))
  = [content_frame "Error: Failed to initialize chat session."; session_frame "s1"].
Proof. reflexivity. Qed.


(** * Further properties of the code *)

(** ** [delete_session], [list_sessions] and the rows of the table *)

Lemma materialize_absent t app user sid :
  materialize t app user sid = Ok None <-> t !! _make_session_key app user sid = None.
Proof.
  unfold materialize. destruct (t !! _) as [record|]; [|tauto].
  destruct (load_events _); split; discriminate.
Qed.

(** X1.  On a healthy connection [delete_session] returns; afterwards
    [get_session] finds nothing under the key and an append through a handle
    of the session raises the [ValueError] of line 311; every other row is
    as it was, and deleting a key that has no row changes nothing. *)
Theorem delete_session_removes (py_str : pyval -> string)
        (app_name user_id session_id : string) (w : world) :
  faults w = [] ->
  exists w',
    delete_session app_name user_id session_id w = (Ok tt, w')
    /\ get_session app_name user_id session_id w' = (Ok None, w')
    /\ (forall events event,
           append_event py_str (Session.mk app_name user_id session_id events) event w'
           = (Raise (ValueError ("Session not found: "
                                   +:+ _make_session_key app_name user_id session_id)),
              Session.mk app_name user_id session_id events, w'))
    /\ (forall k, k <> _make_session_key app_name user_id session_id ->
                  table w' !! k = table w !! k)
    /\ (table w !! _make_session_key app_name user_id session_id = None -> w' = w).
Proof.
  intros Hf. unfold delete_session. rewrite db_roundtrip_healthy by exact Hf.
  set (key := _make_session_key app_name user_id session_id).
  assert (Hgone : forall w', faults w' = [] -> table w' !! key = None ->
            get_session app_name user_id session_id w' = (Ok None, w')
            /\ forall events event,
                append_event py_str (Session.mk app_name user_id session_id events) event w'
                = (Raise (ValueError ("Session not found: " +:+ key)),
                   Session.mk app_name user_id session_id events, w')).
  { intros w' Hf' Ht'. split.
    - apply get_session_healthy; [exact Hf'|]. now apply materialize_absent.
    - intros events event. unfold append_event.
      rewrite db_roundtrip_healthy by exact Hf'.
      cbn [Session.app_name Session.user_id Session.id]. fold key. now rewrite Ht'. }
  destruct (table w !! key) as [record|] eqn:Ht.
  - rewrite db_commit_healthy by exact Hf.
    eexists. split; [reflexivity|].
    destruct (Hgone (with_table (delete key (table w)) w) Hf (lookup_delete_eq _ _))
      as [Hget Happ].
    split; [exact Hget|]. split; [exact Happ|]. split; [|discriminate].
    intros k Hk. cbn [table with_table]. now rewrite lookup_delete_ne.
  - exists w. split; [reflexivity|]. destruct (Hgone w Hf Ht) as [Hget Happ].
    repeat split; auto.
Qed.

Lemma delete_session_removes_witness :
  faults one_turn_world = []
  /\ exists w',
      delete_session "agents" "u1" "s1" one_turn_world = (Ok tt, w')
      /\ get_session "agents" "u1" "s1" w' = (Ok None, w').
Proof.
  split; [reflexivity|].
  destruct (delete_session_removes sample_str "agents" "u1" "s1" one_turn_world eq_refl)
    as (w' & Hd & Hg & _).
  exists w'. split; assumption.
Defined.

Lemma well_keyed_insert t k record :
  well_keyed t ->
  SessionRecord.id record = k ->
  k = _make_session_key (SessionRecord.app_name record)
        (SessionRecord.user_id record) (SessionRecord.session_id record) ->
  well_keyed (<[k := record]> t).
Proof.
  intros Ht Hid Hk k' r. destruct (decide (k = k')) as [<-|Hne].
  - rewrite lookup_insert_eq. intros [= <-]. now split.
  - rewrite lookup_insert_ne by exact Hne. apply Ht.
Qed.

Lemma well_keyed_delete t k : well_keyed t -> well_keyed (delete k t).
Proof.
  intros Ht k' r Hr. apply lookup_delete_Some in Hr as [_ Hr]. now apply Ht.
Qed.

Lemma db_roundtrip_table w r w' : db_roundtrip w = (r, w') -> table w' = table w.
Proof.
  unfold db_roundtrip. destruct (faults w) as [|[e|] fs]; intros [= <- <-]; reflexivity.
Qed.

(** A commit has applied its write, or has raised and left the table. *)
Lemma db_commit_table write w r w' :
  db_commit write w = (r, w') ->
  table w' = write (table w) \/ (table w' = table w /\ exists e, r = Raise e).
Proof.
  unfold db_commit. destruct (faults w) as [|[e|] fs].
  - intros [= <- <-]. now left.
  - destruct (lost_acks w) as [|[|] rest]; intros [= <- <-];
      [right|left|right]; try reflexivity; split; eauto.
  - intros [= <- <-]. now left.
Qed.

(** X2.  The three writers keep the table well keyed, whatever the
    connection does: after [create_session], [append_event] or
    [delete_session] every row still sits under its own [id], which is the
    key of its [app_name], [user_id] and [session_id] columns. *)
Theorem writers_keep_rows_well_keyed (py_str : pyval -> string) (w : world) :
  well_keyed (table w) ->
  (forall app_name user_id session_id r w',
      create_session app_name user_id session_id w = (r, w') -> well_keyed (table w'))
  /\ (forall session event r session' w',
         append_event py_str session event w = (r, session', w') ->
         well_keyed (table w'))
  /\ (forall app_name user_id session_id r w',
         delete_session app_name user_id session_id w = (r, w') ->
         well_keyed (table w')).
Proof.
  intros Hk. split; [|split].
  - intros app user sid r w'. unfold create_session.
    destruct (db_roundtrip w) as [[[]|e] w1] eqn:H1;
      [|intros [= <- <-]; now rewrite (db_roundtrip_table _ _ _ H1)].
    pose proof (db_roundtrip_table _ _ _ H1) as Ht1. rewrite Ht1.
    destruct (table w !! _) as [existing|] eqn:Hl.
    + destruct (load_events _); intros [= <- <-]; now rewrite Ht1.
    + destruct (db_commit _ w1) as [r2 w2] eqn:H2.
      apply db_commit_table in H2 as [H2|[H2 _]]; rewrite Ht1 in H2;
        destruct r2 as [[]|e]; intros [= <- <-]; rewrite H2;
        try assumption; now apply well_keyed_insert.
  - intros session event r session' w'. unfold append_event.
    destruct (db_roundtrip w) as [[[]|e] w1] eqn:H1;
      [|intros [= <- <- <-]; now rewrite (db_roundtrip_table _ _ _ H1)].
    pose proof (db_roundtrip_table _ _ _ H1) as Ht1. rewrite Ht1.
    destruct (table w !! _) as [record|] eqn:Hl;
      [|intros [= <- <- <-]; now rewrite Ht1].
    destruct (as_list _); [|intros [= <- <- <-]; now rewrite Ht1].
    destruct (json_dumps _); [|intros [= <- <- <-]; now rewrite Ht1].
    destruct (Hk _ _ Hl) as [Hid Hkey].
    destruct (db_commit _ w1) as [r2 w2] eqn:H2.
    apply db_commit_table in H2 as [H2|[H2 _]]; rewrite Ht1 in H2;
      destruct r2 as [[]|e]; intros [= <- <- <-]; rewrite H2;
      try assumption; now apply well_keyed_insert.
  - intros app user sid r w'. unfold delete_session.
    destruct (db_roundtrip w) as [[[]|e] w1] eqn:H1;
      [|intros [= <- <-]; now rewrite (db_roundtrip_table _ _ _ H1)].
    pose proof (db_roundtrip_table _ _ _ H1) as Ht1. rewrite Ht1.
    destruct (table w !! _) as [record|] eqn:Hl; [|intros [= <- <-]; now rewrite Ht1].
    destruct (db_commit _ w1) as [r2 w2] eqn:H2.
    apply db_commit_table in H2 as [H2|[H2 _]]; rewrite Ht1 in H2;
      destruct r2 as [[]|e]; intros [= <- <-]; rewrite H2;
      try assumption; now apply well_keyed_delete.
Qed.

Lemma writers_keep_rows_well_keyed_witness :
  well_keyed (table empty_world)
  /\ well_keyed (table (snd (create_session "agents" "u1" "s1" empty_world))).
Proof.
  assert (H : well_keyed (table empty_world)) by (intros k r Hr; discriminate Hr).
  split; [exact H|].
  exact (proj1 (writers_keep_rows_well_keyed sample_str empty_world H)
           "agents" "u1" "s1" _ _ (surjective_pairing _)).
Defined.

Lemma rmap_list_elem {A B : Type} (f : A -> result B) l ys :
  rmap_list f l = Ok ys ->
  (forall y, y ∈ ys -> exists x, x ∈ l /\ f x = Ok y)
  /\ (forall x, x ∈ l -> exists y, y ∈ ys /\ f x = Ok y).
Proof.
  revert ys. induction l as [|a l IH]; intros ys; cbn [rmap_list].
  - intros [= <-]. split; intros ? H; inversion H.
  - destruct (f a) as [b|] eqn:Hb; cbn [rbind]; [|discriminate].
    destruct (rmap_list f l) as [zs|]; cbn [rbind]; [|discriminate].
    intros [= <-]. destruct (IH zs eq_refl) as [IH1 IH2]. split.
    + intros y Hy. apply elem_of_cons in Hy as [->|Hy].
      * exists a. split; [left|exact Hb].
      * destruct (IH1 y Hy) as (x & Hx & Hfx). exists x. split; [now right|exact Hfx].
    + intros x Hx. apply elem_of_cons in Hx as [->|Hx].
      * exists b. split; [left|exact Hb].
      * destruct (IH2 x Hx) as (y & Hy & Hfx). exists y. split; [now right|exact Hfx].
Qed.

Lemma elem_of_rows (t : gmap string SessionRecord.t) record :
  record ∈ map snd (map_to_list t) <-> exists k, t !! k = Some record.
Proof.
  rewrite list_elem_of_In, in_map_iff. split.
  - intros ([k r] & <- & Hin). exists k. apply elem_of_map_to_list.
    now apply list_elem_of_In.
  - intros [k Hk]. exists (k, record). split; [reflexivity|].
    apply list_elem_of_In. now apply elem_of_map_to_list.
Qed.

(** X3.  On a healthy connection and a well keyed table, every session
    [list_sessions] returns carries the app and the user asked for and is
    the session [get_session] returns for its id; every row whose columns
    are that app and user gives one of the listed sessions; the world is
    not changed. *)
Theorem list_sessions_agrees_with_get (app_name user_id : string) (w w' : world)
        (sessions : list Session.t) :
  faults w = [] -> well_keyed (table w) ->
  list_sessions app_name user_id w = (Ok sessions, w') ->
  w' = w
  /\ (forall s, s ∈ sessions ->
                Session.app_name s = app_name /\ Session.user_id s = user_id
                /\ get_session app_name user_id (Session.id s) w = (Ok (Some s), w))
  /\ (forall k record,
         table w !! k = Some record ->
         SessionRecord.app_name record = app_name ->
         SessionRecord.user_id record = user_id ->
         exists s, s ∈ sessions /\ Session.id s = SessionRecord.session_id record).
Proof.
  intros Hf Hk. unfold list_sessions. rewrite db_roundtrip_healthy by exact Hf.
  destruct (rmap_list _ _) as [ss|] eqn:Hl; [|discriminate].
  intros [= <- <-]. apply rmap_list_elem in Hl as [H1 H2].
  split; [reflexivity|]. split.
  - intros s Hs. destruct (H1 s Hs) as (record & Hin & Hrec).
    apply list_elem_of_filter in Hin as [[Happ Huser] Hrow].
    apply elem_of_rows in Hrow as [k Hrow].
    destruct (load_events (SessionRecord.events_json record)) as [events|] eqn:Hev;
      cbn [rbind] in Hrec; [|discriminate].
    injection Hrec as <-. cbn [Session.app_name Session.user_id Session.id].
    split; [exact Happ|]. split; [exact Huser|].
    apply get_session_healthy; [exact Hf|].
    destruct (Hk _ _ Hrow) as [_ Hkey]. unfold materialize.
    rewrite <- Happ, <- Huser, <- Hkey, Hrow, Hev. reflexivity.
  - intros k record Hrow Happ Huser.
    destruct (H2 record) as (s & Hs & Hrec).
    { apply list_elem_of_filter. split; [now split|]. apply elem_of_rows. now exists k. }
    exists s. split; [exact Hs|].
    destruct (load_events _); cbn [rbind] in Hrec; [|discriminate].
    now injection Hrec as <-.
Qed.

Lemma list_sessions_agrees_with_get_witness :
  faults one_turn_world = []
  /\ list_sessions "agents" "u1" one_turn_world = (Ok [s1_handle [hi_event]], one_turn_world)
  /\ get_session "agents" "u1" "s1" one_turn_world
     = (Ok (Some (s1_handle [hi_event])), one_turn_world).
Proof.
  assert (Hl : list_sessions "agents" "u1" one_turn_world
               = (Ok [s1_handle [hi_event]], one_turn_world)) by (vm_compute; reflexivity).
  assert (Hk : well_keyed (table one_turn_world)).
  { intros k r Hr. unfold one_turn_world in Hr. cbn [table] in Hr.
    apply lookup_singleton_Some in Hr as [<- <-]. split; reflexivity. }
  split; [reflexivity|]. split; [exact Hl|].
  exact (proj2 (proj2 (proj1 (proj2 (list_sessions_agrees_with_get "agents" "u1"
                                       one_turn_world one_turn_world _
                                       eq_refl Hk Hl))
                             (s1_handle [hi_event]) (list_elem_of_here _ _)))).
Defined.

(** ** What [append_event] writes *)

Lemma serialize_part_encodable py_str p :
  json_encodable (serialize_part py_str p) = part_storable p.
Proof.
  unfold serialize_part, part_storable.
  destruct (opt_truthy (Part.text p)).
  - destruct (Part.text p); reflexivity.
  - destruct (Part.function_call p) as [fc|].
    + unfold serialize_function_call. cbn.
      destruct (json_encodable (FunctionCall.args fc)); [|reflexivity].
      destruct (FunctionCall.id fc) as [s|]; [|reflexivity].
      cbn. destruct (str_truthy s); reflexivity.
    + destruct (Part.function_response p) as [fr|]; [|reflexivity].
      unfold serialize_function_response. cbn.
      rewrite normalize_response_encodable.
      destruct (FunctionResponse.id fr); reflexivity.
Qed.

Lemma serialize_event_encodable py_str e :
  json_encodable (_serialize_event py_str e) = event_storable e.
Proof.
  unfold _serialize_event, event_storable.
  destruct (Event.content e) as [c|]; [|reflexivity].
  cbn. rewrite !andb_true_r.
  apply forallb_map_Forall. apply Forall_forall. intros p _.
  apply serialize_part_encodable.
Qed.

(** X4.  On a healthy connection, with a row under the key whose column
    holds a list: [append_event] returns exactly when the [args] of every
    tool call the event stores json-encode; otherwise it raises the
    [TypeError] of [json.dumps] and the table, the connection and the handle
    are as before. *)
Theorem append_event_stores_iff_args_encode (py_str : pyval -> string)
        (session : Session.t) (event : Event.t) (w : world)
        (record : SessionRecord.t) (l : list pyval) :
  faults w = [] ->
  table w !! session_key_of session = Some record ->
  as_list (json_loads (SessionRecord.events_json record)) = Ok l ->
  (event_storable event = true ->
   exists w', append_event py_str session event w
              = (Ok tt, appended session event, w'))
  /\ (event_storable event = false ->
      append_event py_str session event w
      = (Raise (TypeError "Object is not JSON serializable"), session, w)).
Proof.
  intros Hf Ht Hl. split; intros He.
  - eexists. apply (append_event_healthy py_str session event w record l Hf Ht Hl).
    now rewrite serialize_event_encodable.
  - unfold append_event, session_key_of in *.
    rewrite db_roundtrip_healthy by exact Hf. rewrite Ht, Hl.
    unfold json_dumps. cbn [json_encodable]. rewrite forallb_app. cbn [forallb].
    rewrite serialize_event_encodable, He, andb_false_r. reflexivity.
Qed.

Lemma append_event_stores_iff_args_encode_witness :
  faults one_turn_world = []
  /\ append_event sample_str (s1_handle [hi_event]) opaque_call_event one_turn_world
     = (Raise (TypeError "Object is not JSON serializable"),
        s1_handle [hi_event], one_turn_world).
Proof.
  split; [reflexivity|].
  exact (proj2 (append_event_stores_iff_args_encode sample_str (s1_handle [hi_event])
                  opaque_call_event one_turn_world _ _ eq_refl eq_refl eq_refl)
           eq_refl).
Defined.

(** X5.  On a healthy connection an [append_event] that returns rewrites
    the row of its key only: the row keeps its [id], its three key columns
    and [created_at], gets the current time as [updated_at], every other row
    is untouched, and nothing is slept or disposed. *)
Theorem append_event_touches_one_row (py_str : pyval -> string)
        (session session' : Session.t) (event : Event.t) (w w' : world) :
  faults w = [] ->
  append_event py_str session event w = (Ok tt, session', w') ->
  (forall k, k <> session_key_of session -> table w' !! k = table w !! k)
  /\ (exists record record',
         table w !! session_key_of session = Some record
         /\ table w' !! session_key_of session = Some record'
         /\ SessionRecord.id record' = SessionRecord.id record
         /\ SessionRecord.app_name record' = SessionRecord.app_name record
         /\ SessionRecord.user_id record' = SessionRecord.user_id record
         /\ SessionRecord.session_id record' = SessionRecord.session_id record
         /\ SessionRecord.created_at record' = SessionRecord.created_at record
         /\ SessionRecord.updated_at record' = utcnow w)
  /\ faults w' = [] /\ effects w' = effects w.
Proof.
  intros Hf Happ.
  apply append_event_ok_inv in Happ as (record & l & Ht & Hl & -> & ->); [|exact Hf].
  split; [|split; [|split; [exact Hf|reflexivity]]].
  - intros k Hk. cbn [table with_table]. now rewrite lookup_insert_ne.
  - eexists record, _. split; [exact Ht|]. split.
    + cbn [table with_table]. apply lookup_insert_eq.
    + repeat split.
Qed.

Lemma append_event_touches_one_row_witness :
  faults one_turn_world = []
  /\ exists session' w',
      append_event sample_str (s1_handle [hi_event]) hello_event one_turn_world
      = (Ok tt, session', w')
      /\ effects w' = effects one_turn_world.
Proof.
  split; [reflexivity|].
  eexists _, _. split; [reflexivity|].
  exact (proj2 (proj2 (proj2 (append_event_touches_one_row sample_str
                                (s1_handle [hi_event]) _ hello_event one_turn_world _
                                eq_refl eq_refl)))).
Defined.

(** ** [get_session] under any connection *)

Lemma drained_nil w : drained (faults w) [] w = w.
Proof. destruct w. unfold drained. cbn. now rewrite app_nil_r. Qed.

(** One attempt: a fault of the script, or what the row decodes to. *)
Lemma get_session_inner_cases app user sid w :
  exists fs,
    (_get_session_inner app user sid w
     = (materialize (table w) app user sid, drained fs [] w)
     \/ exists e, _get_session_inner app user sid w = (Raise e, drained fs [] w))
    /\ (length fs <= length (faults w) <= length fs + 1)%nat.
Proof.
  destruct (faults w) as [|[e|] fs] eqn:Hf.
  - exists []. split; [|cbn; lia]. left.
    rewrite get_session_inner_healthy by exact Hf. now rewrite <- Hf, drained_nil.
  - exists fs. split; [|cbn; lia]. right. exists e.
    now apply get_session_inner_fault.
  - exists fs. split; [|cbn; lia]. left. now apply get_session_inner_pass.
Qed.

(** The loop of [_retry_on_connection_error] around [_get_session_inner]:
    with [attempt + n] the bound of three, it retries at most [2 - attempt]
    times, never touches the table, and returns only what the row decodes
    to. *)
Lemma retry_loop_get_session app user sid n :
  forall attempt w r w',
    (attempt + n = 3)%nat -> (0 < n)%nat ->
    retry_loop (_get_session_inner app user sid) None 3 1 n attempt w = (r, w') ->
    exists k fs,
      (k <= 2 - attempt)%nat
      /\ w' = drained fs (retries 1 k) w
      /\ (length fs <= length (faults w) <= length fs + S k)%nat
      /\ (forall s, r = Ok s -> materialize (table w) app user sid = Ok s).
Proof.
  induction n as [|n IH]; intros attempt w r w' Hn Hpos; cbn [retry_loop].
  - lia.
  - destruct (get_session_inner_cases app user sid w) as (fs & [Hi|[e Hi]] & Hlen);
      rewrite Hi.
    + destruct (materialize (table w) app user sid) as [s|e] eqn:Hm.
      * intros [= <- <-]. exists 0%nat, fs. repeat split; [lia|lia|lia|].
        now intros s' [= <-].
      * assert (Hraise : (Raise e, drained fs [] w) = (r, w') ->
                  exists k fs0, (k <= 2 - attempt)%nat /\ w' = drained fs0 (retries 1 k) w
                    /\ (length fs0 <= length (faults w) <= length fs0 + S k)%nat
                    /\ (forall s, r = Ok s -> Raise e = Ok s)).
        { intros [= <- <-]. exists 0%nat, fs. repeat split; [lia|lia|lia|discriminate]. }
        destruct e; try exact Hraise.
        destruct (is_connection_error msg && Nat.ltb attempt (3 - 1)) eqn:Hc;
          [|exact Hraise].
        apply andb_true_iff in Hc as [_ Hc]. apply Nat.ltb_lt in Hc.
        intros Hr. apply IH in Hr as (k & fs0 & Hk & -> & Hl0 & Hs); [|lia|lia].
        exists (S k), fs0. repeat split; [cbn in *; lia| |cbn in *; lia|cbn in *; lia|].
        -- unfold drained, with_effect. cbn. now rewrite app_nil_r, <- !app_assoc.
        -- intros s Hs'. specialize (Hs s Hs'). cbn [table with_effect drained] in Hs.
           congruence.
    + assert (Hraise : (Raise e, drained fs [] w) = (r, w') ->
                exists k fs0, (k <= 2 - attempt)%nat /\ w' = drained fs0 (retries 1 k) w
                  /\ (length fs0 <= length (faults w) <= length fs0 + S k)%nat
                  /\ (forall s, r = Ok s -> materialize (table w) app user sid = Ok s)).
      { intros [= <- <-]. exists 0%nat, fs. repeat split; [lia|lia|lia|discriminate]. }
      destruct e; try exact Hraise.
      destruct (is_connection_error msg && Nat.ltb attempt (3 - 1)) eqn:Hc;
        [|exact Hraise].
      apply andb_true_iff in Hc as [_ Hc]. apply Nat.ltb_lt in Hc.
      intros Hr. apply IH in Hr as (k & fs0 & Hk & -> & Hl0 & Hs); [|lia|lia].
      exists (S k), fs0. repeat split; [cbn in *; lia| |cbn in *; lia|cbn in *; lia|].
      * unfold drained, with_effect. cbn. now rewrite app_nil_r, <- !app_assoc.
      * intros s Hs'. exact (Hs s Hs').
Qed.

(** X6.  Whatever the connection does, [get_session] sleeps one second and
    disposes the pool at most twice, makes at most three round trips, and
    leaves the table and the clock as they were. *)
Theorem get_session_bounded_retries (app_name user_id session_id : string) (w : world) :
  exists k,
    (k <= 2)%nat
    /\ effects (snd (get_session app_name user_id session_id w))
       = effects w ++ retries 1 k
    /\ table (snd (get_session app_name user_id session_id w)) = table w
    /\ utcnow (snd (get_session app_name user_id session_id w)) = utcnow w
    /\ (length (faults w)
        <= length (faults (snd (get_session app_name user_id session_id w))) + S k)%nat.
Proof.
  destruct (get_session app_name user_id session_id w) as [r w'] eqn:Hg.
  unfold get_session, _retry_on_connection_error in Hg.
  apply retry_loop_get_session in Hg as (k & fs & Hk & -> & Hl & _); [|reflexivity|lia].
  exists k. cbn. repeat split; lia.
Qed.

(** X7.  Whatever the connection does, [get_session] returns [None] only
    when the table has no row under the key: running out of retries never
    looks like a missing session. *)
Theorem get_session_none_means_absent (app_name user_id session_id : string)
        (w w' : world) :
  get_session app_name user_id session_id w = (Ok None, w') ->
  table w !! _make_session_key app_name user_id session_id = None.
Proof.
  unfold get_session, _retry_on_connection_error. intros Hg.
  apply retry_loop_get_session in Hg as (k & fs & _ & _ & _ & Hs); [|reflexivity|lia].
  apply materialize_absent. now apply Hs.
Qed.

Lemma get_session_none_means_absent_witness :
  get_session "agents" "u2" "s9" flaky_world
  = (Ok None, mk_world (table one_turn_world) [] [Sleep 1; Dispose] 7 [])
  /\ table flaky_world !! _make_session_key "agents" "u2" "s9" = None.
Proof.
  assert (H : get_session "agents" "u2" "s9" flaky_world
              = (Ok None, mk_world (table one_turn_world) [] [Sleep 1; Dispose] 7 []))
    by reflexivity.
  split; [exact H|]. exact (get_session_none_means_absent _ _ _ _ _ H).
Defined.

(** ** The retry loop in general *)




(** ** Session keys *)

Lemma append_assoc (a b c : string) : (a +:+ b) +:+ c = a +:+ (b +:+ c).
Proof.
  induction a as [|x a IH]; [reflexivity|].
  change (String x ((a +:+ b) +:+ c) = String x (a +:+ (b +:+ c))). now f_equal.
Qed.

Lemma has_colon_cons c s :
  has_colon (String c s) = false -> c <> ":"%char /\ has_colon s = false.
Proof.
  unfold has_colon. cbn [contains String.prefix].
  destruct (ascii_dec ":" c) as [<-|Hne].
  - destruct s; discriminate.
  - cbn [orb]. intros H. split; [congruence|exact H].
Qed.

Lemma append_nil_l (s : string) : "" +:+ s = s.
Proof. reflexivity. Qed.

Lemma append_cons (x : ascii) (a s : string) : String x a +:+ s = String x (a +:+ s).
Proof. reflexivity. Qed.

Lemma colon_split_unique (a b r r' : string) :
  has_colon a = false -> has_colon b = false ->
  a +:+ ":" +:+ r = b +:+ ":" +:+ r' -> a = b /\ r = r'.
Proof.
  revert b. induction a as [|x a IH]; intros [|y b] Ha Hb H;
    rewrite ?append_cons, ?append_nil_l in H.
  - injection H as ->. now split.
  - injection H as <- _. apply has_colon_cons in Hb as [Hb _]. now contradiction Hb.
  - injection H as -> _. apply has_colon_cons in Ha as [Ha _]. now contradiction Ha.
  - injection H as -> H. apply has_colon_cons in Ha as [_ Ha].
    apply has_colon_cons in Hb as [_ Hb].
    destruct (IH b Ha Hb H) as [-> ->]. now split.
Qed.

(** X9.  [_make_session_key] tells two sessions apart when the app names and
    the user ids hold no colon: equal keys then mean equal app, user and
    session id. *)
Theorem make_session_key_injective (app1 user1 sid1 app2 user2 sid2 : string) :
  has_colon app1 = false -> has_colon user1 = false ->
  has_colon app2 = false -> has_colon user2 = false ->
  _make_session_key app1 user1 sid1 = _make_session_key app2 user2 sid2 ->
  app1 = app2 /\ user1 = user2 /\ sid1 = sid2.
Proof.
  intros Ha1 Hu1 Ha2 Hu2 H. unfold _make_session_key in H.
  apply colon_split_unique in H as [-> H]; [|assumption..].
  apply colon_split_unique in H as [-> ->]; [|assumption..].
  repeat split.
Qed.

Lemma make_session_key_injective_witness :
  has_colon "agents" = false /\ has_colon "u1" = false
  /\ ("agents" = "agents" /\ "u1" = "u1" /\ "s:1" = "s:1").
Proof.
  split; [reflexivity|]. split; [reflexivity|].
  exact (make_session_key_injective "agents" "u1" "s:1" "agents" "u1" "s:1"
           eq_refl eq_refl eq_refl eq_refl eq_refl).
Defined.

Lemma make_session_key_shift (app user x sid : string) :
  _make_session_key app (user +:+ ":" +:+ x) sid
  = _make_session_key app user (x +:+ ":" +:+ sid).
Proof.
  unfold _make_session_key. f_equal. f_equal.
  rewrite append_assoc. reflexivity.
Qed.

(** X10.  A colon in a user id or a session id makes keys collide: on a
    healthy connection, the session [get_session] returns for the user
    [user] and the session id [x:sid] is returned, with the same events,
    for the user [user:x] and the session id [sid]. *)
Theorem colliding_keys_share_a_session (app_name user_id x session_id : string)
        (w : world) (s : Session.t) :
  faults w = [] ->
  get_session app_name user_id (x +:+ ":" +:+ session_id) w = (Ok (Some s), w) ->
  get_session app_name (user_id +:+ ":" +:+ x) session_id w
  = (Ok (Some (Session.mk app_name (user_id +:+ ":" +:+ x) session_id
                 (Session.events s))), w).
Proof.
  intros Hf Hg. apply get_session_healthy_inv in Hg; [|exact Hf].
  apply get_session_healthy; [exact Hf|].
  unfold materialize in *. rewrite make_session_key_shift.
  destruct (table w !! _) as [record|]; [|discriminate].
  destruct (load_events _) as [events|]; [|discriminate].
  now injection Hg as <-.
Qed.

Lemma colliding_keys_share_a_session_witness :
  faults colon_world = []
  /\ get_session "agents" "u1" "x:s1" colon_world
     = (Ok (Some (Session.mk "agents" "u1" "x:s1" [hi_event])), colon_world)
  /\ get_session "agents" "u1:x" "s1" colon_world
     = (Ok (Some (Session.mk "agents" "u1:x" "s1" [hi_event])), colon_world).
Proof.
  assert (H : get_session "agents" "u1" "x:s1" colon_world
              = (Ok (Some (Session.mk "agents" "u1" "x:s1" [hi_event])), colon_world))
    by reflexivity.
  split; [reflexivity|]. split; [exact H|].
  exact (colliding_keys_share_a_session "agents" "u1" "x" "s1" colon_world _ eq_refl H).
Defined.

(** ** Which errors are retried *)

Lemma prefix_append (n b : string) : String.prefix n (n +:+ b) = true.
Proof.
  induction n as [|x n IH]; [rewrite append_nil_l; now destruct b|].
  rewrite append_cons. cbn [String.prefix].
  destruct (ascii_dec x x); [exact IH|congruence].
Qed.

Lemma prefix_split (n h : string) :
  String.prefix n h = true -> exists b, h = n +:+ b.
Proof.
  revert h. induction n as [|x n IH]; intros h; [now exists h|].
  destruct h as [|y h]; cbn [String.prefix]; [discriminate|].
  destruct (ascii_dec x y) as [<-|]; [|discriminate].
  intros H. destruct (IH h H) as [b ->]. now exists b.
Qed.

Lemma contains_append (n a b : string) : contains n (a +:+ n +:+ b) = true.
Proof.
  induction a as [|x a IH].
  - rewrite append_nil_l. pose proof (prefix_append n b) as H.
    destruct (n +:+ b); cbn [contains]; now rewrite H.
  - rewrite append_cons. cbn [contains]. rewrite IH. apply orb_true_r.
Qed.

Lemma contains_split (n h : string) :
  contains n h = true -> exists a b, h = a +:+ n +:+ b.
Proof.
  induction h as [|y h IH]; cbn [contains]; rewrite orb_true_iff.
  - intros [H|H]; [|discriminate]. apply prefix_split in H as [b ->]. now exists "", b.
  - intros [H|H].
    + apply prefix_split in H as [b ->]. now exists "", b.
    + destruct (IH H) as (a & b & ->). now exists (String y a), b.
Qed.

Lemma lower_append (a b : string) : lower (a +:+ b) = lower a +:+ lower b.
Proof.
  induction a as [|x a IH]; [reflexivity|].
  rewrite append_cons. cbn [lower]. now rewrite IH, append_cons.
Qed.

(** X11.  The test of line 79 is the test for the word [connection] in the
    lower-cased text of the error: whatever holds [SSL connection has been
    closed] holds that word too, so an [OperationalError] is retried exactly
    when its text has [connection] in any letter case. *)
Theorem is_connection_error_word (msg : string) :
  is_connection_error msg = contains "connection" (lower msg).
Proof.
  unfold is_connection_error.
  destruct (contains "SSL connection has been closed" msg) eqn:H; [|reflexivity].
  apply contains_split in H as (a & b & ->).
  rewrite !lower_append.
  change (lower "SSL connection has been closed")
    with ("ssl " +:+ "connection" +:+ " has been closed").
  rewrite !append_assoc, <- (append_assoc (lower a) "ssl ").
  now rewrite contains_append.
Qed.

(** ** More on the repair pass *)

Lemma tool_response_ids_app l1 l2 :
  tool_response_ids (l1 ++ l2) = tool_response_ids l1 ∪ tool_response_ids l2.
Proof.
  induction l1 as [|m l1 IH]; cbn [app tool_response_ids].
  - now rewrite (left_id_L ∅ (∪)).
  - now rewrite IH, (assoc_L (∪)).
Qed.

Lemma tool_response_ids_clean ids m :
  tool_response_ids (clean_message ids m) = tool_response_ids [m].
Proof.
  unfold clean_message.
  destruct (Message.tool_calls m) as [tcs|]; [|reflexivity].
  destruct (String.eqb_spec (Message.role m) "assistant") as [Hr|]; [|reflexivity].
  destruct (filter _ tcs); [destruct (opt_truthy (Message.content m))|];
    cbn [tool_response_ids Message.with_tool_calls Message.role Message.tool_call_id];
    rewrite Hr; cbn [String.eqb Ascii.eqb Bool.eqb andb];
    now rewrite ?(left_id_L ∅ (∪)).
Qed.

Lemma tool_response_ids_clean_messages ids raw :
  tool_response_ids (clean_messages ids raw) = tool_response_ids raw.
Proof.
  induction raw as [|m rest IH]; [reflexivity|].
  cbn [clean_messages]. rewrite tool_response_ids_app, tool_response_ids_clean, IH.
  cbn [tool_response_ids]. now rewrite (right_id_L ∅ (∪)).
Qed.

Lemma tool_response_ids_intro raw t i :
  t ∈ raw -> Message.role t = "tool" -> Message.tool_call_id t = Some i -> i <> "" ->
  i ∈ tool_response_ids raw.
Proof.
  intros Ht Hr Hi Hne. induction raw as [|m rest IH]; [inversion Ht|].
  cbn [tool_response_ids]. apply elem_of_cons in Ht as [<-|Ht]; [|set_solver].
  rewrite Hr, Hi. cbn. rewrite str_truthy_nonempty by exact Hne. set_solver.
Qed.

Lemma filter_all {A : Type} (P : A -> Prop) `{!forall x, Decision (P x)} (l : list A) :
  Forall P l -> filter P l = l.
Proof.
  induction 1 as [|x l Hx _ IH]; [reflexivity|].
  rewrite filter_cons, decide_True by exact Hx. now rewrite IH.
Qed.

Lemma filter_holds {A : Type} (P : A -> Prop) `{!forall x, Decision (P x)} (l : list A) :
  Forall P (filter P l).
Proof. apply Forall_forall. intros x Hx. now apply list_elem_of_filter in Hx as [Hx _]. Qed.

(** What the cleanup has left it leaves again. *)
Lemma clean_message_fixed ids m m' :
  m' ∈ clean_message ids m -> clean_message ids m' = [m'].
Proof.
  unfold clean_message at 1.
  destruct (Message.tool_calls m) as [tcs|] eqn:Ht.
  - destruct (String.eqb_spec (Message.role m) "assistant") as [Hr|Hr].
    + destruct (filter _ tcs) as [|tc f] eqn:Hf.
      * destruct (opt_truthy (Message.content m)); intros H; [|inversion H].
        apply list_elem_of_singleton in H as ->. reflexivity.
      * intros H. apply list_elem_of_singleton in H as ->.
        unfold clean_message.
        cbn [Message.with_tool_calls Message.role Message.tool_calls Message.content].
        rewrite Hr. cbn [String.eqb Ascii.eqb Bool.eqb andb].
        assert (Hall : Forall (fun tc => ToolCall.id tc ∈ ids) (tc :: f))
          by (rewrite <- Hf; apply filter_holds).
        now rewrite (filter_all _ (tc :: f) Hall).
    + intros H. apply list_elem_of_singleton in H as ->.
      unfold clean_message. rewrite Ht.
      now destruct (String.eqb_spec (Message.role m) "assistant").
  - intros H. apply list_elem_of_singleton in H as ->.
    unfold clean_message. now rewrite Ht.
Qed.

Lemma clean_messages_fixed ids l :
  (forall m, m ∈ l -> clean_message ids m = [m]) -> clean_messages ids l = l.
Proof.
  induction l as [|m l IH]; intros H; [reflexivity|].
  cbn [clean_messages]. rewrite H by left. rewrite IH; [reflexivity|].
  intros m' Hm'. apply H. now right.
Qed.

(** X12.  The repair pass is idempotent, and it leaves the set of answered
    ids as it was: what it returns it would return again. *)
Theorem repair_idempotent (raw : list Message.t) :
  tool_response_ids (repair raw) = tool_response_ids raw
  /\ repair (repair raw) = repair raw.
Proof.
  unfold repair. split; [apply tool_response_ids_clean_messages|].
  rewrite tool_response_ids_clean_messages.
  apply clean_messages_fixed. intros m Hm.
  apply elem_of_clean_messages in Hm as (m0 & _ & Hm).
  now apply clean_message_fixed in Hm.
Qed.

Lemma clean_message_origin ids m0 m :
  m ∈ clean_message ids m0 ->
  Message.role m = Message.role m0
  /\ Message.content m = Message.content m0
  /\ Message.tool_call_id m = Message.tool_call_id m0
  /\ forall tc, tc ∈ default [] (Message.tool_calls m) ->
                tc ∈ default [] (Message.tool_calls m0).
Proof.
  unfold clean_message.
  destruct (Message.tool_calls m0) as [tcs|] eqn:Ht.
  - destruct (String.eqb (Message.role m0) "assistant").
    + destruct (filter _ tcs) as [|tc f] eqn:Hf.
      * destruct (opt_truthy (Message.content m0)); intros H; [|inversion H].
        apply list_elem_of_singleton in H as ->. cbn. repeat split.
        intros tc Htc. inversion Htc.
      * intros H. apply list_elem_of_singleton in H as ->. cbn. repeat split.
        intros tc' Htc. rewrite <- Hf in Htc.
        now apply list_elem_of_filter in Htc as [_ Htc].
    + intros H. apply list_elem_of_singleton in H as ->. rewrite Ht. now repeat split.
  - intros H. apply list_elem_of_singleton in H as ->. rewrite Ht. now repeat split.
Qed.

Lemma clean_message_length ids m : (length (clean_message ids m) <= 1)%nat.
Proof.
  unfold clean_message.
  destruct (Message.tool_calls m) as [tcs|]; [|cbn; lia].
  destruct (String.eqb (Message.role m) "assistant"); [|cbn; lia].
  destruct (filter _ tcs); [destruct (opt_truthy _)|]; cbn; lia.
Qed.

Lemma clean_message_others ids m :
  List.filter (fun m => negb (is_assistant m)) (clean_message ids m)
  = List.filter (fun m => negb (is_assistant m)) [m].
Proof.
  unfold clean_message, is_assistant.
  destruct (Message.tool_calls m) as [tcs|]; [|reflexivity].
  destruct (String.eqb (Message.role m) "assistant") eqn:Hr; [|reflexivity].
  destruct (filter _ tcs); [destruct (opt_truthy _)|]; cbn; now rewrite Hr.
Qed.

(** X13.  The repair pass only removes: its list is no longer than the one
    it was given, the messages that are not assistant messages are the same
    and in the same order, and every message it returns is a message of the
    input with the same role, content and [tool_call_id] and no tool call
    that was not there. *)
Theorem repair_only_removes (raw : list Message.t) :
  (length (repair raw) <= length raw)%nat
  /\ List.filter (fun m => negb (is_assistant m)) (repair raw)
     = List.filter (fun m => negb (is_assistant m)) raw
  /\ forall m, m ∈ repair raw ->
       exists m0, m0 ∈ raw
                  /\ Message.role m = Message.role m0
                  /\ Message.content m = Message.content m0
                  /\ Message.tool_call_id m = Message.tool_call_id m0
                  /\ forall tc, tc ∈ default [] (Message.tool_calls m) ->
                                tc ∈ default [] (Message.tool_calls m0).
Proof.
  unfold repair. generalize (tool_response_ids raw) as ids. intros ids.
  split; [|split].
  - induction raw as [|m rest IH]; [reflexivity|].
    cbn [clean_messages]. rewrite length_app. cbn [length].
    pose proof (clean_message_length ids m). lia.
  - induction raw as [|m rest IH]; [reflexivity|].
    cbn [clean_messages]. rewrite List.filter_app, clean_message_others, IH.
    change (m :: rest) with ([m] ++ rest). now rewrite List.filter_app.
  - intros m Hm. apply elem_of_clean_messages in Hm as (m0 & Hm0 & Hm).
    exists m0. split; [exact Hm0|]. now apply clean_message_origin in Hm.
Qed.

(** ** The shape of the message list *)

Lemma or_unknown_nonempty (o : option string) : or_unknown o <> "".
Proof. destruct o as [[|c s]|]; cbn; discriminate. Qed.

Section MessageShape.
Variable py_str : pyval -> string.
Variable json_text : json -> string.

#[local] Abbreviation tool_msgs := (tool_messages_of py_str json_text).

Lemma tool_messages_of_shape p m :
  m ∈ tool_msgs p -> well_formed m /\ is_tool m = true.
Proof.
  unfold tool_messages_of.
  destruct (opt_truthy (Part.text p)); [intros H; inversion H|].
  destruct (Part.function_call p); [intros H; inversion H|].
  destruct (Part.function_response p) as [fr|]; [|intros H; inversion H].
  intros H. apply list_elem_of_singleton in H as ->.
  split; [|reflexivity]. left. cbn. repeat split; [eexists; reflexivity|].
  eexists. split; [reflexivity|apply or_unknown_nonempty].
Qed.

(** The loop over the parts collects the tool messages of the parts, in
    order. *)
Lemma parts_loop_responses parts :
  forall acc acc',
    parts_loop py_str json_text acc parts = Ok acc' ->
    tool_responses acc' = tool_responses acc ++ flat_map tool_msgs parts.
Proof.
  induction parts as [|p ps IH]; intros acc acc'; cbn [parts_loop flat_map].
  - intros [= <-]. now rewrite app_nil_r.
  - unfold part_step, tool_messages_of.
    destruct (opt_truthy (Part.text p)); cbn [rbind].
    + intros H. now apply IH in H.
    + destruct (Part.function_call p) as [fc|].
      * destruct (call_arguments json_text (FunctionCall.args fc)); cbn [rbind];
          [|discriminate].
        intros H. now apply IH in H.
      * destruct (Part.function_response p) as [fr|]; cbn [rbind].
        -- intros H. apply IH in H. cbn in H. now rewrite <- app_assoc in H.
        -- intros H. now apply IH in H.
Qed.

Lemma parts_loop_calls_ok parts :
  forall acc acc',
    parts_loop py_str json_text acc parts = Ok acc' ->
    Forall tool_call_ok (acc_tool_calls acc) ->
    Forall tool_call_ok (acc_tool_calls acc').
Proof.
  induction parts as [|p ps IH]; intros acc acc'; cbn [parts_loop].
  - now intros [= <-].
  - unfold part_step.
    destruct (opt_truthy (Part.text p)); cbn [rbind].
    + intros H Hacc. now apply IH in H.
    + destruct (Part.function_call p) as [fc|].
      * destruct (call_arguments json_text (FunctionCall.args fc)) as [arguments|];
          cbn [rbind]; [|discriminate].
        intros H Hacc. apply IH in H; [exact H|]. cbn.
        apply Forall_app. split; [exact Hacc|].
        constructor; [|constructor]. split; [reflexivity|apply or_unknown_nonempty].
      * destruct (Part.function_response p); cbn [rbind];
          intros H Hacc; now apply IH in H.
Qed.

Lemma content_messages_shape c ms :
  content_messages py_str json_text c = Ok ms -> Forall well_formed ms.
Proof.
  unfold content_messages.
  destruct (parts_loop py_str json_text (mk_acc "" [] []) (Content.parts c))
    as [acc|] eqn:Hloop; cbn [rbind]; [|discriminate].
  pose proof (parts_loop_responses _ _ _ Hloop) as Hresp. cbn in Hresp.
  pose proof (parts_loop_calls_ok _ _ _ Hloop (Forall_nil_2 _)) as Hcalls.
  assert (Hrole : (if String.eqb (Content.role c) "user" then "user" else "assistant")
                  = "user"
                  \/ (if String.eqb (Content.role c) "user" then "user" else "assistant")
                     = "assistant")
    by (destruct (String.eqb (Content.role c) "user"); auto).
  destruct (tool_responses acc) as [|t ts] eqn:Ht.
  - destruct (acc_tool_calls acc) as [|tc tcs] eqn:Hc.
    + destruct (str_truthy (content_text acc)) eqn:Htext; intros [= <-]; [|constructor].
      constructor; [|constructor]. right. right. cbn.
      repeat split; try assumption. intros [= E]. now rewrite E in Htext.
    + intros [= <-]. constructor; [|constructor]. right. right. cbn.
      repeat split; try assumption; [|discriminate].
      destruct (content_text acc); cbn; discriminate.
  - intros [= <-]. rewrite Hresp. apply Forall_forall. intros m Hm.
    apply list_elem_of_In, in_flat_map in Hm as (p & _ & Hm).
    apply list_elem_of_In in Hm. now apply tool_messages_of_shape in Hm.
Qed.

Lemma contents_loop_shape contents :
  forall ms, contents_loop py_str json_text contents = Ok ms -> Forall well_formed ms.
Proof.
  induction contents as [|c cs IH]; intros ms; cbn [contents_loop].
  - intros [= <-]. constructor.
  - destruct (content_messages py_str json_text c) as [ms1|] eqn:H1; cbn [rbind];
      [|discriminate].
    destruct (contents_loop py_str json_text cs) as [ms2|]; cbn [rbind]; [|discriminate].
    intros [= <-]. apply Forall_app. split; [now apply content_messages_shape in H1|].
    now apply IH.
Qed.

Lemma raw_messages_shape system_instruction contents raw :
  raw_messages py_str json_text system_instruction contents = Ok raw ->
  Forall well_formed raw.
Proof.
  unfold raw_messages.
  destruct (contents_loop py_str json_text contents) as [ms|] eqn:H; cbn [rbind];
    [|discriminate].
  intros [= <-]. apply Forall_app. split; [|now apply contents_loop_shape in H].
  destruct (opt_truthy system_instruction) eqn:Hs; constructor; [|constructor].
  right. left. cbn. now repeat split.
Qed.

End MessageShape.

Lemma clean_message_shape ids m m' :
  well_formed m -> m' ∈ clean_message ids m -> well_formed m'.
Proof.
  intros Hm. unfold clean_message.
  destruct (Message.tool_calls m) as [tcs|] eqn:Ht;
    [|intros H; now apply list_elem_of_singleton in H as ->].
  destruct (String.eqb_spec (Message.role m) "assistant") as [Hr|];
    [|intros H; now apply list_elem_of_singleton in H as ->].
  destruct Hm as [(Hrole & _)|[(Hrole & _)|(_ & Hid & Hc & Htcs)]];
    [rewrite Hr in Hrole; discriminate..|].
  rewrite Ht in Htcs. destruct Htcs as [_ Hok].
  destruct (filter _ tcs) as [|tc f] eqn:Hf.
  - destruct (opt_truthy (Message.content m)) eqn:Hcontent; intros H; [|inversion H].
    apply list_elem_of_singleton in H as ->. right. right. cbn.
    split; [now right|]. split; [exact Hid|]. split; [exact Hc|exact Hcontent].
  - intros H. apply list_elem_of_singleton in H as ->. right. right. cbn.
    split; [now right|]. split; [exact Hid|]. split; [exact Hc|].
    split; [discriminate|].
    rewrite <- Hf. apply Forall_forall. intros x Hx.
    apply list_elem_of_filter in Hx as [_ Hx].
    rewrite Forall_forall in Hok. now apply Hok.
Qed.

(** X15.  Every message handed to the backend has the shape it expects: a
    tool message has a content and a non-empty [tool_call_id]; a system
    message has a non-empty text; any other message is a user or assistant
    message whose content is not the empty string and that has a non-empty
    text or a non-empty list of tool calls, each of type [function] with a
    non-empty id. *)
Theorem messages_well_formed (py_str : pyval -> string) (json_text : json -> string)
        (system_instruction : option string) (contents : list Content.t)
        (msgs : list Message.t) :
  generate_content_messages py_str json_text system_instruction contents = Ok msgs ->
  Forall well_formed msgs.
Proof.
  unfold generate_content_messages.
  destruct (raw_messages py_str json_text system_instruction contents) as [raw|] eqn:Hraw;
    cbn [rbind]; [|discriminate].
  intros [= <-]. apply raw_messages_shape in Hraw.
  apply Forall_forall. intros m Hm.
  apply elem_of_clean_messages in Hm as (m0 & Hm0 & Hm).
  rewrite Forall_forall in Hraw. eapply clean_message_shape; [|exact Hm]. now apply Hraw.
Qed.

Lemma messages_well_formed_witness :
  Forall well_formed
    [Message.mk "user" (Some "list my drive files") None None;
     Message.mk "assistant" (Some "Checking.") None None;
     Message.mk "assistant" None
       (Some [ToolCall.mk "call_3" "function" "search" (PStr "{}")]) None;
     Message.mk "tool" (Some "none") None (Some "call_3")].
Proof.
  apply (messages_well_formed sample_str (fun _ => "{}") None lossy_history).
  vm_compute. reflexivity.
Defined.

Lemma repair_answered_somewhere raw : answered_somewhere (repair raw) = true.
Proof.
  unfold answered_somewhere.
  apply forallb_forall. intros m Hm. apply forallb_forall. intros tc Htc.
  apply calls_of_spec in Htc as (Hr & tcs & Htcs & Htc).
  apply list_elem_of_In in Hm.
  destruct (repair_calls_answered raw m tcs tc Hm Hr Htcs Htc) as (t & Ht & Hrole & Hid).
  apply existsb_exists. exists t. split; [now apply list_elem_of_In|].
  now apply answers_spec.
Qed.

(** X14.  The repair pass changes the list it is given exactly when some
    tool call in it has no tool message: a history whose calls are all
    answered goes to the backend as it was built. *)
Theorem repair_changes_only_unanswered (py_str : pyval -> string)
        (json_text : json -> string) (system_instruction : option string)
        (contents : list Content.t) (raw : list Message.t) :
  raw_messages py_str json_text system_instruction contents = Ok raw ->
  repair raw = raw <-> answered_somewhere raw = true.
Proof.
  intros Hraw. apply raw_messages_shape in Hraw. rewrite Forall_forall in Hraw. split.
  - intros <-. apply repair_answered_somewhere.
  - intros Hans. unfold repair. apply clean_messages_fixed. intros m Hm.
    unfold clean_message.
    destruct (Message.tool_calls m) as [tcs|] eqn:Ht; [|reflexivity].
    destruct (String.eqb_spec (Message.role m) "assistant") as [Hr|]; [|reflexivity].
    destruct (Hraw m Hm) as [(Hrole & _)|[(Hrole & _)|(_ & _ & _ & Htcs)]];
      [rewrite Hr in Hrole; discriminate..|].
    rewrite Ht in Htcs. destruct Htcs as [Hne Hok].
    rewrite filter_all.
    + destruct tcs; [contradiction|]. destruct m. cbn in *. now subst.
    + apply Forall_forall. intros tc Htc.
      unfold answered_somewhere in Hans. rewrite forallb_forall in Hans.
      specialize (Hans m (proj1 (list_elem_of_In _ _) Hm)).
      rewrite forallb_forall in Hans.
      assert (Hin : In tc (calls_of m)).
      { unfold calls_of. rewrite Hr, Ht. cbn. now apply list_elem_of_In. }
      apply Hans, existsb_exists in Hin as (t & Hin & Ha).
      apply answers_spec in Ha as [Hrole Hid].
      apply (tool_response_ids_intro raw t); [now apply list_elem_of_In|assumption..|].
      rewrite Forall_forall in Hok. now apply Hok.
Qed.

Lemma repair_changes_only_unanswered_witness :
  raw_messages sample_str (fun _ => "{}") None interleaved_history
  = Ok interleaved_messages
  /\ (repair interleaved_messages = interleaved_messages
      <-> answered_somewhere interleaved_messages = true).
Proof.
  assert (H : raw_messages sample_str (fun _ => "{}") None interleaved_history
              = Ok interleaved_messages) by (vm_compute; reflexivity).
  split; [exact H|].
  exact (repair_changes_only_unanswered _ _ _ _ _ H).
Defined.

(** ** Tool results in the message list *)

Lemma clean_message_tools ids m :
  List.filter is_tool (clean_message ids m) = List.filter is_tool [m].
Proof.
  unfold clean_message, is_tool.
  destruct (Message.tool_calls m) as [tcs|]; [|reflexivity].
  destruct (String.eqb (Message.role m) "assistant") eqn:Hr; [|reflexivity].
  apply String.eqb_eq in Hr.
  destruct (filter _ tcs); [destruct (opt_truthy _)|]; cbn; now rewrite Hr.
Qed.

Lemma clean_messages_tools ids raw :
  List.filter is_tool (clean_messages ids raw) = List.filter is_tool raw.
Proof.
  induction raw as [|m rest IH]; [reflexivity|].
  cbn [clean_messages]. rewrite List.filter_app, clean_message_tools, IH.
  change (m :: rest) with ([m] ++ rest). now rewrite List.filter_app.
Qed.

Lemma filter_tools_all (l : list Message.t) :
  Forall (fun m => is_tool m = true) l -> List.filter is_tool l = l.
Proof.
  induction 1 as [|m l Hm _ IH]; [reflexivity|]. cbn. now rewrite Hm, IH.
Qed.

Section ToolResults.
Variable py_str : pyval -> string.
Variable json_text : json -> string.

#[local] Abbreviation tool_msgs' := (tool_messages_of py_str json_text).

Lemma tool_messages_are_tools parts :
  Forall (fun m => is_tool m = true) (flat_map tool_msgs' parts).
Proof.
  apply Forall_forall. intros m Hm.
  apply list_elem_of_In, in_flat_map in Hm as (p & _ & Hm).
  apply list_elem_of_In in Hm. now apply tool_messages_of_shape in Hm.
Qed.

(** Lines 162-175: the tool messages of a content, if it has any, and one
    message that is no tool message, or none, otherwise. *)
Lemma content_messages_cases c ms :
  content_messages py_str json_text c = Ok ms ->
  match flat_map tool_msgs' (Content.parts c) with
  | [] => (length ms <= 1)%nat /\ Forall (fun m => is_tool m = false) ms
  | _ :: _ => ms = flat_map tool_msgs' (Content.parts c)
  end.
Proof.
  unfold content_messages.
  destruct (parts_loop py_str json_text (mk_acc "" [] []) (Content.parts c))
    as [acc|] eqn:Hloop; cbn [rbind]; [|discriminate].
  apply parts_loop_responses in Hloop. cbn in Hloop. rewrite <- Hloop.
  destruct (tool_responses acc) as [|t ts]; [|now intros [= <-]].
  assert (Hrole : is_tool (Message.mk
                    (if String.eqb (Content.role c) "user" then "user" else "assistant")
                    None None None) = false)
    by (unfold is_tool; cbn; now destruct (String.eqb (Content.role c) "user")).
  destruct (acc_tool_calls acc).
  - destruct (str_truthy (content_text acc)); intros [= <-]; cbn;
      split; try lia; repeat constructor. exact Hrole.
  - intros [= <-]. cbn. split; [lia|]. repeat constructor. exact Hrole.
Qed.

Lemma content_messages_tools c ms :
  content_messages py_str json_text c = Ok ms ->
  List.filter is_tool ms = flat_map tool_msgs' (Content.parts c).
Proof.
  intros H. apply content_messages_cases in H.
  pose proof (tool_messages_are_tools (Content.parts c)) as Htools.
  destruct (flat_map tool_msgs' (Content.parts c)) as [|t ts].
  - destruct H as [_ H]. induction H as [|m l Hm _ IH]; [reflexivity|].
    cbn. now rewrite Hm.
  - subst ms. now apply filter_tools_all.
Qed.

Lemma contents_loop_tools contents :
  forall ms,
    contents_loop py_str json_text contents = Ok ms ->
    List.filter is_tool ms
    = flat_map (fun c => flat_map tool_msgs' (Content.parts c)) contents.
Proof.
  induction contents as [|c cs IH]; intros ms; cbn [contents_loop flat_map].
  - now intros [= <-].
  - destruct (content_messages py_str json_text c) as [ms1|] eqn:H1; cbn [rbind];
      [|discriminate].
    destruct (contents_loop py_str json_text cs) as [ms2|]; cbn [rbind]; [|discriminate].
    intros [= <-]. rewrite List.filter_app. f_equal; [|now apply IH].
    now apply content_messages_tools.
Qed.

End ToolResults.

(** X16.  Every tool result of the history reaches the backend: the tool
    messages of the list are the tool messages of the parts read as tool
    results, one per part and in the order of the history; the repair pass
    drops none and adds none. *)
Theorem every_tool_result_is_sent (py_str : pyval -> string) (json_text : json -> string)
        (system_instruction : option string) (contents : list Content.t)
        (msgs : list Message.t) :
  generate_content_messages py_str json_text system_instruction contents = Ok msgs ->
  List.filter is_tool msgs
  = flat_map (fun c => flat_map (tool_messages_of py_str json_text) (Content.parts c))
             contents.
Proof.
  unfold generate_content_messages, raw_messages.
  destruct (contents_loop py_str json_text contents) as [ms|] eqn:Hloop; cbn [rbind];
    [|discriminate].
  intros [= <-]. unfold repair. rewrite clean_messages_tools, List.filter_app.
  apply contents_loop_tools in Hloop. rewrite Hloop.
  now destruct (opt_truthy system_instruction).
Qed.

Lemma every_tool_result_is_sent_witness :
  List.filter is_tool
    [Message.mk "user" (Some "list my drive files") None None;
     Message.mk "assistant" (Some "Checking.") None None;
     Message.mk "assistant" None
       (Some [ToolCall.mk "call_3" "function" "search" (PStr "{}")]) None;
     Message.mk "tool" (Some "none") None (Some "call_3")]
  = [Message.mk "tool" (Some "none") None (Some "call_3")].
Proof.
  exact (every_tool_result_is_sent sample_str (fun _ => "{}") None lossy_history _
           eq_refl).
Defined.

(** X17.  Tool results take precedence within a content: when one of its
    parts is read as a tool result, the content contributes its tool
    messages and nothing else; its texts and its tool calls are not sent. *)
Theorem tool_results_take_precedence (py_str : pyval -> string)
        (json_text : json -> string) (c : Content.t) (ms : list Message.t) (p : Part.t) :
  content_messages py_str json_text c = Ok ms ->
  p ∈ Content.parts c ->
  opt_truthy (Part.text p) = false -> Part.function_call p = None ->
  is_Some (Part.function_response p) ->
  ms = flat_map (tool_messages_of py_str json_text) (Content.parts c)
  /\ Forall (fun m => is_tool m = true /\ Message.tool_calls m = None) ms.
Proof.
  intros Hms Hp Htext Hcall [fr Hfr].
  apply content_messages_cases in Hms.
  assert (Hin : exists m, In m (flat_map (tool_messages_of py_str json_text)
                                         (Content.parts c))).
  { eexists. apply in_flat_map. exists p. split; [now apply list_elem_of_In|].
    unfold tool_messages_of. rewrite Htext, Hcall, Hfr. now left. }
  destruct (flat_map _ (Content.parts c)) as [|t ts] eqn:Hflat;
    [destruct Hin as [m []]|].
  split; [exact Hms|]. subst ms. rewrite <- Hflat.
  apply Forall_forall. intros m Hm.
  apply list_elem_of_In, in_flat_map in Hm as (q & _ & Hm).
  apply list_elem_of_In, tool_messages_of_shape in Hm as [Hw Ht].
  split; [exact Ht|].
  destruct Hw as [(_ & _ & Hn & _)|[(Hr & _)|([Hr|Hr] & _)]]; [exact Hn|..];
    unfold is_tool in Ht; rewrite Hr in Ht; discriminate.
Qed.

Lemma tool_results_take_precedence_witness :
  content_messages sample_str (fun _ => "{}") mixed_content
  = Ok [Message.mk "tool" (Some "none") None (Some "call_0")]
  /\ [Message.mk "tool" (Some "none") None (Some "call_0")]
     = flat_map (tool_messages_of sample_str (fun _ => "{}")) (Content.parts mixed_content)
  /\ Forall (fun m => is_tool m = true /\ Message.tool_calls m = None)
            [Message.mk "tool" (Some "none") None (Some "call_0")].
Proof.
  assert (H : content_messages sample_str (fun _ => "{}") mixed_content
              = Ok [Message.mk "tool" (Some "none") None (Some "call_0")])
    by reflexivity.
  split; [exact H|].
  exact (tool_results_take_precedence sample_str (fun _ => "{}") mixed_content _
           (Part.of_response (FunctionResponse.mk (Some "call_0") "search" (PStr "none")))
           H ltac:(right; right; left) eq_refl eq_refl (mk_is_Some _ _ eq_refl)).
Defined.

(** ** When the message list is not produced *)

Section ReconcilerRaises.
Variable py_str : pyval -> string.
Variable json_text : json -> string.

Lemma part_step_raises acc p :
  part_args_ok p = false ->
  part_step py_str json_text acc p = Raise (TypeError "Object is not JSON serializable").
Proof.
  unfold part_args_ok, part_step.
  destruct (opt_truthy (Part.text p)); cbn [orb]; [discriminate|].
  destruct (Part.function_call p) as [fc|]; [|discriminate].
  unfold call_arguments, json_dumps.
  destruct (FunctionCall.args fc); try discriminate.
  now intros ->.
Qed.

Lemma parts_loop_raises parts :
  forallb part_args_ok parts = false ->
  forall acc,
    parts_loop py_str json_text acc parts
    = Raise (TypeError "Object is not JSON serializable").
Proof.
  induction parts as [|p ps IH]; cbn [forallb parts_loop]; [discriminate|].
  intros H acc. destruct (part_args_ok p) eqn:Hp.
  - destruct (parts_loop_total py_str json_text [p]
                (Forall_cons_2 _ _ _ Hp (Forall_nil_2 _)) acc) as [acc' Hacc].
    cbn [parts_loop] in Hacc.
    destruct (part_step py_str json_text acc p); [|discriminate]. cbn [rbind].
    now apply IH.
  - now rewrite part_step_raises.
Qed.

Lemma contents_loop_raises contents :
  history_args_ok contents = false ->
  contents_loop py_str json_text contents
  = Raise (TypeError "Object is not JSON serializable").
Proof.
  unfold history_args_ok.
  induction contents as [|c cs IH]; cbn [forallb contents_loop]; [discriminate|].
  intros H. destruct (forallb part_args_ok (Content.parts c)) eqn:Hc.
  - destruct (generate_content_messages_total py_str json_text None [c]) as [ms Hms].
    { constructor; [|constructor]. now apply forallb_Forall_true. }
    unfold generate_content_messages, raw_messages in Hms. cbn in Hms.
    destruct (content_messages py_str json_text c); [|discriminate]. cbn [rbind].
    now rewrite IH.
  - unfold content_messages. now rewrite parts_loop_raises.
Qed.

End ReconcilerRaises.

(** X18.  The message list is produced exactly when the arguments of every
    tool call the loop reads encode: one mapping of arguments that
    [json.dumps] rejects, anywhere in the history, makes line 137 raise its
    [TypeError], which nothing in the routine catches. *)
Theorem message_list_raises_on_opaque_args (py_str : pyval -> string)
        (json_text : json -> string) (system_instruction : option string)
        (contents : list Content.t) :
  (history_args_ok contents = true ->
   exists msgs,
     generate_content_messages py_str json_text system_instruction contents = Ok msgs)
  /\ (history_args_ok contents = false ->
      generate_content_messages py_str json_text system_instruction contents
      = Raise (TypeError "Object is not JSON serializable")).
Proof.
  split; intros H.
  - apply generate_content_messages_total.
    apply forallb_Forall_true in H. eapply Forall_impl; [exact H|].
    intros c Hc. now apply forallb_Forall_true.
  - unfold generate_content_messages, raw_messages.
    now rewrite contents_loop_raises.
Qed.

Lemma message_list_raises_on_opaque_args_witness :
  history_args_ok opaque_history = false
  /\ generate_content_messages sample_str (fun _ => "{}") None opaque_history
     = Raise (TypeError "Object is not JSON serializable").
Proof.
  split; [reflexivity|].
  exact (proj2 (message_list_raises_on_opaque_args sample_str (fun _ => "{}") None
                  opaque_history) eq_refl).
Defined.

(** ** What the store gives back is stored as it is *)

Lemma reload_is_plain v : json_plain (reload v) = true.
Proof. apply json_loads_plain. Qed.

Section ReadBack.
Variable py_str : pyval -> string.

Lemma deserialize_part_reload_stable p ps :
  deserialize_part (reload (serialize_part py_str p)) = Ok ps ->
  Forall (fun q => part_kept q /\ json_plain (serialize_part py_str q) = true) ps.
Proof.
  destruct p as [t fc fr]. unfold serialize_part.
  cbn [Part.text Part.function_call Part.function_response].
  destruct (opt_truthy t) eqn:Ht.
  - destruct t as [s|]; [|discriminate]. rewrite reload_dict by str_keys.
    cbn [map fst snd opt_str_val]. unfold deserialize_part. dict_lookup.
    cbn [reload json_doc json_loads]. dict_lookup.
    intros [= <-]. constructor; [|constructor]. split.
    + cbn. intros ->. discriminate.
    + unfold serialize_part. cbn [Part.text]. rewrite Ht. vm_compute. reflexivity.
  - destruct fc as [[id name args]|].
    + unfold serialize_function_call.
      cbn [FunctionCall.id FunctionCall.name FunctionCall.args].
      rewrite reload_dict by str_keys. cbn [map fst snd].
      unfold deserialize_part. dict_lookup. unfold deserialize_function_call.
      pose proof (reload_is_plain args) as Hargs.
      destruct (opt_truthy id) eqn:Hid.
      * destruct id as [i|]; [|discriminate]. cbn [app opt_str_val].
        rewrite reload_dict by str_keys. cbn [map fst snd]. dict_lookup.
        change (reload (PStr i)) with (PStr i). change (reload (PStr name)) with (PStr name).
        dict_lookup.
        intros [= <-]. constructor; [|constructor]. split.
        -- cbn. intros [= ->]. discriminate.
        -- unfold serialize_part, serialize_function_call, Part.of_call.
           cbn [Part.text Part.function_call FunctionCall.id FunctionCall.name
                FunctionCall.args opt_truthy].
           cbn [opt_truthy] in Hid |- *. rewrite Hid.
           revert Hargs. generalize (reload args). intros v Hv.
           cbn [app json_plain forallb map fst snd is_str_key opt_str_val andb].
           rewrite Hv. vm_compute. reflexivity.
      * cbn [app]. rewrite reload_dict by str_keys. cbn [map fst snd]. dict_lookup.
        change (reload (PStr name)) with (PStr name). dict_lookup.
        intros [= <-]. constructor; [|constructor]. split.
        -- cbn. discriminate.
        -- unfold serialize_part, serialize_function_call, Part.of_call.
           cbn [Part.text Part.function_call FunctionCall.id FunctionCall.name
                FunctionCall.args opt_truthy].
           revert Hargs. generalize (reload args). intros v Hv.
           cbn [app json_plain forallb map fst snd is_str_key opt_str_val andb].
           rewrite Hv. vm_compute. reflexivity.
    + destruct fr as [[id name response]|].
      * unfold serialize_function_response.
        cbn [FunctionResponse.id FunctionResponse.name FunctionResponse.response].
        rewrite reload_dict by str_keys. cbn [map fst snd].
        unfold deserialize_part. dict_lookup. unfold deserialize_function_response.
        rewrite reload_dict by str_keys. cbn [map fst snd].
        pose proof (reload_is_plain (normalize_response py_str response)) as Hr.
        revert Hr. generalize (reload (normalize_response py_str response)).
        intros v Hv.
        assert (Hstable : forall id',
                   json_plain (serialize_part py_str
                                 (Part.of_response (FunctionResponse.mk id' name v)))
                   = true).
        { intros id'. unfold serialize_part, serialize_function_response, Part.of_response.
          cbn [Part.text Part.function_call Part.function_response FunctionResponse.id
               FunctionResponse.name FunctionResponse.response opt_truthy].
          rewrite normalize_response_id by now apply json_plain_encodable.
          cbn [json_plain forallb map fst snd is_str_key andb].
          rewrite Hv. destruct id'; vm_compute; reflexivity. }
        change (reload (PStr name)) with (PStr name).
        assert (Hkept : is_opt_mapping v = true ->
                        is_opt_mapping v = true /\ json_encodable v = true)
          by (intros Hm; split; [exact Hm|now apply json_plain_encodable]).
        destruct id; cbn [opt_str_val reload json_doc json_loads]; dict_lookup;
          destruct v; dict_lookup; try discriminate;
          intros [= <-]; (constructor; [|constructor]);
          (split; [cbn; now apply Hkept|apply Hstable]).
      * unfold deserialize_part. rewrite reload_dict by str_keys. cbn [map].
        dict_lookup. cbn [dict_get]. intros [= <-]. constructor.
Qed.

Lemma deserialize_parts_reload_stable ps :
  forall qs,
    deserialize_parts (map reload (map (serialize_part py_str) ps)) = Ok qs ->
    Forall (fun q => part_kept q /\ json_plain (serialize_part py_str q) = true) qs.
Proof.
  induction ps as [|p ps IH]; intros qs; cbn [map deserialize_parts].
  - intros [= <-]. constructor.
  - destruct (deserialize_part (reload (serialize_part py_str p))) as [q|] eqn:Hq;
      cbn [rbind]; [|discriminate].
    destruct (deserialize_parts (map reload (map (serialize_part py_str) ps)))
      as [qs'|]; cbn [rbind]; [|discriminate].
    intros [= <-]. apply Forall_app. split.
    + now apply (deserialize_part_reload_stable p).
    + now apply IH.
Qed.

Lemma stable_reloads e : stable py_str e ->
  _deserialize_event (reload (_serialize_event py_str e)) = Ok e.
Proof.
  intros [Hkept Hplain]. rewrite reload_plain by exact Hplain.
  destruct e as [author [[role parts]|]]; unfold event_kept, _serialize_event,
    _deserialize_event in *;
    cbn [Event.author Event.content Content.role Content.parts] in *; dict_lookup.
  - cbn [truthy default]. dict_lookup.
    rewrite deserialize_parts_serialize by exact Hkept. dict_lookup. reflexivity.
  - reflexivity.
Qed.

End ReadBack.

(** X19.  What the store gives back for an event it keeps is a fixed point
    of the codec: the event read back has the author of the one stored,
    every part of it is a non-empty text, a tool call or a tool result that
    the codec stores as it is, and storing it again gives it back
    unchanged. *)
Theorem read_back_event_is_stable (py_str : pyval -> string) (e e' : Event.t) :
  event_storable e = true ->
  _deserialize_event (reload (_serialize_event py_str e)) = Ok e' ->
  Event.author e' = Event.author e
  /\ stable py_str e'
  /\ _deserialize_event (reload (_serialize_event py_str e')) = Ok e'.
Proof.
  intros _ He.
  assert (H : Event.author e' = Event.author e /\ stable py_str e');
    [|destruct H as [Ha Hs]; repeat split; try assumption; try apply Hs;
      now apply stable_reloads].
  revert He.
  destruct e as [author [[role parts]|]]; unfold _serialize_event;
    cbn [Event.author Event.content Content.role Content.parts].
  - rewrite reload_dict by str_keys. cbn [map fst snd].
    rewrite reload_dict by str_keys. cbn [map fst snd]. rewrite reload_list_map.
    unfold _deserialize_event. dict_lookup. cbn [truthy]. dict_lookup.
    destruct (deserialize_parts (map reload (map (serialize_part py_str) parts)))
      as [qs|] eqn:Hqs; [|discriminate].
    pose proof (deserialize_parts_reload_stable py_str parts qs Hqs) as Hstable.
    dict_lookup. cbn [reload json_doc json_loads].
    intros [= <-]. split; [reflexivity|]. split.
    + unfold event_kept. cbn. eapply Forall_impl; [exact Hstable|]. now intros q [Hq _].
    + unfold _serialize_event. cbn [Event.author Event.content Content.role Content.parts].
      assert (Hparts : forallb json_plain (map (serialize_part py_str) qs) = true).
      { apply forallb_Forall_true. apply Forall_map.
        eapply Forall_impl; [exact Hstable|]. now intros q [_ Hq]. }
      revert Hparts. generalize (map (serialize_part py_str) qs). intros l Hl.
      cbn [json_plain forallb map fst snd is_str_key andb].
      rewrite Hl. vm_compute. reflexivity.
  - rewrite reload_dict by str_keys. cbn [map fst snd].
    unfold _deserialize_event. dict_lookup. cbn [reload json_doc json_loads].
    intros [= <-]. split; [reflexivity|]. split; [exact I|]. vm_compute. reflexivity.
Qed.

Lemma read_back_event_is_stable_witness :
  event_storable tuple_call_event = true
  /\ _deserialize_event (reload (_serialize_event sample_str tuple_call_event))
     = Ok tuple_call_event_stored
  /\ _deserialize_event (reload (_serialize_event sample_str tuple_call_event_stored))
     = Ok tuple_call_event_stored.
Proof.
  assert (H : _deserialize_event (reload (_serialize_event sample_str tuple_call_event))
              = Ok tuple_call_event_stored) by (vm_compute; reflexivity).
  split; [reflexivity|]. split; [exact H|].
  exact (proj2 (proj2 (read_back_event_is_stable sample_str tuple_call_event _
                         eq_refl H))).
Defined.

(** ** Session setup *)

Section Setup.
Variable py_str : pyval -> string.

Lemma replayed_events_stable messages :
  Forall (stable py_str) (replayed_events messages).
Proof.
  induction messages as [|msg rest IH]; [constructor|].
  cbn [replayed_events].
  destruct (ChatMessage.content msg) as [[|c s]|]; try exact IH.
  constructor; [apply text_event_stable|exact IH].
Qed.

Lemma ensure_session_existing mongo user_id session_id w s :
  get_session "agents" user_id session_id w = (Ok (Some s), w) ->
  ensure_session py_str mongo user_id session_id w = (Ok s, w).
Proof. intros H. unfold ensure_session. now rewrite H. Qed.

(** The setup of a session that has no row, on a healthy connection: the
    row is created and the stored messages are replayed into it. *)
Lemma ensure_session_absent mongo user_id session_id w :
  faults w = [] ->
  table w !! _make_session_key "agents" user_id session_id = None ->
  let events := match mongo !! session_id with
                | Some chat => replayed_events (ChatSession.messages chat)
                | None => []
                end in
  exists w',
    ensure_session py_str mongo user_id session_id w
    = (Ok (Session.mk "agents" user_id session_id events), w')
    /\ faults w' = []
    /\ get_session "agents" user_id session_id w'
       = (Ok (Some (Session.mk "agents" user_id session_id events)), w').
Proof.
  intros Hf Ht events. unfold ensure_session.
  rewrite (get_session_healthy "agents" user_id session_id w None Hf)
    by (unfold materialize; now rewrite Ht).
  unfold create_session. rewrite !db_roundtrip_healthy by exact Hf. rewrite Ht.
  rewrite db_commit_healthy by exact Hf.
  unfold get_session_messages. subst events.
  set (key := _make_session_key "agents" user_id session_id) in *.
  set (record := SessionRecord.mk key "agents" user_id session_id (JArr [])
                   (utcnow w) (utcnow w)).
  set (w1 := with_table (<[key := record]> (table w)) w).
  assert (Ht1 : table w1 !! session_key_of (Session.mk "agents" user_id session_id [])
                = Some record) by apply lookup_insert_eq.
  destruct (mongo !! session_id) as [chat|].
  - destruct (hydrate_spec py_str (ChatSession.messages chat)
                (Session.mk "agents" user_id session_id []) w1 record []
                Hf Ht1 eq_refl (Forall_nil_2 _))
      as (w' & record' & Hh & Hf' & Ht' & Hj').
    rewrite Hh. cbn [Session.app_name Session.user_id Session.id Session.events app].
    exists w'. split; [reflexivity|]. split; [exact Hf'|].
    apply get_session_healthy; [exact Hf'|].
    unfold materialize. unfold session_key_of in Ht'.
    cbn [Session.app_name Session.user_id Session.id] in Ht'.
    rewrite Ht', Hj'. cbn [app].
    rewrite stable_column_loads; [reflexivity|apply replayed_events_stable].
  - exists w1. split; [reflexivity|]. split; [exact Hf|].
    apply get_session_healthy; [exact Hf|].
    unfold materialize. fold key. unfold session_key_of in Ht1.
    cbn [Session.app_name Session.user_id Session.id] in Ht1. fold key in Ht1.
    now rewrite Ht1.
Qed.

End Setup.

(** X20.  Messages are replayed from the secondary store only when the
    session is created: on a healthy connection, once [ensure_session] has
    returned a session, running it again returns the same session and
    changes nothing, whatever the secondary store holds by then. *)
Theorem hydration_happens_once (py_str : pyval -> string)
        (mongo mongo' : gmap string ChatSession.t) (user_id session_id : string)
        (w w1 : world) (s : Session.t) :
  faults w = [] ->
  ensure_session py_str mongo user_id session_id w = (Ok s, w1) ->
  faults w1 = []
  /\ ensure_session py_str mongo' user_id session_id w1 = (Ok s, w1).
Proof.
  intros Hf H.
  destruct (table w !! _make_session_key "agents" user_id session_id) as [record|] eqn:Ht.
  - unfold ensure_session in H.
    destruct (get_session "agents" user_id session_id w) as [[[s0|]|e] w0] eqn:Hg.
    + pose proof (get_session_healthy_inv _ _ _ _ _ _ Hf Hg) as Hm.
      rewrite (get_session_healthy _ _ _ _ _ Hf Hm) in Hg.
      injection Hg as <-. injection H as <- <-.
      split; [exact Hf|]. apply ensure_session_existing.
      now apply get_session_healthy.
    + apply get_session_healthy_inv in Hg; [|exact Hf].
      apply materialize_absent in Hg. congruence.
    + discriminate.
  - destruct (ensure_session_absent py_str mongo user_id session_id w Hf Ht)
      as (w' & He & Hf' & Hg).
    rewrite He in H. injection H as <- <-.
    split; [exact Hf'|]. now apply ensure_session_existing.
Qed.

Lemma hydration_happens_once_witness :
  faults empty_world = []
  /\ exists w1,
      ensure_session sample_str hi_hello_store "u1" "s1" empty_world
      = (Ok (s1_handle [hi_event; hello_event]), w1)
      /\ ensure_session sample_str ∅ "u1" "s1" w1
         = (Ok (s1_handle [hi_event; hello_event]), w1).
Proof.
  split; [reflexivity|]. eexists.
  assert (H : ensure_session sample_str hi_hello_store "u1" "s1" empty_world
              = (Ok (s1_handle [hi_event; hello_event]),
                 snd (ensure_session sample_str hi_hello_store "u1" "s1" empty_world)))
    by (vm_compute; reflexivity).
  split; [exact H|].
  exact (proj2 (hydration_happens_once sample_str hi_hello_store ∅ "u1" "s1"
                  empty_world _ _ eq_refl H)).
Defined.

(** ** What a turn saves *)

Lemma append_nil_r (s : string) : s +:+ "" = s.
Proof. induction s as [|c s IH]; [reflexivity|]. now rewrite append_cons, IH. Qed.

Lemma chunk_text_content (s : string) : chunk_text (content_frame s) = s.
Proof. reflexivity. Qed.

Lemma full_response_of_app l1 l2 :
  full_response_of (l1 ++ l2) = full_response_of l1 +:+ full_response_of l2.
Proof.
  induction l1 as [|f l1 IH]; cbn [app full_response_of]; [now rewrite append_nil_l|].
  now rewrite IH, append_assoc.
Qed.

Lemma full_response_of_contents texts :
  full_response_of (map content_frame texts) = join_texts texts.
Proof.
  induction texts as [|s texts IH]; [reflexivity|].
  cbn [map full_response_of join_texts]. now rewrite chunk_text_content, IH.
Qed.

(** X21.  When the session setup raises, whatever the error, the turn ends
    there: the caller receives the fixed error text and the session id and
    no sentinel, the agent loop is not run, and the fixed error text is
    what is saved as the assistant's message. *)
Theorem setup_failure_ends_the_turn
        (py_str : pyval -> string)
        (run_async : string -> string -> Content.t -> world
                     -> (list Event.t * option exn) * world)
        (mongo : gmap string ChatSession.t) (message user_id session_id : string)
        (w w1 : world) (setup_error : exn) :
  ensure_session py_str mongo user_id session_id w = (Raise setup_error, w1) ->
  stream_with_persistence py_str run_async mongo message user_id session_id w
  = ([content_frame "Error: Failed to initialize chat session.";
      session_frame session_id],
     add_message_to_session session_id "assistant"
       "Error: Failed to initialize chat session." (utcnow w1) mongo,
     w1).
Proof.
  intros H. unfold stream_with_persistence, stream_generator. now rewrite H.
Qed.

Lemma setup_failure_ends_the_turn_witness :
  ensure_session sample_str empty_chat_store "u1" "s1" refusing_world
  = (Raise (OperationalError "password authentication failed"), empty_world)
  /\ stream_with_persistence sample_str answering_loop empty_chat_store "hello" "u1" "s1"
       refusing_world
     = ([content_frame "Error: Failed to initialize chat session."; session_frame "s1"],
        add_message_to_session "s1" "assistant"
          "Error: Failed to initialize chat session." 0 empty_chat_store,
        empty_world).
Proof.
  assert (H : ensure_session sample_str empty_chat_store "u1" "s1" refusing_world
              = (Raise (OperationalError "password authentication failed"), empty_world))
    by reflexivity.
  split; [exact H|].
  exact (setup_failure_ends_the_turn sample_str answering_loop empty_chat_store "hello"
           "u1" "s1" refusing_world empty_world _ H).
Defined.

(** X22.  When the session setup succeeds, the assistant's message saved
    after the turn is the texts of the content frames sent, joined in
    order, the text of the error frame included; nothing is saved when no
    text was sent; and the turn leaves the world as the agent loop left
    it. *)
Theorem turn_saves_what_it_sent
        (py_str : pyval -> string)
        (run_async : string -> string -> Content.t -> world
                     -> (list Event.t * option exn) * world)
        (mongo : gmap string ChatSession.t) (message user_id session_id : string)
        (w w1 : world) (session : Session.t) :
  ensure_session py_str mongo user_id session_id w = (Ok session, w1) ->
  let run := run_async user_id session_id (Content.mk "user" [Part.of_text message]) w1 in
  let text := join_texts (turn_texts (fst run)) in
  stream_with_persistence py_str run_async mongo message user_id session_id w
  = (map content_frame (turn_texts (fst run)) ++ [Done; session_frame session_id],
     (if str_truthy text
      then add_message_to_session session_id "assistant" text (utcnow (snd run)) mongo
      else mongo),
     snd run).
Proof.
  intros H run text. subst text run.
  unfold stream_with_persistence, stream_generator. rewrite H.
  destruct (run_async user_id session_id _ w1) as [[events failure] w2].
  cbn [fst snd]. unfold turn_texts. cbn [fst snd].
  assert (Hframes :
            flat_map event_frames events
            ++ match failure with
               | Some run_error => [content_frame ("Error: " +:+ exn_str run_error)]
               | None => []
               end ++ [Done]
            = map content_frame
                (flat_map event_texts events
                 ++ match failure with
                    | Some run_error => ["Error: " +:+ exn_str run_error]
                    | None => []
                    end) ++ [Done]).
  { rewrite flat_map_event_frames, map_app, <- app_assoc. now destruct failure. }
  rewrite Hframes, full_response_of_app, full_response_of_contents.
  cbn [full_response_of chunk_text]. rewrite append_nil_r.
  now rewrite <- app_assoc.
Qed.

Lemma turn_saves_what_it_sent_witness :
  ensure_session sample_str empty_chat_store "u1" "s1" one_turn_world
  = (Ok (s1_handle [hi_event]), one_turn_world)
  /\ stream_with_persistence sample_str failing_loop empty_chat_store "hello" "u1" "s1"
       one_turn_world
     = ([content_frame "Error: backend unavailable"; Done; session_frame "s1"],
        add_message_to_session "s1" "assistant" "Error: backend unavailable" 7
          empty_chat_store,
        one_turn_world).
Proof.
  assert (H : ensure_session sample_str empty_chat_store "u1" "s1" one_turn_world
              = (Ok (s1_handle [hi_event]), one_turn_world)) by reflexivity.
  split; [exact H|].
  exact (turn_saves_what_it_sent sample_str failing_loop empty_chat_store "hello" "u1"
           "s1" one_turn_world one_turn_world _ H).
Defined.

(** ** The chat endpoint *)

Lemma add_message_absent session_id role content now (mongo : gmap string ChatSession.t) :
  mongo !! session_id = None ->
  add_message_to_session session_id role content now mongo = mongo.
Proof. intros H. unfold add_message_to_session. now rewrite H. Qed.

(** X23.  On the first turn of a new chat the user's message is already in
    the durable session when the agent loop starts: the endpoint saves it
    in the new chat record, and the session setup, finding no row, replays
    it as the one event of the session before the loop is given the same
    message as [new_message]. *)
Theorem first_turn_replays_the_new_message
        (py_str : pyval -> string)
        (run_async : string -> string -> Content.t -> world
                     -> (list Event.t * option exn) * world)
        (create_orchestrator : string -> result unit) (users : gset string)
        (fresh user_id message : string) (request_session_id : option string)
        (mongo : gmap string ChatSession.t) (w : world) :
  faults w = [] -> user_id ∈ users -> fresh <> "" -> message <> "" ->
  opt_truthy request_session_id = false \/ request_session_id = Some "null" ->
  table w !! _make_session_key "agents" user_id fresh = None ->
  create_orchestrator user_id = Ok tt ->
  exists w1,
    get_session "agents" user_id fresh w1
    = (Ok (Some (Session.mk "agents" user_id fresh [text_event "user" message])), w1)
    /\ snd (chat py_str run_async create_orchestrator users fresh user_id message
              request_session_id mongo w)
       = snd (run_async user_id fresh (Content.mk "user" [Part.of_text message]) w1).
Proof.
  intros Hf Hu Hfresh Hmsg Hreq Ht Horch. unfold chat.
  assert (Hnew : negb (opt_truthy request_session_id)
                 || String.eqb (default "" request_session_id) "null" = true).
  { destruct Hreq as [H| ->]; [now rewrite H|reflexivity]. }
  rewrite Hnew. unfold create_chat_session. rewrite decide_True by exact Hu.
  cbn [opt_truthy default]. unfold id. rewrite str_truthy_nonempty by exact Hfresh.
  rewrite Horch.
  set (title := str_prefix 30 message +:+ "...").
  unfold add_message_to_session at 1. rewrite lookup_insert_eq.
  cbn [ChatSession.title ChatSession.messages app].
  set (mongo2 := <[fresh := ChatSession.mk title
                             [ChatMessage.mk "user" (Some message) (utcnow w)]]>
                  (<[fresh := ChatSession.mk title []]> mongo)).
  destruct (ensure_session_absent py_str mongo2 user_id fresh w Hf Ht)
    as (w1 & He & _ & Hg).
  assert (Hm : mongo2 !! fresh
               = Some (ChatSession.mk title
                         [ChatMessage.mk "user" (Some message) (utcnow w)]))
    by apply lookup_insert_eq.
  rewrite Hm in He, Hg. cbn [ChatSession.messages replayed_events ChatMessage.content
                             ChatMessage.role] in He, Hg.
  destruct message as [|c s]; [contradiction|].
  exists w1. split; [exact Hg|].
  unfold stream_with_persistence, stream_generator. rewrite He.
  now destruct (run_async user_id fresh _ w1) as [[events failure] w2].
Qed.

Lemma first_turn_replays_the_new_message_witness :
  exists w1,
    get_session "agents" "u1" "s9" w1
    = (Ok (Some (Session.mk "agents" "u1" "s9" [hi_event])), w1)
    /\ snd (chat sample_str answering_loop (fun _ => Ok tt) {[ "u1" ]} "s9" "u1" "hi"
              None ∅ empty_world)
       = w1.
Proof.
  destruct (first_turn_replays_the_new_message sample_str answering_loop
              (fun _ => Ok tt) {[ "u1" ]} "s9" "u1" "hi" None ∅ empty_world
              eq_refl ltac:(now apply elem_of_singleton) ltac:(discriminate)
              ltac:(discriminate) (or_introl eq_refl) eq_refl eq_refl)
    as (w1 & Hg & Hw).
  exists w1. split; [exact Hg|exact Hw].
Defined.

(** X24.  A turn addressed to a session id the secondary store does not
    know creates no chat record and saves neither the user's message nor
    the assistant's: the secondary store is left as it was. *)
Theorem turn_on_unknown_session_saves_nothing
        (py_str : pyval -> string)
        (run_async : string -> string -> Content.t -> world
                     -> (list Event.t * option exn) * world)
        (create_orchestrator : string -> result unit) (users : gset string)
        (fresh user_id message session_id : string)
        (mongo : gmap string ChatSession.t) (w : world) :
  session_id <> "" -> session_id <> "null" -> mongo !! session_id = None ->
  snd (fst (chat py_str run_async create_orchestrator users fresh user_id message
              (Some session_id) mongo w))
  = mongo.
Proof.
  intros Hne Hnull Hm. unfold chat. cbn [opt_truthy].
  rewrite str_truthy_nonempty by exact Hne. cbn [negb orb].
  change (default "" (Some session_id)) with session_id.
  destruct (String.eqb_spec session_id "null") as [|_]; [contradiction|].
  cbn [opt_truthy]. rewrite str_truthy_nonempty by exact Hne.
  change (default "" (Some session_id)) with session_id.
  rewrite !add_message_absent by exact Hm.
  destruct (create_orchestrator user_id); [|reflexivity].
  unfold stream_with_persistence.
  destruct (stream_generator py_str run_async mongo message user_id session_id w)
    as [chunks w1].
  rewrite add_message_absent by exact Hm. cbn.
  now destruct (str_truthy (full_response_of chunks)).
Qed.

Lemma turn_on_unknown_session_saves_nothing_witness :
  snd (fst (chat sample_str answering_loop (fun _ => Ok tt) {[ "u1" ]} "s9" "u1" "hi"
              (Some "s7") empty_chat_store empty_world))
  = empty_chat_store.
Proof.
  exact (turn_on_unknown_session_saves_nothing sample_str answering_loop
           (fun _ => Ok tt) {[ "u1" ]} "s9" "u1" "hi" "s7" empty_chat_store empty_world
           ltac:(discriminate) ltac:(discriminate) eq_refl).
Defined.

(** ** Tool declarations *)

Lemma type_mapping_openai schema_type : is_openai_type (type_mapping schema_type) = true.
Proof. unfold type_mapping. repeat destruct (String.eqb _ _); reflexivity. Qed.

Lemma forallb_app_true {A : Type} (f : A -> bool) (l1 l2 : list A) :
  forallb f l1 = true -> forallb f l2 = true -> forallb f (l1 ++ l2) = true.
Proof. intros H1 H2. now rewrite forallb_app, H1, H2. Qed.

Lemma strings_encodable (l : list string) : forallb json_encodable (map PStr l) = true.
Proof. induction l as [|s l IH]; [reflexivity|exact IH]. Qed.

Ltac other_key := rewrite (bool_decide_eq_false_2 (_ = _)) by discriminate.
Ltac json_key := rewrite (bool_decide_eq_true_2 (is_Some _)) by (eexists; reflexivity).

Lemma convert_schema_ok (s : Schema.t) :
  schema_doc (PDict (convert_schema s)) = true
  /\ json_encodable (PDict (convert_schema s)) = true.
Proof.
  induction s as [ty d props req items enum IHp IHi] using schema_rect'.
  cbn [convert_schema]. split.
  - cbn [schema_doc app]. rewrite dict_get_here, type_mapping_openai.
    cbn [andb forallb fst snd]. do 2 other_key. cbn [andb].
    repeat apply forallb_app_true.
    + destruct (opt_truthy d); [|reflexivity]. cbn [forallb fst snd]. now do 2 other_key.
    + destruct props as [|p ps]; [reflexivity|]. cbn [forallb fst snd].
      rewrite bool_decide_eq_true_2 by reflexivity. rewrite andb_true_r.
      apply forallb_Forall_true, Forall_map.
      eapply Forall_impl; [exact IHp|]. now intros kv [Hkv _].
    + destruct req; [reflexivity|]. cbn [forallb fst snd]. now do 2 other_key.
    + destruct items as [it|]; [|reflexivity]. cbn [forallb fst snd]. other_key.
      rewrite bool_decide_eq_true_2 by reflexivity. rewrite andb_true_r. apply IHi.
    + destruct enum; [reflexivity|]. cbn [forallb fst snd]. now do 2 other_key.
  - cbn [json_encodable app forallb fst snd key_text]. json_key. cbn [andb].
    repeat apply forallb_app_true.
    + destruct (opt_truthy d); [|reflexivity]. cbn [forallb fst snd key_text]. json_key.
      now destruct d.
    + destruct props as [|p ps]; [reflexivity|]. cbn [forallb fst snd key_text]. json_key.
      rewrite andb_true_r. cbn [andb json_encodable].
      apply forallb_Forall_true, Forall_map.
      eapply Forall_impl; [exact IHp|]. intros kv [_ Hkv]. cbn [fst snd key_text].
      json_key. exact Hkv.
    + destruct req as [|r req]; [reflexivity|]. cbn [forallb fst snd key_text]. json_key.
      rewrite andb_true_r. cbn [andb json_encodable]. apply (strings_encodable (r :: req)).
    + destruct items as [it|]; [|reflexivity]. cbn [forallb fst snd key_text]. json_key.
      rewrite andb_true_r. apply IHi.
    + destruct enum as [|x enum]; [reflexivity|]. cbn [forallb fst snd key_text]. json_key.
      rewrite andb_true_r. cbn [andb json_encodable]. apply (strings_encodable (x :: enum)).
Qed.

(** X25.  For a schema [_convert_schema_to_dict] gives a JSON schema that
    is never empty, that [json.dumps] accepts and whose every level, down
    through [properties] and [items], names one of the six types of the
    backend, an unknown or unset type becoming [string]. *)
Theorem converted_schema_is_json_schema (s : Schema.t) :
  schema_doc (_convert_schema_to_dict (Some s)) = true
  /\ json_encodable (_convert_schema_to_dict (Some s)) = true
  /\ truthy (_convert_schema_to_dict (Some s)) = true.
Proof.
  cbn [_convert_schema_to_dict].
  destruct (convert_schema_ok s) as [Hdoc Henc]. repeat split; try assumption.
  now destruct s.
Qed.

Lemma converted_schema_is_json_schema_witness :
  _convert_schema_to_dict (FunctionDeclaration.parameters search_declaration)
  = PDict [(KStr "type", PStr "object");
           (KStr "properties",
             PDict [(KStr "query", PDict [(KStr "type", PStr "string");
                                          (KStr "description", PStr "what to look for")]);
                    (KStr "labels", PDict [(KStr "type", PStr "array");
                                           (KStr "items", PDict [(KStr "type", PStr "string")])])]);
           (KStr "required", PList [PStr "query"])]
  /\ schema_doc (_convert_schema_to_dict (FunctionDeclaration.parameters search_declaration))
     = true.
Proof.
  split; [reflexivity|].
  exact (proj1 (converted_schema_is_json_schema
                  (Schema.mk (Some "OBJECT") None
                     [("query", Schema.mk (Some "STRING") (Some "what to look for")
                                  [] [] None []);
                      ("labels", Schema.mk (Some "ARRAY") None [] []
                                   (Some (Schema.mk (Some "TYPE_UNSPECIFIED") None
                                            [] [] None [])) [])]
                     ["query"] None []))).
Defined.

Lemma openai_tool_ok (func : FunctionDeclaration.t) :
  json_encodable (openai_tool func) = true
  /\ exists parameters,
      openai_tool func
      = PDict [(KStr "type", PStr "function");
               (KStr "function",
                 PDict [(KStr "name", PStr (FunctionDeclaration.name func));
                        (KStr "description",
                          opt_str_val (FunctionDeclaration.description func));
                        (KStr "parameters", parameters)])]
      /\ schema_doc parameters = true.
Proof.
  unfold openai_tool. destruct (FunctionDeclaration.parameters func) as [s|].
  - cbn [_convert_schema_to_dict].
    destruct (convert_schema_ok s) as [Hdoc Henc].
    assert (Ht : truthy (PDict (convert_schema s)) = true) by now destruct s.
    rewrite Ht. split; [|eexists; split; [reflexivity|exact Hdoc]].
    cbn [json_encodable forallb fst snd key_text] in *. repeat json_key.
    rewrite Henc. now destruct (FunctionDeclaration.description func).
  - cbn [_convert_schema_to_dict truthy]. split; [|eexists; split; reflexivity].
    now destruct (FunctionDeclaration.description func).
Qed.

Lemma openai_tool_entry (func : FunctionDeclaration.t) :
  openai_tool func = tool_entry func.
Proof.
  unfold openai_tool, tool_entry.
  destruct (FunctionDeclaration.parameters func) as [s|]; [|reflexivity].
  cbn [_convert_schema_to_dict].
  assert (Ht : truthy (PDict (convert_schema s)) = true) by now destruct s.
  now rewrite Ht.
Qed.

Lemma openai_tools_declared (tools : list tool) :
  forall entries,
    openai_tools tools = Ok entries ->
    entries = map tool_entry (flat_map declared tools).
Proof.
  induction tools as [|[|[fds|]] rest IH]; intros entries; cbn [openai_tools flat_map].
  - now intros [= <-].
  - intros H. now apply IH.
  - destruct (openai_tools rest) as [entries'|]; cbn [rbind]; [|discriminate].
    intros [= <-]. cbn [declared]. rewrite map_app, <- (IH _ eq_refl). f_equal.
    apply map_ext. intros func. apply openai_tool_entry.
  - discriminate.
Qed.

(** X26.  The tool list of the request: it is built when no tool has its
    [function_declarations] unset; it is then the entries of the
    declarations of the tools, one per declaration and in their order, each
    of type [function], with the name and the description of the
    declaration and with [parameters] that are never [None]: the converted
    schema, or the empty object schema when the declaration has none; every
    entry is accepted by [json.dumps] and its [parameters] are a JSON
    schema. *)
Theorem openai_tools_entries (tools : list tool) :
  (Tool None ∉ tools -> exists entries, openai_tools tools = Ok entries)
  /\ forall entries,
       openai_tools tools = Ok entries ->
       entries
       = map (fun func =>
                PDict [(KStr "type", PStr "function");
                       (KStr "function",
                         PDict [(KStr "name", PStr (FunctionDeclaration.name func));
                                (KStr "description",
                                  opt_str_val (FunctionDeclaration.description func));
                                (KStr "parameters",
                                  match FunctionDeclaration.parameters func with
                                  | Some s => PDict (convert_schema s)
                                  | None => PDict [(KStr "type", PStr "object");
                                                   (KStr "properties", PDict [])]
                                  end)])])
             (flat_map declared tools)
       /\ Forall (fun entry =>
                    json_encodable entry = true
                    /\ exists name description parameters,
                        entry = PDict [(KStr "type", PStr "function");
                                       (KStr "function",
                                         PDict [(KStr "name", PStr name);
                                                (KStr "description", description);
                                                (KStr "parameters", parameters)])]
                        /\ schema_doc parameters = true) entries.
Proof.
  split.
  - induction tools as [|[|[fds|]] rest IH]; intros Hn; cbn [openai_tools].
    + now exists [].
    + apply IH. intros H. apply Hn. now right.
    + destruct IH as [entries ->]; [intros H; apply Hn; now right|].
      cbn [rbind]. eexists. reflexivity.
    + exfalso. apply Hn. left.
  - intros entries H. apply openai_tools_declared in H as ->.
    split; [reflexivity|].
    apply Forall_map. apply Forall_forall. intros func _.
    rewrite <- openai_tool_entry.
    destruct (openai_tool_ok func) as (Henc & parameters & He & Hdoc).
    split; [exact Henc|].
    eexists _, _, _. split; [exact He|exact Hdoc].
Qed.

Lemma openai_tools_entries_witness :
  openai_tools [Tool (Some [ping_declaration]); OtherTool;
                Tool (Some [search_declaration])]
  = Ok [openai_tool ping_declaration; openai_tool search_declaration]
  /\ [openai_tool ping_declaration; openai_tool search_declaration]
     = [tool_entry ping_declaration; tool_entry search_declaration]
  /\ tool_entry ping_declaration
     = PDict [(KStr "type", PStr "function");
              (KStr "function",
                PDict [(KStr "name", PStr "ping");
                       (KStr "description", PNone);
                       (KStr "parameters",
                         PDict [(KStr "type", PStr "object");
                                (KStr "properties", PDict [])])])].
Proof.
  split; [reflexivity|]. split; [|reflexivity].
  exact (proj1 (proj2 (openai_tools_entries
                         [Tool (Some [ping_declaration]); OtherTool;
                          Tool (Some [search_declaration])])
                  [openai_tool ping_declaration; openai_tool search_declaration]
                  eq_refl)).
Defined.

(** ** The parts of a response of the backend *)

Section ResponseParts.
Variable py_str : pyval -> string.

Lemma text_part_stable s :
  str_truthy s = true ->
  part_kept (Part.of_text s) /\ json_plain (serialize_part py_str (Part.of_text s)) = true.
Proof.
  intros Hs. split.
  - cbn. intros ->. discriminate.
  - unfold serialize_part, Part.of_text. cbn [Part.text opt_truthy]. rewrite Hs.
    vm_compute. reflexivity.
Qed.

Lemma call_part_stable id name v :
  id <> "" -> json_plain v = true ->
  part_kept (Part.of_call (FunctionCall.mk (Some id) name v))
  /\ json_plain (serialize_part py_str (Part.of_call (FunctionCall.mk (Some id) name v)))
     = true.
Proof.
  intros Hid Hv. split.
  - cbn. congruence.
  - unfold serialize_part, serialize_function_call, Part.of_call.
    cbn [Part.text Part.function_call FunctionCall.id FunctionCall.name
         FunctionCall.args opt_truthy].
    rewrite str_truthy_nonempty by exact Hid.
    cbn [app json_plain forallb map fst snd is_str_key opt_str_val andb].
    rewrite Hv. vm_compute. reflexivity.
Qed.

Lemma stable_of_parts author role parts :
  Forall (fun q => part_kept q /\ json_plain (serialize_part py_str q) = true) parts ->
  stable py_str (Event.mk author (Some (Content.mk role parts))).
Proof.
  intros Hstable. split.
  - unfold event_kept. cbn. eapply Forall_impl; [exact Hstable|]. now intros q [Hq _].
  - unfold _serialize_event. cbn [Event.author Event.content Content.role Content.parts].
    assert (Hparts : forallb json_plain (map (serialize_part py_str) parts) = true).
    { apply forallb_Forall_true. apply Forall_map.
      eapply Forall_impl; [exact Hstable|]. now intros q [_ Hq]. }
    revert Hparts. generalize (map (serialize_part py_str) parts). intros l Hl.
    cbn [json_plain forallb map fst snd is_str_key andb].
    rewrite Hl. vm_compute. reflexivity.
Qed.

End ResponseParts.

(** X27.  What the wrapper builds from a response of the backend is stored
    as it is: when the arguments of every tool call parse and no tool call
    has an empty id, an event whose content holds the parts of the response
    is read back from the store unchanged; the text part is there only when
    the response has a non-empty text, and the arguments are what
    [json.loads] gave. *)
Theorem response_parts_stored_as_they_are
        (py_str : pyval -> string) (json_parse : string -> result json)
        (message : CompletionMessage.t) (parts : list Part.t) (author : string) :
  response_parts json_parse message = Ok parts ->
  Forall (fun tc => CompletionToolCall.id tc <> "")
         (default [] (CompletionMessage.tool_calls message)) ->
  stable py_str (Event.mk author (Some (Content.mk "model" parts)))
  /\ _deserialize_event
       (reload (_serialize_event py_str (Event.mk author (Some (Content.mk "model" parts)))))
     = Ok (Event.mk author (Some (Content.mk "model" parts))).
Proof.
  intros Hparts Hids.
  assert (Hs : stable py_str (Event.mk author (Some (Content.mk "model" parts))));
    [|split; [exact Hs|now apply stable_reloads]].
  apply stable_of_parts. unfold response_parts in Hparts.
  destruct (rmap_list (call_part json_parse)
              (default [] (CompletionMessage.tool_calls message)))
    as [calls|] eqn:Hcalls; cbn [rbind] in Hparts; [|discriminate].
  injection Hparts as <-. apply Forall_app. split.
  - destruct (opt_truthy (CompletionMessage.content message)) eqn:Ht; [|constructor].
    destruct (CompletionMessage.content message) as [s|]; [|discriminate].
    constructor; [|constructor]. now apply text_part_stable.
  - revert calls Hcalls.
    induction Hids as [|tc tcs Hid _ IH]; intros calls; cbn [rmap_list].
    + intros [= <-]. constructor.
    + unfold call_part at 1.
      destruct (json_parse (CompletionToolCall.arguments tc)) as [j|]; cbn [rbind];
        [|discriminate].
      destruct (rmap_list (call_part json_parse) tcs) as [qs|]; cbn [rbind];
        [|discriminate].
      intros [= <-]. constructor; [|now apply IH].
      apply call_part_stable; [exact Hid|apply json_loads_plain].
Qed.

Lemma response_parts_stored_as_they_are_witness :
  response_parts sample_parse
    (CompletionMessage.mk (Some "Looking that up.")
       (Some [CompletionToolCall.mk "call_1" "list_files" "{}"]))
  = Ok [Part.of_text "Looking that up.";
        Part.of_call (FunctionCall.mk (Some "call_1") "list_files" (PDict []))]
  /\ _deserialize_event
       (reload (_serialize_event sample_str
                  (Event.mk "model"
                     (Some (Content.mk "model"
                        [Part.of_text "Looking that up.";
                         Part.of_call (FunctionCall.mk (Some "call_1") "list_files"
                                         (PDict []))])))))
     = Ok (Event.mk "model"
             (Some (Content.mk "model"
                [Part.of_text "Looking that up.";
                 Part.of_call (FunctionCall.mk (Some "call_1") "list_files"
                                 (PDict []))]))).
Proof.
  split; [reflexivity|].
  refine (proj2 (response_parts_stored_as_they_are sample_str sample_parse
                   (CompletionMessage.mk (Some "Looking that up.")
                      (Some [CompletionToolCall.mk "call_1" "list_files" "{}"]))
                   _ "model" eq_refl _)).
  repeat constructor. discriminate.
Defined.

(** ** Writes that fail *)





(** ** A restored history *)

Section Restored.
Variable py_str : pyval -> string.
Variable json_text : json -> string.

Lemma contents_loop_replayed messages :
  contents_loop py_str json_text (contents_of (replayed_events messages))
  = Ok (map chat_message_sent
          (List.filter (fun msg => opt_truthy (ChatMessage.content msg)) messages)).
Proof.
  induction messages as [|msg rest IH]; [reflexivity|].
  cbn [replayed_events List.filter].
  destruct (ChatMessage.content msg) as [[|c s]|] eqn:Hc; cbn [opt_truthy str_truthy];
    try exact IH.
  unfold contents_of in *. cbn [omap list_omap text_event Event.content].
  cbn [contents_loop]. rewrite IH. unfold content_messages.
  cbn [parts_loop Content.parts part_step Part.of_text Part.text opt_truthy str_truthy
       rbind default from_option id content_text acc_tool_calls tool_responses
       Content.role].
  rewrite append_nil_l. cbn [str_truthy rbind app map]. unfold chat_message_sent.
  now rewrite Hc.
Qed.

End Restored.

(** X29.  A history restored from the secondary store is accepted by the
    backend as it is: the message list built from the replayed events is the
    stored messages with content, in order, each sent with its text and no
    tool call, as [user] when its role is [user] and as [assistant]
    otherwise, after the system instruction if there is one; the repair
    pass changes nothing and the invariant of the backend holds. *)
Theorem restored_history_is_accepted (py_str : pyval -> string)
        (json_text : json -> string) (system_instruction : option string)
        (messages : list ChatMessage.t) :
  let sent :=
    (if opt_truthy system_instruction
     then [Message.mk "system" system_instruction None None] else [])
    ++ map chat_message_sent
         (List.filter (fun msg => opt_truthy (ChatMessage.content msg)) messages) in
  generate_content_messages py_str json_text system_instruction
    (contents_of (replayed_events messages)) = Ok sent
  /\ backend_invariant sent = true.
Proof.
  intros sent.
  assert (Hnone : Forall (fun m => Message.tool_calls m = None) sent).
  { subst sent. apply Forall_app. split.
    - destruct (opt_truthy system_instruction); repeat constructor.
    - apply Forall_map. apply Forall_forall. now intros msg _. }
  split.
  - unfold generate_content_messages, raw_messages.
    rewrite contents_loop_replayed. cbn [rbind]. fold sent.
    unfold repair. now rewrite clean_messages_no_calls.
  - apply backend_invariant_no_calls.
    eapply Forall_impl; [exact Hnone|]. intros m Hm. unfold calls_of. rewrite Hm.
    now destruct (String.eqb (Message.role m) "assistant").
Qed.

Lemma restored_history_is_accepted_witness :
  generate_content_messages sample_str (fun _ => "{}") (Some "Be brief.")
    (contents_of (replayed_events
                    [ChatMessage.mk "user" (Some "hi") 1;
                     ChatMessage.mk "assistant" (Some "") 2;
                     ChatMessage.mk "assistant" (Some "hello") 3]))
  = Ok [Message.mk "system" (Some "Be brief.") None None;
        Message.mk "user" (Some "hi") None None;
        Message.mk "assistant" (Some "hello") None None].
Proof.
  exact (proj1 (restored_history_is_accepted sample_str (fun _ => "{}") (Some "Be brief.")
                  [ChatMessage.mk "user" (Some "hi") 1;
                   ChatMessage.mk "assistant" (Some "") 2;
                   ChatMessage.mk "assistant" (Some "hello") 3])).
Defined.
